(** * Release adapter: a shallow embedding of controllers/release/release_adapter.go

    The adapter reconciles one [Release] against a cluster through a client.
    Every operation of the Go file is a function of the state monad [M] over a
    [World]: the in-memory Release held by the adapter, the cluster contents,
    the schedule of client failures and the record of the client calls made. *)

From Stdlib Require Import Ascii.
From stdpp Require Import gmap strings list pretty.

(** ** Go's [strings] package, as far as the adapter uses it *)

Module Strings.

(** [strings.Contains s substr]: [substr] occurs in [s] at some offset. *)
Fixpoint Contains (s substr : string) : bool :=
  if String.prefix substr s then true
  else match s with
       | EmptyString => false
       | String _ s' => Contains s' substr
       end.

(** [strings.Split s sep] for a separator of one character: the segments
    between consecutive separators, so [n] separators give [n + 1] segments
    and the empty string gives one empty segment. *)
Fixpoint Split (s : string) (sep : ascii) : list string :=
  match s with
  | EmptyString => [EmptyString]
  | String c s' =>
      if Ascii.eqb c sep then EmptyString :: Split s' sep
      else match Split s' sep with
           | [] => [String c EmptyString]
           | seg :: segs => String c seg :: segs
           end
  end.

(** A string that holds no occurrence of the character [c]. *)
Fixpoint free_of (c : ascii) (s : string) : bool :=
  match s with
  | EmptyString => true
  | String c' s' => negb (Ascii.eqb c' c) && free_of c s'
  end.

End Strings.

(** ** Errors

    Three sources of errors reach the adapter: an API status error with reason
    NotFound, any other failure of a client call (transport, conflict,
    timeout), and the errors the adapter builds itself with [fmt.Errorf]. *)

Inductive error :=
| StatusNotFound (msg : string)
| ClientFailure (msg : string)
| Errorf (msg : string).

#[global] Instance error_eq_dec : EqDecision error.
Proof. solve_decision. Defined.

(** [err.Error()] *)
Definition Error (e : error) : string :=
  match e with
  | StatusNotFound msg | ClientFailure msg | Errorf msg => msg
  end.

(** [errors.IsNotFound(err)] of k8s.io/apimachinery *)
Definition IsNotFound (e : error) : bool :=
  match e with
  | StatusNotFound _ => true
  | _ => false
  end.

(** ** Object metadata and conditions (k8s.io/apimachinery) *)

Definition Time := nat.

Record ObjectMeta := {
  Name : string;
  GenerateName : string;
  Namespace : string;
  Labels : gmap string string;
  Finalizers : list string;
  DeletionTimestamp : option Time;
  (** owner reference set by [ctrl.SetControllerReference] *)
  Controller : option string;
  (** owner annotations set by [libhandler.SetOwnerAnnotations] or by the
      PipelineRun builder: the namespaced name of the owning Release *)
  OwnerAnnotation : option (string * string)
}.

#[global] Instance ObjectMeta_eq_dec : EqDecision ObjectMeta.
Proof. solve_decision. Defined.

Definition meta_named (ns name : string) : ObjectMeta :=
  {| Name := name; GenerateName := EmptyString; Namespace := ns; Labels := ∅;
     Finalizers := []; DeletionTimestamp := None; Controller := None;
     OwnerAnnotation := None |}.

Definition with_Name (name : string) (m : ObjectMeta) : ObjectMeta :=
  {| Name := name; GenerateName := GenerateName m; Namespace := Namespace m;
     Labels := Labels m; Finalizers := Finalizers m;
     DeletionTimestamp := DeletionTimestamp m; Controller := Controller m;
     OwnerAnnotation := OwnerAnnotation m |}.

Definition with_Labels (l : gmap string string) (m : ObjectMeta) : ObjectMeta :=
  {| Name := Name m; GenerateName := GenerateName m; Namespace := Namespace m;
     Labels := l; Finalizers := Finalizers m;
     DeletionTimestamp := DeletionTimestamp m; Controller := Controller m;
     OwnerAnnotation := OwnerAnnotation m |}.

Definition with_Finalizers (f : list string) (m : ObjectMeta) : ObjectMeta :=
  {| Name := Name m; GenerateName := GenerateName m; Namespace := Namespace m;
     Labels := Labels m; Finalizers := f;
     DeletionTimestamp := DeletionTimestamp m; Controller := Controller m;
     OwnerAnnotation := OwnerAnnotation m |}.

Definition with_Controller (o : option string) (m : ObjectMeta) : ObjectMeta :=
  {| Name := Name m; GenerateName := GenerateName m; Namespace := Namespace m;
     Labels := Labels m; Finalizers := Finalizers m;
     DeletionTimestamp := DeletionTimestamp m; Controller := o;
     OwnerAnnotation := OwnerAnnotation m |}.

Definition with_OwnerAnnotation (o : option (string * string)) (m : ObjectMeta)
  : ObjectMeta :=
  {| Name := Name m; GenerateName := GenerateName m; Namespace := Namespace m;
     Labels := Labels m; Finalizers := Finalizers m;
     DeletionTimestamp := DeletionTimestamp m; Controller := Controller m;
     OwnerAnnotation := o |}.

(** [types.NamespacedName] and [types.Separator] *)
Record NamespacedName := { key_Namespace : string; key_Name : string }.

#[global] Instance NamespacedName_eq_dec : EqDecision NamespacedName.
Proof. solve_decision. Defined.

Definition Separator : ascii := "/"%char.

(** [fmt.Sprintf("%s%c%s", namespace, types.Separator, name)] *)
Definition Sprintf_namespaced (namespace name : string) : string :=
  namespace +:+ String Separator name.

Inductive ConditionStatus := ConditionTrue | ConditionFalse | ConditionUnknown.

#[global] Instance ConditionStatus_eq_dec : EqDecision ConditionStatus.
Proof. solve_decision. Defined.

Record Condition := {
  Type_ : string;
  Status : ConditionStatus;
  Reason : string;
  Message : string
}.

#[global] Instance Condition_eq_dec : EqDecision Condition.
Proof. solve_decision. Defined.

Module Meta.

(** [meta.FindStatusCondition]: the first condition of the given type. *)
Definition FindStatusCondition (conditions : list Condition) (ty : string)
  : option Condition :=
  List.find (fun c => bool_decide (Type_ c = ty)) conditions.

(** [meta.IsStatusConditionTrue] *)
Definition IsStatusConditionTrue (conditions : list Condition) (ty : string)
  : bool :=
  match FindStatusCondition conditions ty with
  | Some c => bool_decide (Status c = ConditionTrue)
  | None => false
  end.

(** [meta.SetStatusCondition]: replace the condition of the same type, or
    append the new one. *)
Fixpoint SetStatusCondition (conditions : list Condition) (new : Condition)
  : list Condition :=
  match conditions with
  | [] => [new]
  | c :: cs =>
      if bool_decide (Type_ c = Type_ new) then new :: cs
      else c :: SetStatusCondition cs new
  end.

(** [controllerutil.ContainsFinalizer] *)
Definition ContainsFinalizer (m : ObjectMeta) (finalizer : string) : bool :=
  existsb (fun f => bool_decide (f = finalizer)) (Finalizers m).

(** [controllerutil.AddFinalizer]: append unless already present. *)
Definition AddFinalizer (m : ObjectMeta) (finalizer : string) : ObjectMeta :=
  if ContainsFinalizer m finalizer then m
  else with_Finalizers (Finalizers m ++ [finalizer]) m.

(** [controllerutil.RemoveFinalizer]: drop every occurrence. *)
Definition RemoveFinalizer (m : ObjectMeta) (finalizer : string) : ObjectMeta :=
  with_Finalizers
    (List.filter (fun f => negb (bool_decide (f = finalizer))) (Finalizers m)) m.

End Meta.

(** ** The resources the adapter reads and writes

    Each Go struct keeps the fields the adapter touches; the embedded
    [metav1.ObjectMeta] is the [meta] field and the [Spec] fields are
    flattened into the record. *)

Inductive Kind :=
| KRelease | KReleasePlan | KReleasePlanAdmission | KReleaseStrategy
| KEnterpriseContractPolicy | KSnapshot | KApplication | KComponent
| KEnvironment | KPipelineRun | KSnapshotEnvironmentBinding.

#[global] Instance Kind_eq_dec : EqDecision Kind.
Proof. solve_decision. Defined.

(** The plural resource name that a NotFound status error prints. *)
Definition resource_of (k : Kind) : string :=
  match k with
  | KRelease => "releases.appstudio.redhat.com"
  | KReleasePlan => "releaseplans.appstudio.redhat.com"
  | KReleasePlanAdmission => "releaseplanadmissions.appstudio.redhat.com"
  | KReleaseStrategy => "releasestrategies.appstudio.redhat.com"
  | KEnterpriseContractPolicy => "enterprisecontractpolicies.appstudio.redhat.com"
  | KSnapshot => "snapshots.appstudio.redhat.com"
  | KApplication => "applications.appstudio.redhat.com"
  | KComponent => "components.appstudio.redhat.com"
  | KEnvironment => "environments.appstudio.redhat.com"
  | KPipelineRun => "pipelineruns.tekton.dev"
  | KSnapshotEnvironmentBinding =>
      "snapshotenvironmentbindings.appstudio.redhat.com"
  end.

Module ReleasePlan.
Record t := { meta : ObjectMeta; Application : string; Target : string }.
End ReleasePlan.

Module ReleasePlanAdmission.
Record t := {
  meta : ObjectMeta;
  Application : string;
  Origin : string;
  Environment : string;
  ReleaseStrategy : string
}.
End ReleasePlanAdmission.

Module ReleaseStrategy.
Record t := { meta : ObjectMeta; Pipeline : string; Policy : string }.
End ReleaseStrategy.

Module EnterpriseContractPolicy.
Record t := { meta : ObjectMeta }.
End EnterpriseContractPolicy.

Module Snapshot.
Record t := { meta : ObjectMeta; Application : string; Components : list string }.
End Snapshot.

Module Application.
Record t := { meta : ObjectMeta }.
End Application.

Module Component.
Record t := { meta : ObjectMeta; Application : string }.
End Component.

Module Environment.
Record t := { meta : ObjectMeta }.
End Environment.

Module PipelineRun.
Record t := {
  meta : ObjectMeta;
  PipelineRef : string;
  Params : list (string * string);
  (** [Status.GetCondition(apis.ConditionSucceeded)]: status and message *)
  Succeeded : option (ConditionStatus * string)
}.

(** tekton's [IsDone]: the Succeeded condition exists and is not Unknown. *)
Definition IsDone (pr : t) : bool :=
  match Succeeded pr with
  | Some (ConditionUnknown, _) | None => false
  | Some _ => true
  end.
End PipelineRun.

Module SnapshotEnvironmentBinding.
Record t := {
  meta : ObjectMeta;
  Application : string;
  Environment : string;
  Snapshot : string;
  Components : list string;
  ComponentDeploymentConditions : list Condition
}.
End SnapshotEnvironmentBinding.

(** *** Release

    The struct and its status methods live in api/v1alpha1, outside the
    adapter's file. *)

Module Release.

Record ReleaseStatus := {
  ReleasePipelineRun : string;
  ReleaseStrategy : string;
  Target : string;
  SnapshotEnvironmentBinding : string;
  StartTime : option Time;
  CompletionTime : option Time;
  Conditions : list Condition
}.

#[global] Instance ReleaseStatus_eq_dec : EqDecision ReleaseStatus.
Proof. solve_decision. Defined.

Record t := {
  meta : ObjectMeta;
  Snapshot : string;
  ReleasePlan : string;
  status : ReleaseStatus
}.

#[global] Instance t_eq_dec : EqDecision t.
Proof. solve_decision. Defined.

Definition with_meta (m : ObjectMeta) (r : t) : t :=
  {| meta := m; Snapshot := Snapshot r; ReleasePlan := ReleasePlan r;
     status := status r |}.

Definition with_status (s : ReleaseStatus) (r : t) : t :=
  {| meta := meta r; Snapshot := Snapshot r; ReleasePlan := ReleasePlan r;
     status := s |}.

Definition with_Conditions (cs : list Condition) (s : ReleaseStatus)
  : ReleaseStatus :=
  {| ReleasePipelineRun := ReleasePipelineRun s;
     ReleaseStrategy := ReleaseStrategy s; Target := Target s;
     SnapshotEnvironmentBinding := SnapshotEnvironmentBinding s;
     StartTime := StartTime s; CompletionTime := CompletionTime s;
     Conditions := cs |}.

Definition with_StartTime (t0 : option Time) (s : ReleaseStatus)
  : ReleaseStatus :=
  {| ReleasePipelineRun := ReleasePipelineRun s;
     ReleaseStrategy := ReleaseStrategy s; Target := Target s;
     SnapshotEnvironmentBinding := SnapshotEnvironmentBinding s;
     StartTime := t0; CompletionTime := CompletionTime s;
     Conditions := Conditions s |}.

Definition with_CompletionTime (t0 : option Time) (s : ReleaseStatus)
  : ReleaseStatus :=
  {| ReleasePipelineRun := ReleasePipelineRun s;
     ReleaseStrategy := ReleaseStrategy s; Target := Target s;
     SnapshotEnvironmentBinding := SnapshotEnvironmentBinding s;
     StartTime := StartTime s; CompletionTime := t0;
     Conditions := Conditions s |}.

Definition with_SnapshotEnvironmentBinding (b : string) (s : ReleaseStatus)
  : ReleaseStatus :=
  {| ReleasePipelineRun := ReleasePipelineRun s;
     ReleaseStrategy := ReleaseStrategy s; Target := Target s;
     SnapshotEnvironmentBinding := b;
     StartTime := StartTime s; CompletionTime := CompletionTime s;
     Conditions := Conditions s |}.

Definition with_run_data (run strategy target : string) (s : ReleaseStatus)
  : ReleaseStatus :=
  {| ReleasePipelineRun := run; ReleaseStrategy := strategy; Target := target;
     SnapshotEnvironmentBinding := SnapshotEnvironmentBinding s;
     StartTime := StartTime s; CompletionTime := CompletionTime s;
     Conditions := Conditions s |}.

(** The two condition types a Release carries. *)
Definition releaseConditionType : string := "Succeeded".
Definition AllComponentsDeployedConditionType : string := "AllComponentsDeployed".

(** Modelled from the spec: the [ReleaseReason] constants of api/v1alpha1 are
    not part of the adapter's file; the spec speaks of a machine-readable
    reason that distinguishes each validation failure, so each constant is a
    distinct string. *)
Definition ReleaseReasonValidationError : string := "ReleaseValidationError".
Definition ReleaseReasonTargetDisabledError : string := "ReleaseTargetDisabledError".
Definition ReleaseReasonReleasePlanValidationError : string :=
  "ReleasePlanValidationError".
Definition ReleaseReasonPipelineFailed : string := "ReleasePipelineFailed".
Definition ReleaseReasonRunning : string := "Running".
Definition ReleaseReasonSucceeded : string := "Succeeded".

Definition setStatusCondition (st : ConditionStatus) (reason message : string)
    (r : t) : t :=
  with_status
    (with_Conditions
       (Meta.SetStatusCondition (Conditions (status r))
          {| Type_ := releaseConditionType; Status := st; Reason := reason;
             Message := message |})
       (status r)) r.

Definition setDeploymentCondition (st : ConditionStatus)
    (reason message : string) (r : t) : t :=
  with_status
    (with_Conditions
       (Meta.SetStatusCondition (Conditions (status r))
          {| Type_ := AllComponentsDeployedConditionType; Status := st;
             Reason := reason; Message := message |})
       (status r)) r.

(** Modelled from the spec: the status methods of Release are declared in
    api/v1alpha1; the spec's state machine reads "has started" as the start
    of the execution being recorded, "done" as a terminal Succeeded
    condition, "succeeded" as that condition being true and "deployed" as the
    deployment condition being true. *)
Definition HasStarted (r : t) : bool :=
  match StartTime (status r) with Some _ => true | None => false end.

Definition IsDone (r : t) : bool :=
  match Meta.FindStatusCondition (Conditions (status r)) releaseConditionType with
  | Some c => negb (bool_decide (Status c = ConditionUnknown))
  | None => false
  end.

Definition HasSucceeded (r : t) : bool :=
  Meta.IsStatusConditionTrue (Conditions (status r)) releaseConditionType.

Definition HasBeenDeployed (r : t) : bool :=
  Meta.IsStatusConditionTrue (Conditions (status r))
    AllComponentsDeployedConditionType.

(** Modelled from the spec: the Mark methods of Release are declared in
    api/v1alpha1; each one projects an outcome onto the status conditions
    with a reason and a message, as the spec's status projection says. *)
Definition MarkInvalid (reason message : string) (r : t) : t :=
  setStatusCondition ConditionFalse reason message r.

Definition MarkRunning (now : Time) (r : t) : t :=
  setStatusCondition ConditionUnknown ReleaseReasonRunning EmptyString
    (with_status (with_StartTime (Some now) (status r)) r).

Definition MarkSucceeded (r : t) : t :=
  setStatusCondition ConditionTrue ReleaseReasonSucceeded EmptyString r.

Definition MarkFailed (reason message : string) (r : t) : t :=
  setStatusCondition ConditionFalse reason message r.

Definition MarkDeploying (reason message : string) (r : t) : t :=
  setDeploymentCondition ConditionUnknown reason message r.

Definition MarkDeployed (st : ConditionStatus) (reason message : string)
    (r : t) : t :=
  setDeploymentCondition st reason message r.

(** A Release is invalid for [reason] when its Succeeded condition is false
    with that reason. *)
Definition invalid_for (reason message : string) (r : t) : Prop :=
  Meta.FindStatusCondition (Conditions (status r)) releaseConditionType
  = Some {| Type_ := releaseConditionType; Status := ConditionFalse;
            Reason := reason; Message := message |}.

End Release.

(** ** The cluster and the client

    The resource store is an external collaborator.  Its contents are one
    list per kind, in the order a List call returns them. *)

Record Cluster := {
  releases : list Release.t;
  releasePlans : list ReleasePlan.t;
  releasePlanAdmissions : list ReleasePlanAdmission.t;
  releaseStrategies : list ReleaseStrategy.t;
  enterpriseContractPolicies : list EnterpriseContractPolicy.t;
  snapshots : list Snapshot.t;
  applications : list Application.t;
  components : list Component.t;
  environments : list Environment.t;
  pipelineRuns : list PipelineRun.t;
  snapshotEnvironmentBindings : list SnapshotEnvironmentBinding.t;
  (** how many names the API server has generated so far *)
  generation : nat
}.

Definition with_releases (l : list Release.t) (c : Cluster) : Cluster :=
  {| releases := l; releasePlans := releasePlans c;
     releasePlanAdmissions := releasePlanAdmissions c;
     releaseStrategies := releaseStrategies c;
     enterpriseContractPolicies := enterpriseContractPolicies c;
     snapshots := snapshots c; applications := applications c;
     components := components c; environments := environments c;
     pipelineRuns := pipelineRuns c;
     snapshotEnvironmentBindings := snapshotEnvironmentBindings c;
     generation := generation c |}.

Definition with_snapshots (l : list Snapshot.t) (c : Cluster) : Cluster :=
  {| releases := releases c; releasePlans := releasePlans c;
     releasePlanAdmissions := releasePlanAdmissions c;
     releaseStrategies := releaseStrategies c;
     enterpriseContractPolicies := enterpriseContractPolicies c;
     snapshots := l; applications := applications c;
     components := components c; environments := environments c;
     pipelineRuns := pipelineRuns c;
     snapshotEnvironmentBindings := snapshotEnvironmentBindings c;
     generation := generation c |}.

Definition with_pipelineRuns (l : list PipelineRun.t) (c : Cluster) : Cluster :=
  {| releases := releases c; releasePlans := releasePlans c;
     releasePlanAdmissions := releasePlanAdmissions c;
     releaseStrategies := releaseStrategies c;
     enterpriseContractPolicies := enterpriseContractPolicies c;
     snapshots := snapshots c; applications := applications c;
     components := components c; environments := environments c;
     pipelineRuns := l;
     snapshotEnvironmentBindings := snapshotEnvironmentBindings c;
     generation := generation c |}.

Definition with_snapshotEnvironmentBindings
    (l : list SnapshotEnvironmentBinding.t) (c : Cluster) : Cluster :=
  {| releases := releases c; releasePlans := releasePlans c;
     releasePlanAdmissions := releasePlanAdmissions c;
     releaseStrategies := releaseStrategies c;
     enterpriseContractPolicies := enterpriseContractPolicies c;
     snapshots := snapshots c; applications := applications c;
     components := components c; environments := environments c;
     pipelineRuns := pipelineRuns c;
     snapshotEnvironmentBindings := l;
     generation := generation c |}.

Definition next_generation (c : Cluster) : Cluster :=
  {| releases := releases c; releasePlans := releasePlans c;
     releasePlanAdmissions := releasePlanAdmissions c;
     releaseStrategies := releaseStrategies c;
     enterpriseContractPolicies := enterpriseContractPolicies c;
     snapshots := snapshots c; applications := applications c;
     components := components c; environments := environments c;
     pipelineRuns := pipelineRuns c;
     snapshotEnvironmentBindings := snapshotEnvironmentBindings c;
     generation := S (generation c) |}.

(** [client.Object]: what the client needs of a resource type.  [field_of] is
    the value of a field index registered with the cache. *)
Class Object (X : Type) := {
  kind_of : Kind;
  meta_of : X -> ObjectMeta;
  set_meta : ObjectMeta -> X -> X;
  field_of : string -> X -> option string;
  table : Cluster -> list X
}.

#[global] Instance Release_Object : Object Release.t := {|
  kind_of := KRelease; meta_of := Release.meta; set_meta := Release.with_meta;
  field_of := fun _ _ => None; table := releases |}.

#[global] Instance ReleasePlan_Object : Object ReleasePlan.t := {|
  kind_of := KReleasePlan; meta_of := ReleasePlan.meta;
  set_meta := fun m x =>
    {| ReleasePlan.meta := m; ReleasePlan.Application := ReleasePlan.Application x;
       ReleasePlan.Target := ReleasePlan.Target x |};
  field_of := fun _ _ => None; table := releasePlans |}.

(** Modelled from the spec: the field index "spec.origin" is registered with
    the cache outside the adapter's file; the spec calls it the indexed origin
    field of a ReleasePlanAdmission. *)
#[global] Instance ReleasePlanAdmission_Object : Object ReleasePlanAdmission.t := {|
  kind_of := KReleasePlanAdmission; meta_of := ReleasePlanAdmission.meta;
  set_meta := fun m x =>
    {| ReleasePlanAdmission.meta := m;
       ReleasePlanAdmission.Application := ReleasePlanAdmission.Application x;
       ReleasePlanAdmission.Origin := ReleasePlanAdmission.Origin x;
       ReleasePlanAdmission.Environment := ReleasePlanAdmission.Environment x;
       ReleasePlanAdmission.ReleaseStrategy := ReleasePlanAdmission.ReleaseStrategy x |};
  field_of := fun f x =>
    if bool_decide (f = "spec.origin") then Some (ReleasePlanAdmission.Origin x)
    else None;
  table := releasePlanAdmissions |}.

#[global] Instance ReleaseStrategy_Object : Object ReleaseStrategy.t := {|
  kind_of := KReleaseStrategy; meta_of := ReleaseStrategy.meta;
  set_meta := fun m x =>
    {| ReleaseStrategy.meta := m; ReleaseStrategy.Pipeline := ReleaseStrategy.Pipeline x;
       ReleaseStrategy.Policy := ReleaseStrategy.Policy x |};
  field_of := fun _ _ => None; table := releaseStrategies |}.

#[global] Instance EnterpriseContractPolicy_Object
  : Object EnterpriseContractPolicy.t := {|
  kind_of := KEnterpriseContractPolicy; meta_of := EnterpriseContractPolicy.meta;
  set_meta := fun m _ => {| EnterpriseContractPolicy.meta := m |};
  field_of := fun _ _ => None; table := enterpriseContractPolicies |}.

#[global] Instance Snapshot_Object : Object Snapshot.t := {|
  kind_of := KSnapshot; meta_of := Snapshot.meta;
  set_meta := fun m x =>
    {| Snapshot.meta := m; Snapshot.Application := Snapshot.Application x;
       Snapshot.Components := Snapshot.Components x |};
  field_of := fun _ _ => None; table := snapshots |}.

#[global] Instance Application_Object : Object Application.t := {|
  kind_of := KApplication; meta_of := Application.meta;
  set_meta := fun m _ => {| Application.meta := m |};
  field_of := fun _ _ => None; table := applications |}.

(** Modelled from the spec: the field index "spec.application" of a Component
    is registered with the cache outside the adapter's file. *)
#[global] Instance Component_Object : Object Component.t := {|
  kind_of := KComponent; meta_of := Component.meta;
  set_meta := fun m x =>
    {| Component.meta := m; Component.Application := Component.Application x |};
  field_of := fun f x =>
    if bool_decide (f = "spec.application") then Some (Component.Application x)
    else None;
  table := components |}.

#[global] Instance Environment_Object : Object Environment.t := {|
  kind_of := KEnvironment; meta_of := Environment.meta;
  set_meta := fun m _ => {| Environment.meta := m |};
  field_of := fun _ _ => None; table := environments |}.

#[global] Instance PipelineRun_Object : Object PipelineRun.t := {|
  kind_of := KPipelineRun; meta_of := PipelineRun.meta;
  set_meta := fun m x =>
    {| PipelineRun.meta := m; PipelineRun.PipelineRef := PipelineRun.PipelineRef x;
       PipelineRun.Params := PipelineRun.Params x;
       PipelineRun.Succeeded := PipelineRun.Succeeded x |};
  field_of := fun _ _ => None; table := pipelineRuns |}.

(** Modelled from the spec: the field index "spec.environment" of a
    SnapshotEnvironmentBinding is registered with the cache outside the
    adapter's file; the spec looks bindings up by the declared environment
    name among the bindings of a namespace. *)
#[global] Instance SnapshotEnvironmentBinding_Object
  : Object SnapshotEnvironmentBinding.t := {|
  kind_of := KSnapshotEnvironmentBinding;
  meta_of := SnapshotEnvironmentBinding.meta;
  set_meta := fun m x =>
    {| SnapshotEnvironmentBinding.meta := m;
       SnapshotEnvironmentBinding.Application := SnapshotEnvironmentBinding.Application x;
       SnapshotEnvironmentBinding.Environment := SnapshotEnvironmentBinding.Environment x;
       SnapshotEnvironmentBinding.Snapshot := SnapshotEnvironmentBinding.Snapshot x;
       SnapshotEnvironmentBinding.Components := SnapshotEnvironmentBinding.Components x;
       SnapshotEnvironmentBinding.ComponentDeploymentConditions :=
         SnapshotEnvironmentBinding.ComponentDeploymentConditions x |};
  field_of := fun f x =>
    if bool_decide (f = "spec.environment")
    then Some (SnapshotEnvironmentBinding.Environment x) else None;
  table := snapshotEnvironmentBindings |}.

Definition key_of `{Object X} (x : X) : NamespacedName :=
  {| key_Namespace := Namespace (meta_of x); key_Name := Name (meta_of x) |}.

Definition has_key `{Object X} (key : NamespacedName) (x : X) : bool :=
  bool_decide (key_of x = key).

(** [client.ListOption] *)
Inductive ListOption :=
| InNamespace (ns : string)
| MatchingFields (field value : string)
| MatchingLabels (labels : list (string * string))
| Limit (n : nat).

Definition selects `{Object X} (x : X) (o : ListOption) : bool :=
  match o with
  | InNamespace ns => bool_decide (Namespace (meta_of x) = ns)
  | MatchingFields f v => bool_decide (field_of f x = Some v)
  | MatchingLabels ls =>
      forallb (fun kv => bool_decide (Labels (meta_of x) !! kv.1 = Some kv.2)) ls
  | Limit _ => true
  end.

Fixpoint limit_of (opts : list ListOption) : option nat :=
  match opts with
  | [] => None
  | Limit n :: _ => Some n
  | _ :: opts' => limit_of opts'
  end.

Definition list_objects `{Object X} (opts : list ListOption) (c : Cluster)
  : list X :=
  let matching := List.filter (fun x => forallb (selects x) opts) (table c) in
  match limit_of opts with
  | Some n => take n matching
  | None => matching
  end.

(** The client calls the adapter makes, recorded in order whether or not they
    succeed. *)
Inductive Call :=
| CallGet (k : Kind) (key : NamespacedName)
| CallList (k : Kind) (opts : list ListOption)
| CallCreate (k : Kind)
| CallDelete (k : Kind) (key : NamespacedName)
| CallPatch
| CallStatusPatch
| CallSyncSnapshot (snapshot target : string).

(** ** The world of one reconciliation pass *)

Record World := {
  (** the Release the adapter holds in memory ([a.release]) *)
  release : Release.t;
  cluster : Cluster;
  (** what the next client calls do: [Some e] fails the call with [e] and
      leaves the cluster alone, [None] (or an exhausted schedule) lets the
      call through *)
  faults : list (option error);
  calls : list Call;
  clock : Time
}.

Definition with_release (r : Release.t) (w : World) : World :=
  {| release := r; cluster := cluster w; faults := faults w; calls := calls w;
     clock := clock w |}.

Definition with_cluster (c : Cluster) (w : World) : World :=
  {| release := release w; cluster := c; faults := faults w; calls := calls w;
     clock := clock w |}.

Definition M (A : Type) : Type := World -> A * World.

Definition ret {A} (a : A) : M A := fun w => (a, w).

Definition bind {A B} (m : M A) (k : A -> M B) : M B :=
  fun w => let (a, w') := m w in k a w'.

Notation "x <- m ;; k" := (bind m (fun x => k))
  (at level 100, m at next level, right associativity).
Notation "m ;;; k" := (bind m (fun _ => k))
  (at level 100, right associativity).

Definition get_release : M Release.t := fun w => (release w, w).

Definition modify_release (f : Release.t -> Release.t) : M unit :=
  fun w => (tt, with_release (f (release w)) w).

(** [time.Now()] *)
Definition Now : M Time := fun w => (clock w, w).

(** Every client call is recorded and consults the failure schedule. *)
Definition call (c : Call) : M (option error) :=
  fun w =>
    let w' := {| release := release w; cluster := cluster w;
                 faults := tail (faults w); calls := calls w ++ [c];
                 clock := clock w |} in
    match faults w with
    | Some e :: _ => (Some e, w')
    | _ => (None, w')
    end.

(** [%q]: the text between double quotes. *)
Definition quoted (s : string) : string :=
  String "034"%char (s +:+ String "034"%char EmptyString).

Definition NewNotFound (k : Kind) (name : string) : error :=
  StatusNotFound (resource_of k +:+ " " +:+ quoted name +:+ " not found").

Module Client.

(** [client.Get]: the object stored under the key, or a NotFound status
    error. *)
Definition Get `{Object X} (key : NamespacedName) : M (error + X) :=
  failure <- call (CallGet kind_of key) ;;
  match failure with
  | Some e => ret (inl e)
  | None => fun w =>
      match List.find (has_key key) (table (cluster w)) with
      | Some x => (inr x, w)
      | None => (inl (NewNotFound kind_of (key_Name key)), w)
      end
  end.

(** [client.List]: the stored objects every option selects, cut at the
    limit. *)
Definition List `{Object X} (opts : list ListOption) : M (error + list X) :=
  failure <- call (CallList kind_of opts) ;;
  match failure with
  | Some e => ret (inl e)
  | None => fun w => (inr (list_objects opts (cluster w)), w)
  end.

(** The name the API server gives an object created without one. *)
Definition assign_name (c : Cluster) (m : ObjectMeta) : ObjectMeta :=
  if bool_decide (Name m = EmptyString)
  then with_Name (GenerateName m +:+ pretty (generation c)) m
  else m.

Definition AlreadyExists (k : Kind) (name : string) : error :=
  ClientFailure (resource_of k +:+ " " +:+ quoted name +:+ " already exists").

(** [client.Create] of a PipelineRun: the object is stored under its
    (generated) name and handed back with that name filled in. *)
Definition CreatePipelineRun (pr : PipelineRun.t) : M (error + PipelineRun.t) :=
  failure <- call (CallCreate KPipelineRun) ;;
  match failure with
  | Some e => ret (inl e)
  | None => fun w =>
      let c := cluster w in
      let pr' := set_meta (assign_name c (meta_of pr)) pr in
      if existsb (has_key (key_of pr')) (pipelineRuns c)
      then (inl (AlreadyExists KPipelineRun (Name (meta_of pr'))), w)
      else (inr pr',
            with_cluster
              (next_generation (with_pipelineRuns (pipelineRuns c ++ [pr']) c)) w)
  end.

(** [client.Create] of a SnapshotEnvironmentBinding. *)
Definition CreateSnapshotEnvironmentBinding (b : SnapshotEnvironmentBinding.t)
  : M (error + SnapshotEnvironmentBinding.t) :=
  failure <- call (CallCreate KSnapshotEnvironmentBinding) ;;
  match failure with
  | Some e => ret (inl e)
  | None => fun w =>
      let c := cluster w in
      let b' := set_meta (assign_name c (meta_of b)) b in
      if existsb (has_key (key_of b')) (snapshotEnvironmentBindings c)
      then (inl (AlreadyExists KSnapshotEnvironmentBinding (Name (meta_of b'))), w)
      else (inr b',
            with_cluster
              (next_generation
                 (with_snapshotEnvironmentBindings
                    (snapshotEnvironmentBindings c ++ [b']) c)) w)
  end.

(** [client.Delete] of a PipelineRun: a NotFound status error when nothing
    is stored under its key. *)
Definition DeletePipelineRun (pr : PipelineRun.t) : M (option error) :=
  failure <- call (CallDelete KPipelineRun (key_of pr)) ;;
  match failure with
  | Some e => ret (Some e)
  | None => fun w =>
      let c := cluster w in
      if existsb (has_key (key_of pr)) (pipelineRuns c)
      then (None,
            with_cluster
              (with_pipelineRuns
                 (List.filter (fun x => negb (has_key (key_of pr) x))
                    (pipelineRuns c)) c) w)
      else (Some (NewNotFound KPipelineRun (Name (meta_of pr))), w)
  end.

(** A merge patch carries the fields that differ between the copy taken
    before the mutation ([base]) and the mutated object ([obj]); the stored
    object keeps every other field. *)
Definition merge {A} `{EqDecision A} (base obj stored : A) : A :=
  if bool_decide (base = obj) then stored else obj.

Definition merge_meta (base obj stored : ObjectMeta) : ObjectMeta :=
  with_Finalizers (merge (Finalizers base) (Finalizers obj) (Finalizers stored))
    stored.

Definition merge_status (base obj stored : Release.ReleaseStatus)
  : Release.ReleaseStatus :=
  {| Release.ReleasePipelineRun :=
       merge (Release.ReleasePipelineRun base) (Release.ReleasePipelineRun obj)
         (Release.ReleasePipelineRun stored);
     Release.ReleaseStrategy :=
       merge (Release.ReleaseStrategy base) (Release.ReleaseStrategy obj)
         (Release.ReleaseStrategy stored);
     Release.Target :=
       merge (Release.Target base) (Release.Target obj) (Release.Target stored);
     Release.SnapshotEnvironmentBinding :=
       merge (Release.SnapshotEnvironmentBinding base)
         (Release.SnapshotEnvironmentBinding obj)
         (Release.SnapshotEnvironmentBinding stored);
     Release.StartTime :=
       merge (Release.StartTime base) (Release.StartTime obj)
         (Release.StartTime stored);
     Release.CompletionTime :=
       merge (Release.CompletionTime base) (Release.CompletionTime obj)
         (Release.CompletionTime stored);
     Release.Conditions :=
       merge (Release.Conditions base) (Release.Conditions obj)
         (Release.Conditions stored) |}.

Fixpoint update_release (key : NamespacedName) (f : Release.t -> Release.t)
    (l : list Release.t) : list Release.t :=
  match l with
  | [] => []
  | r :: l' =>
      if has_key key r then f r :: l' else r :: update_release key f l'
  end.

(** [a.client.Patch(ctx, a.release, client.MergeFrom(base))]: the metadata
    the adapter changed since [base] (its finalizers) is written onto the
    stored Release.  The in-memory Release stays as the adapter mutated it:
    the driver runs one pass per Release at a time, so the patched object the
    server answers with is that very object. *)
Definition Patch (base : Release.t) : M (option error) :=
  failure <- call CallPatch ;;
  match failure with
  | Some e => ret (Some e)
  | None => fun w =>
      let c := cluster w in
      let obj := release w in
      if existsb (has_key (key_of obj)) (releases c)
      then (None,
            with_cluster
              (with_releases
                 (update_release (key_of obj)
                    (fun stored =>
                       Release.with_meta
                         (merge_meta (Release.meta base) (Release.meta obj)
                            (Release.meta stored)) stored)
                    (releases c)) c) w)
      else (Some (NewNotFound KRelease (Name (meta_of obj))), w)
  end.

(** [a.client.Status().Patch(ctx, a.release, client.MergeFrom(base))]: the
    same for the status subresource. *)
Definition StatusPatch (base : Release.t) : M (option error) :=
  failure <- call CallStatusPatch ;;
  match failure with
  | Some e => ret (Some e)
  | None => fun w =>
      let c := cluster w in
      let obj := release w in
      if existsb (has_key (key_of obj)) (releases c)
      then (None,
            with_cluster
              (with_releases
                 (update_release (key_of obj)
                    (fun stored =>
                       Release.with_status
                         (merge_status (Release.status base) (Release.status obj)
                            (Release.status stored)) stored)
                    (releases c)) c) w)
      else (Some (NewNotFound KRelease (Name (meta_of obj))), w)
  end.

End Client.

(** ** Collaborators outside the adapter's file *)

Module Tekton.

(** Modelled from the spec: the label keys of package tekton are not part of
    the adapter's file; the spec names the two labels produced on the
    release execution release-name and release-namespace and says that the
    idempotent lookup uses them. *)
Definition ReleaseNameLabel : string := "release.appstudio.openshift.io/name".
Definition ReleaseNamespaceLabel : string :=
  "release.appstudio.openshift.io/namespace".
Definition ApplicationLabel : string := "appstudio.openshift.io/application".

(** Modelled from the spec: the pipeline-manifest builder of package tekton
    is not part of the adapter's file; the spec describes a fluent
    constructor taking (name, namespace) that accepts owner, release and
    application metadata, strategy, policy and snapshot, and produces a
    ready-to-create manifest labelled with the release name and namespace. *)
Definition NewReleasePipelineRun (prefix namespace : string) : PipelineRun.t :=
  {| PipelineRun.meta :=
       {| Name := EmptyString; GenerateName := prefix +:+ "-";
          Namespace := namespace; Labels := ∅; Finalizers := [];
          DeletionTimestamp := None; Controller := None;
          OwnerAnnotation := None |};
     PipelineRun.PipelineRef := EmptyString;
     PipelineRun.Params := [];
     PipelineRun.Succeeded := None |}.

Definition WithOwner (release : Release.t) (pr : PipelineRun.t) : PipelineRun.t :=
  set_meta
    (with_OwnerAnnotation
       (Some (Namespace (Release.meta release), Name (Release.meta release)))
       (meta_of pr)) pr.

Definition WithReleaseAndApplicationMetadata (release : Release.t)
    (applicationName : string) (pr : PipelineRun.t) : PipelineRun.t :=
  set_meta
    (with_Labels
       (<[ReleaseNameLabel := Name (Release.meta release)]>
          (<[ReleaseNamespaceLabel := Namespace (Release.meta release)]>
             (<[ApplicationLabel := applicationName]> (Labels (meta_of pr)))))
       (meta_of pr)) pr.

Definition with_param (name value : string) (pr : PipelineRun.t) : PipelineRun.t :=
  {| PipelineRun.meta := PipelineRun.meta pr;
     PipelineRun.PipelineRef := PipelineRun.PipelineRef pr;
     PipelineRun.Params := PipelineRun.Params pr ++ [(name, value)];
     PipelineRun.Succeeded := PipelineRun.Succeeded pr |}.

Definition WithReleaseStrategy (strategy : ReleaseStrategy.t) (pr : PipelineRun.t)
  : PipelineRun.t :=
  {| PipelineRun.meta := PipelineRun.meta pr;
     PipelineRun.PipelineRef := ReleaseStrategy.Pipeline strategy;
     PipelineRun.Params := PipelineRun.Params pr;
     PipelineRun.Succeeded := PipelineRun.Succeeded pr |}.

Definition WithEnterpriseContractPolicy (policy : EnterpriseContractPolicy.t)
    (pr : PipelineRun.t) : PipelineRun.t :=
  with_param "policy" (Name (EnterpriseContractPolicy.meta policy)) pr.

Definition WithSnapshot (snapshot : Snapshot.t) (pr : PipelineRun.t)
  : PipelineRun.t :=
  with_param "snapshot" (Name (Snapshot.meta snapshot)) pr.

End Tekton.

Module Gitops.

(** Modelled from the spec: the binding constructor of package gitops is not
    part of the adapter's file.  It receives the components, the snapshot
    and the environment; the spec identifies a binding by (environment,
    application), so the binding lives in the environment's namespace, names
    the environment and carries the application that owns the snapshot. *)
Definition NewSnapshotEnvironmentBinding (components : list Component.t)
    (snapshot : Snapshot.t) (environment : Environment.t)
  : SnapshotEnvironmentBinding.t :=
  {| SnapshotEnvironmentBinding.meta :=
       {| Name := EmptyString;
          GenerateName := Name (Environment.meta environment) +:+ "-";
          Namespace := Namespace (Environment.meta environment);
          Labels := ∅; Finalizers := []; DeletionTimestamp := None;
          Controller := None; OwnerAnnotation := None |};
     SnapshotEnvironmentBinding.Application := Snapshot.Application snapshot;
     SnapshotEnvironmentBinding.Environment := Name (Environment.meta environment);
     SnapshotEnvironmentBinding.Snapshot := Name (Snapshot.meta snapshot);
     SnapshotEnvironmentBinding.Components :=
       map (fun c => Name (Component.meta c)) components;
     SnapshotEnvironmentBinding.ComponentDeploymentConditions := [] |}.

End Gitops.

Module Syncer.

(** Modelled from the spec: the resource syncer is an external collaborator
    with the interface syncSnapshot(snapshot, targetNamespace); it mirrors
    the snapshot into the target namespace so that the objects a binding
    refers to exist there. *)
Definition SyncSnapshot (snapshot : Snapshot.t) (namespace : string)
  : M (option error) :=
  failure <- call (CallSyncSnapshot (Name (Snapshot.meta snapshot)) namespace) ;;
  match failure with
  | Some e => ret (Some e)
  | None => fun w =>
      let c := cluster w in
      let copy :=
        set_meta (meta_named namespace (Name (Snapshot.meta snapshot))) snapshot in
      if existsb (has_key (key_of copy)) (snapshots c)
      then (None, w)
      else (None, with_cluster (with_snapshots (snapshots c ++ [copy]) c) w)
  end.

End Syncer.

Module Reconciler.

(** Modelled from the spec: the chain-control primitives belong to the
    driver (package reconciler); the spec gives every operation one of four
    outcomes and maps a nil error to continue or stop per call site and a
    non-nil error to requeue-with-error. *)
Inductive OperationResult :=
| ContinueProcessing
| StopProcessing
| Requeue
| RequeueWithError (err : error).

Definition RequeueOnErrorOrContinue (err : option error) : OperationResult :=
  match err with
  | Some e => RequeueWithError e
  | None => ContinueProcessing
  end.

Definition RequeueOnErrorOrStop (err : option error) : OperationResult :=
  match err with
  | Some e => RequeueWithError e
  | None => StopProcessing
  end.

(** Modelled from the spec: the dispatcher runs the operations in their
    fixed order and short-circuits on the first result that is not continue. *)
Fixpoint run_chain (ops : list (M OperationResult)) : M OperationResult :=
  match ops with
  | [] => ret ContinueProcessing
  | op :: ops' =>
      result <- op ;;
      match result with
      | ContinueProcessing => run_chain ops'
      | _ => ret result
      end
  end.

End Reconciler.

(** ** The adapter *)

Module Adapter.

Import Reconciler.

(** [finalizerName] *)
Definition finalizerName : string := "appstudio.redhat.com/release-finalizer".

(** Modelled from the spec: the label key [v1alpha1.AutoReleaseLabel] is
    declared in api/v1alpha1; the spec calls it the opt-out (auto-release)
    label of a ReleasePlanAdmission. *)
Definition AutoReleaseLabel : string :=
  "release.appstudio.openshift.io/auto-release".

(** The three errors [getActiveReleasePlanAdmission] formats. *)
Definition multiple_found (target application : string) : error :=
  Errorf ("multiple ReleasePlanAdmissions found with the target (" +:+ target
          +:+ ") for application '" +:+ application +:+ "'").

Definition auto_release_false (name : string) : error :=
  Errorf ("found ReleasePlanAdmission '" +:+ name
          +:+ "' with auto-release label set to false").

Definition none_found (target application : string) : error :=
  Errorf ("no ReleasePlanAdmission found in the target (" +:+ target
          +:+ ") for application '" +:+ application +:+ "'").

(** The error [getSnapshotEnvironmentBindingFromReleaseStatus] formats. *)
Definition invalid_namespaced_name (stored : string) : error :=
  Errorf ("found invalid namespaced name of SnapshotEnvironmentBinding in"
          +:+ " release status: '" +:+ stored +:+ "'").

(** The getters below return either the object or the error, as the Go
    functions return exactly one of the two non-nil. *)

(** [getReleasePlan] *)
Definition getReleasePlan : M (error + ReleasePlan.t) :=
  r <- get_release ;;
  Client.Get {| key_Namespace := Namespace (Release.meta r);
                key_Name := Release.ReleasePlan r |}.

(** The [for ... range releasePlanAdmissions.Items] loop of
    [getActiveReleasePlanAdmission], with the candidate chosen so far. *)
Fixpoint rangeReleasePlanAdmissions (releasePlan : ReleasePlan.t)
    (items : list ReleasePlanAdmission.t)
    (activeReleasePlanAdmission : option ReleasePlanAdmission.t)
  : error + option ReleasePlanAdmission.t :=
  match items with
  | [] => inr activeReleasePlanAdmission
  | releasePlanAdmission :: items' =>
      if negb (bool_decide (ReleasePlanAdmission.Application releasePlanAdmission
                            = ReleasePlan.Application releasePlan))
      then rangeReleasePlanAdmissions releasePlan items' activeReleasePlanAdmission
      else
        match activeReleasePlanAdmission with
        | Some _ =>
            inl (multiple_found (ReleasePlan.Target releasePlan)
                   (ReleasePlan.Application releasePlan))
        | None =>
            match Labels (ReleasePlanAdmission.meta releasePlanAdmission)
                  !! AutoReleaseLabel with
            | Some labelValue =>
                if bool_decide (labelValue = "false")
                then inl (auto_release_false
                            (Name (ReleasePlanAdmission.meta releasePlanAdmission)))
                else rangeReleasePlanAdmissions releasePlan items'
                       (Some releasePlanAdmission)
            | None =>
                rangeReleasePlanAdmissions releasePlan items'
                  (Some releasePlanAdmission)
            end
        end
  end.

(** [getActiveReleasePlanAdmission] *)
Definition getActiveReleasePlanAdmission : M (error + ReleasePlanAdmission.t) :=
  got <- getReleasePlan ;;
  match got with
  | inl err => ret (inl err)
  | inr releasePlan =>
      listed <- Client.List
                  [InNamespace (ReleasePlan.Target releasePlan);
                   MatchingFields "spec.origin"
                     (Namespace (ReleasePlan.meta releasePlan))] ;;
      match listed with
      | inl err => ret (inl err)
      | inr items =>
          match rangeReleasePlanAdmissions releasePlan items None with
          | inl err => ret (inl err)
          | inr None =>
              ret (inl (none_found (ReleasePlan.Target releasePlan)
                          (ReleasePlan.Application releasePlan)))
          | inr (Some activeReleasePlanAdmission) =>
              ret (inr activeReleasePlanAdmission)
          end
      end
  end.

(** [getApplication] *)
Definition getApplication (releasePlanAdmission : ReleasePlanAdmission.t)
  : M (error + Application.t) :=
  Client.Get
    {| key_Namespace := Namespace (ReleasePlanAdmission.meta releasePlanAdmission);
       key_Name := ReleasePlanAdmission.Application releasePlanAdmission |}.

(** [getApplicationComponents] *)
Definition getApplicationComponents (application : Application.t)
  : M (error + list Component.t) :=
  Client.List
    [InNamespace (Namespace (Application.meta application));
     MatchingFields "spec.application" (Name (Application.meta application))].

(** [getSnapshot] *)
Definition getSnapshot : M (error + Snapshot.t) :=
  r <- get_release ;;
  Client.Get {| key_Namespace := Namespace (Release.meta r);
                key_Name := Release.Snapshot r |}.

(** [getEnvironment] *)
Definition getEnvironment (releasePlanAdmission : ReleasePlanAdmission.t)
  : M (error + Environment.t) :=
  Client.Get
    {| key_Namespace := Namespace (ReleasePlanAdmission.meta releasePlanAdmission);
       key_Name := ReleasePlanAdmission.Environment releasePlanAdmission |}.

(** The options of the label lookup in [getReleasePipelineRun]. *)
Definition pipelineRunLookup (r : Release.t) : list ListOption :=
  [Limit 1;
   MatchingLabels
     [(Tekton.ReleaseNameLabel, Name (Release.meta r));
      (Tekton.ReleaseNamespaceLabel, Namespace (Release.meta r))]].

(** [getReleasePipelineRun]: the first labelled PipelineRun, nil when the
    lookup matches none, or the error of the List call. *)
Definition getReleasePipelineRun : M (error + option PipelineRun.t) :=
  r <- get_release ;;
  listed <- Client.List (pipelineRunLookup r) ;;
  match listed with
  | inr (pipelineRun :: _) => ret (inr (Some pipelineRun))
  | inr [] => ret (inr None)
  | inl err => ret (inl err)
  end.

(** [getReleaseStrategy] *)
Definition getReleaseStrategy (releasePlanAdmission : ReleasePlanAdmission.t)
  : M (error + ReleaseStrategy.t) :=
  Client.Get
    {| key_Namespace := Namespace (ReleasePlanAdmission.meta releasePlanAdmission);
       key_Name := ReleasePlanAdmission.ReleaseStrategy releasePlanAdmission |}.

(** [getEnterpriseContractPolicy] *)
Definition getEnterpriseContractPolicy (releaseStrategy : ReleaseStrategy.t)
  : M (error + EnterpriseContractPolicy.t) :=
  Client.Get
    {| key_Namespace := Namespace (ReleaseStrategy.meta releaseStrategy);
       key_Name := ReleaseStrategy.Policy releaseStrategy |}.

(** The options of the List call in [getSnapshotEnvironmentBinding]. *)
Definition bindingLookup (environment : Environment.t) : list ListOption :=
  [InNamespace (Namespace (Environment.meta environment));
   MatchingFields "spec.environment" (Name (Environment.meta environment))].

(** [getSnapshotEnvironmentBinding]: the first listed binding of the
    admission's application, nil when there is none. *)
Definition getSnapshotEnvironmentBinding (environment : Environment.t)
    (releasePlanAdmission : ReleasePlanAdmission.t)
  : M (error + option SnapshotEnvironmentBinding.t) :=
  listed <- Client.List (bindingLookup environment) ;;
  match listed with
  | inl err => ret (inl err)
  | inr items =>
      ret (inr (List.find
                  (fun binding =>
                     bool_decide
                       (SnapshotEnvironmentBinding.Application binding
                        = ReleasePlanAdmission.Application releasePlanAdmission))
                  items))
  end.

(** [getSnapshotEnvironmentBindingFromReleaseStatus] *)
Definition getSnapshotEnvironmentBindingFromReleaseStatus
  : M (error + SnapshotEnvironmentBinding.t) :=
  r <- get_release ;;
  let stored := Release.SnapshotEnvironmentBinding (Release.status r) in
  match Strings.Split stored Separator with
  | [namespace; name] =>
      Client.Get {| key_Namespace := namespace; key_Name := name |}
  | _ => ret (inl (invalid_namespaced_name stored))
  end.

(** [getSnapshotEnvironmentResources] *)
Definition getSnapshotEnvironmentResources
    (releasePlanAdmission : ReleasePlanAdmission.t)
  : M (error + (Application.t * list Component.t * Snapshot.t)) :=
  got <- getApplication releasePlanAdmission ;;
  match got with
  | inl err => ret (inl err)
  | inr application =>
      got <- getApplicationComponents application ;;
      match got with
      | inl err => ret (inl err)
      | inr components =>
          got <- getSnapshot ;;
          match got with
          | inl err => ret (inl err)
          | inr snapshot => ret (inr (application, components, snapshot))
          end
      end
  end.

(** [registerGitOpsDeploymentStatus] *)
Definition registerGitOpsDeploymentStatus (binding : SnapshotEnvironmentBinding.t)
  : M (option error) :=
  match Meta.FindStatusCondition
          (SnapshotEnvironmentBinding.ComponentDeploymentConditions binding)
          "AllComponentsDeployed" with
  | None => ret None
  | Some condition =>
      patch <- get_release ;;
      modify_release
        (if bool_decide (Status condition = ConditionUnknown)
         then Release.MarkDeploying (Reason condition) (Message condition)
         else Release.MarkDeployed (Status condition) (Reason condition)
                (Message condition)) ;;;
      Client.StatusPatch patch
  end.

(** [registerReleasePipelineRunStatus] *)
Definition registerReleasePipelineRunStatus (pipelineRun : option PipelineRun.t)
  : M (option error) :=
  match pipelineRun with
  | Some pipelineRun =>
      if PipelineRun.IsDone pipelineRun then
        patch <- get_release ;;
        now <- Now ;;
        modify_release
          (fun r => Release.with_status
                      (Release.with_CompletionTime (Some now) (Release.status r))
                      r) ;;;
        modify_release
          (match PipelineRun.Succeeded pipelineRun with
           | Some (ConditionTrue, _) => Release.MarkSucceeded
           | Some (_, message) =>
               Release.MarkFailed Release.ReleaseReasonPipelineFailed message
           | None =>
               Release.MarkFailed Release.ReleaseReasonPipelineFailed EmptyString
           end) ;;;
        Client.StatusPatch patch
      else ret None
  | None => ret None
  end.

(** [registerReleaseStatusData] *)
Definition registerReleaseStatusData (releasePipelineRun : option PipelineRun.t)
    (releaseStrategy : option ReleaseStrategy.t) : M (option error) :=
  match releasePipelineRun, releaseStrategy with
  | Some releasePipelineRun, Some releaseStrategy =>
      patch <- get_release ;;
      modify_release
        (fun r =>
           Release.with_status
             (Release.with_run_data
                (Sprintf_namespaced
                   (Namespace (PipelineRun.meta releasePipelineRun))
                   (Name (PipelineRun.meta releasePipelineRun)))
                (Sprintf_namespaced
                   (Namespace (ReleaseStrategy.meta releaseStrategy))
                   (Name (ReleaseStrategy.meta releaseStrategy)))
                (Namespace (PipelineRun.meta releasePipelineRun))
                (Release.status r)) r) ;;;
      now <- Now ;;
      modify_release (Release.MarkRunning now) ;;;
      Client.StatusPatch patch
  | _, _ => ret None
  end.

(** [syncResources] *)
Definition syncResources : M (option error) :=
  got <- getActiveReleasePlanAdmission ;;
  match got with
  | inl err => ret (Some err)
  | inr releasePlanAdmission =>
      got <- getSnapshot ;;
      match got with
      | inl err => ret (Some err)
      | inr snapshot =>
          Syncer.SyncSnapshot snapshot
            (Namespace (ReleasePlanAdmission.meta releasePlanAdmission))
      end
  end.

(** [createReleasePipelineRun] *)
Definition createReleasePipelineRun (releaseStrategy : ReleaseStrategy.t)
    (enterpriseContractPolicy : EnterpriseContractPolicy.t)
    (snapshot : Snapshot.t) : M (error + PipelineRun.t) :=
  r <- get_release ;;
  let pipelineRun :=
    Tekton.WithSnapshot snapshot
      (Tekton.WithEnterpriseContractPolicy enterpriseContractPolicy
         (Tekton.WithReleaseStrategy releaseStrategy
            (Tekton.WithReleaseAndApplicationMetadata r
               (Snapshot.Application snapshot)
               (Tekton.WithOwner r
                  (Tekton.NewReleasePipelineRun "release-pipelinerun"
                     (Namespace (ReleaseStrategy.meta releaseStrategy))))))) in
  Client.CreatePipelineRun pipelineRun.

(** [ctrl.SetControllerReference]: an owner in another namespace is
    refused. *)
Definition SetControllerReference (owner : Application.t)
    (binding : SnapshotEnvironmentBinding.t)
  : error + SnapshotEnvironmentBinding.t :=
  if bool_decide (Namespace (Application.meta owner)
                  = Namespace (SnapshotEnvironmentBinding.meta binding))
  then inr (set_meta
              (with_Controller (Some (Name (Application.meta owner)))
                 (meta_of binding)) binding)
  else inl (Errorf "cross-namespace owner references are disallowed").

(** [libhandler.SetOwnerAnnotations] *)
Definition SetOwnerAnnotations (owner : Release.t)
    (binding : SnapshotEnvironmentBinding.t) : SnapshotEnvironmentBinding.t :=
  set_meta
    (with_OwnerAnnotation
       (Some (Namespace (Release.meta owner), Name (Release.meta owner)))
       (meta_of binding)) binding.

(** [createSnapshotEnvironmentBinding] *)
Definition createSnapshotEnvironmentBinding (environment : Environment.t)
    (releasePlanAdmission : ReleasePlanAdmission.t)
  : M (error + SnapshotEnvironmentBinding.t) :=
  got <- getSnapshotEnvironmentResources releasePlanAdmission ;;
  match got with
  | inl err => ret (inl err)
  | inr (application, components, snapshot) =>
      let binding :=
        Gitops.NewSnapshotEnvironmentBinding components snapshot environment in
      match SetControllerReference application binding with
      | inl err => ret (inl err)
      | inr binding =>
          r <- get_release ;;
          Client.CreateSnapshotEnvironmentBinding (SetOwnerAnnotations r binding)
      end
  end.

(** [finalizeRelease] *)
Definition finalizeRelease : M (option error) :=
  got <- getReleasePipelineRun ;;
  match got with
  | inl err => ret (Some err)
  | inr None => ret None
  | inr (Some pipelineRun) =>
      err <- Client.DeletePipelineRun pipelineRun ;;
      match err with
      | Some err => if negb (IsNotFound err) then ret (Some err) else ret None
      | None => ret None
      end
  end.

(** [EnsureFinalizersAreCalled] *)
Definition EnsureFinalizersAreCalled : M OperationResult :=
  r <- get_release ;;
  match DeletionTimestamp (Release.meta r) with
  | None => ret ContinueProcessing
  | Some _ =>
      if Meta.ContainsFinalizer (Release.meta r) finalizerName then
        err <- finalizeRelease ;;
        match err with
        | Some err => ret (RequeueWithError err)
        | None =>
            patch <- get_release ;;
            modify_release
              (fun r => Release.with_meta
                          (Meta.RemoveFinalizer (Release.meta r) finalizerName) r) ;;;
            err <- Client.Patch patch ;;
            match err with
            | Some err => ret (RequeueWithError err)
            | None => ret Requeue
            end
        end
      else ret Requeue
  end.

(** [EnsureFinalizerIsAdded] *)
Definition EnsureFinalizerIsAdded : M OperationResult :=
  r <- get_release ;;
  let finalizerFound :=
    existsb (fun finalizer => bool_decide (finalizer = finalizerName))
      (Finalizers (Release.meta r)) in
  if negb finalizerFound then
    patch <- get_release ;;
    modify_release
      (fun r => Release.with_meta
                  (Meta.AddFinalizer (Release.meta r) finalizerName) r) ;;;
    err <- Client.Patch patch ;;
    ret (RequeueOnErrorOrContinue err)
  else ret ContinueProcessing.

(** The common tail of the validation branches: copy, mark invalid, patch
    the status, stop unless the patch fails. *)
Definition markInvalidAndStop (reason : string) (err : error)
  : M OperationResult :=
  patch <- get_release ;;
  modify_release (Release.MarkInvalid reason (Error err)) ;;;
  perr <- Client.StatusPatch patch ;;
  ret (RequeueOnErrorOrStop perr).

(** [EnsureReleasePlanAdmissionEnabled] *)
Definition EnsureReleasePlanAdmissionEnabled : M OperationResult :=
  got <- getActiveReleasePlanAdmission ;;
  match got with
  | inl err =>
      if Strings.Contains (Error err) "multiple ReleasePlanAdmissions found"
      then markInvalidAndStop Release.ReleaseReasonValidationError err
      else if Strings.Contains (Error err) "auto-release label set to false"
      then markInvalidAndStop Release.ReleaseReasonTargetDisabledError err
      else ret ContinueProcessing
  | inr _ => ret ContinueProcessing
  end.

(** The body of [if pipelineRun == nil] in [EnsureReleasePipelineRunExists],
    up to the registration of the status data. *)
Definition createPath : M OperationResult :=
  got <- getActiveReleasePlanAdmission ;;
  match got with
  | inl err =>
      markInvalidAndStop Release.ReleaseReasonReleasePlanValidationError err
  | inr releasePlanAdmission =>
      got <- getReleaseStrategy releasePlanAdmission ;;
      match got with
      | inl err => markInvalidAndStop Release.ReleaseReasonValidationError err
      | inr releaseStrategy =>
          got <- getEnterpriseContractPolicy releaseStrategy ;;
          match got with
          | inl err => markInvalidAndStop Release.ReleaseReasonValidationError err
          | inr enterpriseContractPolicy =>
              got <- getSnapshot ;;
              match got with
              | inl err =>
                  markInvalidAndStop Release.ReleaseReasonValidationError err
              | inr snapshot =>
                  got <- createReleasePipelineRun releaseStrategy
                           enterpriseContractPolicy snapshot ;;
                  match got with
                  | inl err => ret (RequeueWithError err)
                  | inr pipelineRun =>
                      err <- registerReleaseStatusData (Some pipelineRun)
                               (Some releaseStrategy) ;;
                      ret (RequeueOnErrorOrContinue err)
                  end
              end
          end
      end
  end.

(** [EnsureReleasePipelineRunExists] *)
Definition EnsureReleasePipelineRunExists : M OperationResult :=
  got <- getReleasePipelineRun ;;
  match got with
  | inl err =>
      if negb (IsNotFound err) then ret (RequeueWithError err) else createPath
  | inr None => createPath
  | inr (Some pipelineRun) =>
      err <- registerReleaseStatusData (Some pipelineRun) None ;;
      ret (RequeueOnErrorOrContinue err)
  end.

(** [EnsureReleasePipelineStatusIsTracked] *)
Definition EnsureReleasePipelineStatusIsTracked : M OperationResult :=
  r <- get_release ;;
  if negb (Release.HasStarted r) || Release.IsDone r then ret ContinueProcessing
  else
    got <- getReleasePipelineRun ;;
    match got with
    | inl err => ret (RequeueWithError err)
    | inr (Some pipelineRun) =>
        err <- registerReleasePipelineRunStatus (Some pipelineRun) ;;
        ret (RequeueOnErrorOrContinue err)
    | inr None => ret ContinueProcessing
    end.

(** The body of [if binding == nil] in
    [EnsureSnapshotEnvironmentBindingExists]. *)
Definition bindingCreatePath (environment : Environment.t)
    (releasePlanAdmission : ReleasePlanAdmission.t) : M OperationResult :=
  err <- syncResources ;;
  match err with
  | Some err => ret (RequeueWithError err)
  | None =>
      patch <- get_release ;;
      got <- createSnapshotEnvironmentBinding environment releasePlanAdmission ;;
      match got with
      | inl err => ret (RequeueWithError err)
      | inr binding =>
          modify_release
            (fun r =>
               Release.with_status
                 (Release.with_SnapshotEnvironmentBinding
                    (Sprintf_namespaced
                       (Namespace (SnapshotEnvironmentBinding.meta binding))
                       (Name (SnapshotEnvironmentBinding.meta binding)))
                    (Release.status r)) r) ;;;
          err <- Client.StatusPatch patch ;;
          ret (RequeueOnErrorOrContinue err)
      end
  end.

(** [EnsureSnapshotEnvironmentBindingExists] *)
Definition EnsureSnapshotEnvironmentBindingExists : M OperationResult :=
  r <- get_release ;;
  if negb (Release.HasSucceeded r) || Release.HasBeenDeployed r
  then ret ContinueProcessing
  else
    got <- getActiveReleasePlanAdmission ;;
    match got with
    | inl err => ret (RequeueWithError err)
    | inr releasePlanAdmission =>
        if bool_decide (ReleasePlanAdmission.Environment releasePlanAdmission
                        = EmptyString)
        then ret ContinueProcessing
        else
          got <- getEnvironment releasePlanAdmission ;;
          match got with
          | inl err => ret (RequeueWithError err)
          | inr environment =>
              got <- getSnapshotEnvironmentBinding environment
                       releasePlanAdmission ;;
              match got with
              | inl err =>
                  if negb (IsNotFound err) then ret (RequeueWithError err)
                  else bindingCreatePath environment releasePlanAdmission
              | inr None => bindingCreatePath environment releasePlanAdmission
              | inr (Some _) => ret ContinueProcessing
              end
          end
    end.

(** [EnsureSnapshotEnvironmentBindingIsTracked] *)
Definition EnsureSnapshotEnvironmentBindingIsTracked : M OperationResult :=
  r <- get_release ;;
  if negb (Release.HasSucceeded r)
     || bool_decide (Release.SnapshotEnvironmentBinding (Release.status r)
                     = EmptyString)
     || Release.HasBeenDeployed r
  then ret ContinueProcessing
  else
    got <- getSnapshotEnvironmentBindingFromReleaseStatus ;;
    match got with
    | inl err => ret (RequeueWithError err)
    | inr binding =>
        err <- registerGitOpsDeploymentStatus binding ;;
        ret (RequeueOnErrorOrContinue err)
    end.

(** Modelled from the spec: the fixed order in which the driver invokes the
    operations is set up in the controller, outside the adapter's file. *)
Definition operations : list (M OperationResult) :=
  [EnsureFinalizersAreCalled; EnsureFinalizerIsAdded;
   EnsureReleasePlanAdmissionEnabled; EnsureReleasePipelineRunExists;
   EnsureReleasePipelineStatusIsTracked;
   EnsureSnapshotEnvironmentBindingExists;
   EnsureSnapshotEnvironmentBindingIsTracked].

End Adapter.

(** ** Vocabulary of the statements *)

(** The failure, if any, that the schedule holds for the next client call. *)
Definition next_fault (w : World) : option error :=
  match faults w with
  | Some e :: _ => Some e
  | _ => None
  end.

(** The next [n] client calls go through. *)
Fixpoint calm (n : nat) (fs : list (option error)) : bool :=
  match n, fs with
  | O, _ => true
  | S _, [] => true
  | S _, Some _ :: _ => false
  | S n', None :: fs' => calm n' fs'
  end.

(** The world once the calls [cs] have been made and none has written. *)
Definition pass_calls (cs : list Call) (w : World) : World :=
  {| release := release w; cluster := cluster w;
     faults := drop (length cs) (faults w); calls := calls w ++ cs;
     clock := clock w |}.

(** The ReleasePlan the Release refers to, as stored. *)
Definition releasePlanKey (r : Release.t) : NamespacedName :=
  {| key_Namespace := Namespace (Release.meta r);
     key_Name := Release.ReleasePlan r |}.

Definition plan_of (w : World) : option ReleasePlan.t :=
  List.find (has_key (releasePlanKey (release w))) (releasePlans (cluster w)).

(** The options of the List call in [getActiveReleasePlanAdmission]. *)
Definition admissionLookup (releasePlan : ReleasePlan.t) : list ListOption :=
  [InNamespace (ReleasePlan.Target releasePlan);
   MatchingFields "spec.origin" (Namespace (ReleasePlan.meta releasePlan))].

(** The admissions listed for the plan whose declared application is the
    plan's, in the order of the listing. *)
Definition candidates (releasePlan : ReleasePlan.t) (c : Cluster)
  : list ReleasePlanAdmission.t :=
  List.filter
    (fun a => bool_decide (ReleasePlanAdmission.Application a
                           = ReleasePlan.Application releasePlan))
    (list_objects (admissionLookup releasePlan) c).

(** The admission carries the auto-release label with the value false. *)
Definition opted_out (a : ReleasePlanAdmission.t) : bool :=
  bool_decide (Labels (ReleasePlanAdmission.meta a) !! Adapter.AutoReleaseLabel
               = Some "false").

(** The suffixes of [s] that follow an occurrence of the character [c]. *)
Fixpoint suffixes_after (c : ascii) (s : string) : list string :=
  match s with
  | EmptyString => []
  | String c' s' =>
      if Ascii.eqb c' c then s' :: suffixes_after c s' else suffixes_after c s'
  end.

(** The two phrases [EnsureReleasePlanAdmissionEnabled] looks for in the text
    of an error. *)
Definition multiple_marker : string := "multiple ReleasePlanAdmissions found".
Definition disabled_marker : string := "auto-release label set to false".

(** The PipelineRuns and bindings that the two lookups of the trigger
    operations match. *)
Definition labelled_runs (w : World) : list PipelineRun.t :=
  List.filter
    (fun pr => forallb (selects pr) (Adapter.pipelineRunLookup (release w)))
    (pipelineRuns (cluster w)).

Definition matching_bindings (environment : Environment.t)
    (releasePlanAdmission : ReleasePlanAdmission.t) (c : Cluster)
  : list SnapshotEnvironmentBinding.t :=
  List.filter
    (fun b => bool_decide (SnapshotEnvironmentBinding.Application b
                           = ReleasePlanAdmission.Application releasePlanAdmission))
    (list_objects (Adapter.bindingLookup environment) c).

(** Whether a call creates an object of the kind, and whether it writes. *)
Definition is_create (k : Kind) (c : Call) : bool :=
  match c with
  | CallCreate k' => bool_decide (k' = k)
  | _ => false
  end.

Definition is_write (c : Call) : bool :=
  match c with
  | CallGet _ _ | CallList _ _ => false
  | _ => true
  end.

(** The admission resolver in the words of the spec: no candidate is an
    error, an opted-out first candidate is an error, a second candidate is
    an error, and the sole opted-in candidate is the admission. *)
Definition resolve (releasePlan : ReleasePlan.t) (c : Cluster)
  : error + ReleasePlanAdmission.t :=
  match candidates releasePlan c with
  | [] =>
      inl (Adapter.none_found (ReleasePlan.Target releasePlan)
             (ReleasePlan.Application releasePlan))
  | first :: others =>
      if opted_out first
      then inl (Adapter.auto_release_false
                  (Name (ReleasePlanAdmission.meta first)))
      else match others with
           | [] => inr first
           | _ :: _ =>
               inl (Adapter.multiple_found (ReleasePlan.Target releasePlan)
                      (ReleasePlan.Application releasePlan))
           end
  end.

(** The calls one run of [getActiveReleasePlanAdmission] makes when the plan
    is found. *)
Definition admissionCalls (w : World) (releasePlan : ReleasePlan.t) : list Call :=
  [CallGet KReleasePlan (releasePlanKey (release w));
   CallList KReleasePlanAdmission (admissionLookup releasePlan)].

(** The Release as the cluster stores it. *)
Definition stored_release (w : World) : option Release.t :=
  List.find (has_key (key_of (release w))) (releases (cluster w)).

(** What a successful status patch against [base] leaves behind. *)
Definition status_patched (base : Release.t) (w : World) : World :=
  with_cluster
    (with_releases
       (Client.update_release (key_of (release w))
          (fun stored =>
             Release.with_status
               (Client.merge_status (Release.status base)
                  (Release.status (release w)) (Release.status stored)) stored)
          (releases (cluster w))) (cluster w))
    (pass_calls [CallStatusPatch] w).

(** The error, if any, of a patch of the Release issued in [w]. *)
Definition patch_error (w : World) : option error :=
  match next_fault w with
  | Some e => Some e
  | None =>
      if existsb (has_key (key_of (release w))) (releases (cluster w))
      then None
      else Some (NewNotFound KRelease (Name (Release.meta (release w))))
  end.

(** What a successful metadata patch against [base] leaves behind. *)
Definition patched (base : Release.t) (w : World) : World :=
  with_cluster
    (with_releases
       (Client.update_release (key_of (release w))
          (fun stored =>
             Release.with_meta
               (Client.merge_meta (Release.meta base) (Release.meta (release w))
                  (Release.meta stored)) stored)
          (releases (cluster w))) (cluster w))
    (pass_calls [CallPatch] w).

(** The calls made since the world [w]. *)
Definition calls_since (w w' : World) : list Call :=
  drop (length (calls w)) (calls w').

(** The calls of the finalizer path: the label lookup, the deletion of the
    PipelineRun it found, the patch that drops the finalizer. *)
Definition lookupCall (w : World) : Call :=
  CallList KPipelineRun (Adapter.pipelineRunLookup (release w)).

Definition deleteCall (pr : PipelineRun.t) : Call :=
  CallDelete KPipelineRun (key_of pr).

Definition finalizerCalls (w : World) : list Call :=
  match head (labelled_runs w) with
  | Some pr => [lookupCall w; deleteCall pr; CallPatch]
  | None => [lookupCall w; CallPatch]
  end.

(** The last step of the finalizer path: drop the finalizer in memory and
    patch the Release. *)
Definition dropFinalizer (w : World) : Reconciler.OperationResult * World :=
  let w' :=
    with_release
      (Release.with_meta
         (Meta.RemoveFinalizer (Release.meta (release w)) Adapter.finalizerName)
         (release w)) w in
  match patch_error w' with
  | None => (Reconciler.Requeue, patched (release w) w')
  | Some e => (Reconciler.RequeueWithError e, pass_calls [CallPatch] w')
  end.

(** The outcome [out] of an operation that, in the world [w], marked the
    Release invalid for [err]: the condition is set in memory, the status
    patch is the last call, the result is stop or the error of the patch, and
    no PipelineRun was created. *)
Definition marked_invalid (reason : string) (err : error) (w : World)
    (out : Reconciler.OperationResult * World) : Prop :=
  release out.2 = Release.MarkInvalid reason (Error err) (release w)
  /\ Release.invalid_for reason (Error err) (release out.2)
  /\ calls out.2 = calls w ++ [CallStatusPatch]
  /\ out.1 = Reconciler.RequeueOnErrorOrStop (patch_error w)
  /\ pipelineRuns (cluster out.2) = pipelineRuns (cluster w).

(** No PipelineRun is found: the lookup matches none, or answers not-found. *)
Definition no_run_found (w : World) : Prop :=
  (next_fault w = None /\ labelled_runs w = [])
  \/ (exists e, next_fault w = Some e /\ IsNotFound e = true).

(** No failure of the schedule is a not-found answer. *)
Definition no_notfound (fs : list (option error)) : bool :=
  forallb (fun f => match f with
                    | Some e => negb (IsNotFound e)
                    | None => true
                    end) fs.

(** The Snapshot the Release refers to, as stored. *)
Definition snapshotKey (r : Release.t) : NamespacedName :=
  {| key_Namespace := Namespace (Release.meta r);
     key_Name := Release.Snapshot r |}.

Definition snapshot_of (w : World) : option Snapshot.t :=
  List.find (has_key (snapshotKey (release w))) (snapshots (cluster w)).

(** The Environment an admission declares, as stored. *)
Definition environmentKey (a : ReleasePlanAdmission.t) : NamespacedName :=
  {| key_Namespace := Namespace (ReleasePlanAdmission.meta a);
     key_Name := ReleasePlanAdmission.Environment a |}.

Definition environment_of (a : ReleasePlanAdmission.t) (c : Cluster)
  : option Environment.t :=
  List.find (has_key (environmentKey a)) (environments c).

(** A binding that matches the (environment, application) of the admission
    the Release resolves to exists in the cluster. *)
Definition existing_binding (w : World) : Prop :=
  exists releasePlan releasePlanAdmission environment,
    plan_of w = Some releasePlan
    /\ resolve releasePlan (cluster w) = inr releasePlanAdmission
    /\ environment_of releasePlanAdmission (cluster w) = Some environment
    /\ matching_bindings environment releasePlanAdmission (cluster w) <> [].

(** The world [w'] follows [w] with the Release's metadata, the schedule and
    the PipelineRuns accounted for: at most the PipelineRuns [created] were
    added, each of them labelled for the Release. *)
Definition runs_grow (created : list PipelineRun.t) (w w' : World) : Prop :=
  Release.meta (release w') = Release.meta (release w)
  /\ (exists n, faults w' = drop n (faults w))
  /\ pipelineRuns (cluster w') = pipelineRuns (cluster w) ++ created
  /\ Forall (fun pr => forallb (selects pr)
                         (Adapter.pipelineRunLookup (release w)) = true)
       created.

(** The world [w'] follows [w] with everything the resolution of the
    admission and of the environment reads left as it was; snapshots may have
    been mirrored, and exactly the bindings [created] were added. *)
Definition bindings_grow (created : list SnapshotEnvironmentBinding.t)
    (w w' : World) : Prop :=
  Release.meta (release w') = Release.meta (release w)
  /\ Release.ReleasePlan (release w') = Release.ReleasePlan (release w)
  /\ Release.Snapshot (release w') = Release.Snapshot (release w)
  /\ (exists n, faults w' = drop n (faults w))
  /\ releasePlans (cluster w') = releasePlans (cluster w)
  /\ releasePlanAdmissions (cluster w') = releasePlanAdmissions (cluster w)
  /\ environments (cluster w') = environments (cluster w)
  /\ (exists copies, snapshots (cluster w') = snapshots (cluster w) ++ copies)
  /\ snapshotEnvironmentBindings (cluster w')
     = snapshotEnvironmentBindings (cluster w) ++ created.

(** The binding carries the lookup key of the environment and the
    application of the snapshot. *)
Definition binds (b : SnapshotEnvironmentBinding.t) (environment : Environment.t)
    (snapshot : Snapshot.t) : Prop :=
  Namespace (SnapshotEnvironmentBinding.meta b)
  = Namespace (Environment.meta environment)
  /\ SnapshotEnvironmentBinding.Environment b = Name (Environment.meta environment)
  /\ SnapshotEnvironmentBinding.Application b = Snapshot.Application snapshot.

(** The binding [b] is bound to the environment of the admission that the
    Release of [w] resolves to, and to the application of its snapshot. *)
Definition bound_in (w : World) (b : SnapshotEnvironmentBinding.t) : Prop :=
  exists releasePlan rpa environment snap,
    plan_of w = Some releasePlan
    /\ resolve releasePlan (cluster w) = inr rpa
    /\ environment_of rpa (cluster w) = Some environment
    /\ snapshot_of w = Some snap
    /\ binds b environment snap.

(** The ReleaseStrategy an admission names and the policy a strategy names,
    as stored. *)
Definition strategyKey (a : ReleasePlanAdmission.t) : NamespacedName :=
  {| key_Namespace := Namespace (ReleasePlanAdmission.meta a);
     key_Name := ReleasePlanAdmission.ReleaseStrategy a |}.

Definition strategy_of (a : ReleasePlanAdmission.t) (c : Cluster)
  : option ReleaseStrategy.t :=
  List.find (has_key (strategyKey a)) (releaseStrategies c).

Definition policyKey (s : ReleaseStrategy.t) : NamespacedName :=
  {| key_Namespace := Namespace (ReleaseStrategy.meta s);
     key_Name := ReleaseStrategy.Policy s |}.

Definition policy_of (s : ReleaseStrategy.t) (c : Cluster)
  : option EnterpriseContractPolicy.t :=
  List.find (has_key (policyKey s)) (enterpriseContractPolicies c).

(** How many times the character [c] occurs in [s]. *)
Fixpoint occurrences (c : ascii) (s : string) : nat :=
  match s with
  | EmptyString => 0
  | String c' s' =>
      if Ascii.eqb c' c then S (occurrences c s') else occurrences c s'
  end.

(** The binding stored under a namespace and a name. *)
Definition binding_at (namespace name : string) (c : Cluster)
  : option SnapshotEnvironmentBinding.t :=
  List.find (has_key {| key_Namespace := namespace; key_Name := name |})
    (snapshotEnvironmentBindings c).

Definition bindingCall (namespace name : string) : Call :=
  CallGet KSnapshotEnvironmentBinding
    {| key_Namespace := namespace; key_Name := name |}.

(** ** Fixtures: concrete worlds on which the statements are exercised *)

Module Fixtures.


Definition empty_status : Release.ReleaseStatus :=
  {| Release.ReleasePipelineRun := EmptyString;
     Release.ReleaseStrategy := EmptyString;
     Release.Target := EmptyString;
     Release.SnapshotEnvironmentBinding := EmptyString;
     Release.StartTime := None;
     Release.CompletionTime := None;
     Release.Conditions := [] |}.

(** The Release dev/rel, of snapshot snap, released through plan. *)
Definition rel (deletion : option Time) (finalizers : list string)
    (st : Release.ReleaseStatus) : Release.t :=
  {| Release.meta :=
       {| Name := "rel"; GenerateName := EmptyString; Namespace := "dev";
          Labels := ∅; Finalizers := finalizers;
          DeletionTimestamp := deletion; Controller := None;
          OwnerAnnotation := None |};
     Release.Snapshot := "snap";
     Release.ReleasePlan := "plan";
     Release.status := st |}.

Definition plan : ReleasePlan.t :=
  {| ReleasePlan.meta := meta_named "dev" "plan";
     ReleasePlan.Application := "app";
     ReleasePlan.Target := "managed" |}.

(** An admission of the managed namespace for application app coming from
    dev, with the given auto-release label and environment. *)
Definition admission (name : string) (auto : option string)
    (environment : string) : ReleasePlanAdmission.t :=
  {| ReleasePlanAdmission.meta :=
       with_Labels
         (match auto with
          | Some v => {[ Adapter.AutoReleaseLabel := v ]}
          | None => ∅
          end) (meta_named "managed" name);
     ReleasePlanAdmission.Application := "app";
     ReleasePlanAdmission.Origin := "dev";
     ReleasePlanAdmission.Environment := environment;
     ReleasePlanAdmission.ReleaseStrategy := "strategy" |}.

Definition strategy : ReleaseStrategy.t :=
  {| ReleaseStrategy.meta := meta_named "managed" "strategy";
     ReleaseStrategy.Pipeline := "release";
     ReleaseStrategy.Policy := "policy" |}.

Definition policy : EnterpriseContractPolicy.t :=
  {| EnterpriseContractPolicy.meta := meta_named "managed" "policy" |}.

Definition snap : Snapshot.t :=
  {| Snapshot.meta := meta_named "dev" "snap";
     Snapshot.Application := "app";
     Snapshot.Components := ["web"] |}.

Definition prod : Environment.t :=
  {| Environment.meta := meta_named "managed" "prod" |}.

(** A PipelineRun of the managed namespace labelled for dev/rel. *)
Definition run (name : string) (succeeded : option (ConditionStatus * string))
  : PipelineRun.t :=
  {| PipelineRun.meta :=
       with_Labels
         (<[Tekton.ReleaseNameLabel := "rel"]>
            (<[Tekton.ReleaseNamespaceLabel := "dev"]> ∅))
         (meta_named "managed" name);
     PipelineRun.PipelineRef := "release";
     PipelineRun.Params := [];
     PipelineRun.Succeeded := succeeded |}.

(** A binding of application app to prod in the managed namespace. *)
Definition bound (name : string) (conditions : list Condition)
  : SnapshotEnvironmentBinding.t :=
  {| SnapshotEnvironmentBinding.meta := meta_named "managed" name;
     SnapshotEnvironmentBinding.Application := "app";
     SnapshotEnvironmentBinding.Environment := "prod";
     SnapshotEnvironmentBinding.Snapshot := "snap";
     SnapshotEnvironmentBinding.Components := ["web"];
     SnapshotEnvironmentBinding.ComponentDeploymentConditions := conditions |}.

(** The cluster around the Release, with the given stored Release,
    admissions, PipelineRuns and bindings. *)
Definition cluster_of (stored : Release.t)
    (admissions : list ReleasePlanAdmission.t) (runs : list PipelineRun.t)
    (bindings : list SnapshotEnvironmentBinding.t) : Cluster :=
  {| releases := [stored];
     releasePlans := [plan];
     releasePlanAdmissions := admissions;
     releaseStrategies := [strategy];
     enterpriseContractPolicies := [policy];
     snapshots := [snap];
     applications := [{| Application.meta := meta_named "managed" "app" |}];
     components := [{| Component.meta := meta_named "managed" "web";
                       Component.Application := "app" |}];
     environments := [prod];
     pipelineRuns := runs;
     snapshotEnvironmentBindings := bindings;
     generation := 0 |}.

(** A pass that starts with the stored Release in memory. *)
Definition world_of (r : Release.t) (admissions : list ReleasePlanAdmission.t)
    (runs : list PipelineRun.t) (bindings : list SnapshotEnvironmentBinding.t)
    (schedule : list (option error)) : World :=
  {| release := r; cluster := cluster_of r admissions runs bindings;
     faults := schedule; calls := []; clock := 7 |}.

Definition fresh : Release.t := rel None [Adapter.finalizerName] empty_status.

(** One admission that opts out, and one that does not. *)
Definition w_opted_out : World :=
  world_of fresh [admission "rpa" (Some "false") EmptyString] [] [] [].

Definition w_enabled : World :=
  world_of fresh [admission "rpa" (Some "true") EmptyString] [] [] [].

(** Two admissions for the same application: the first opts out. *)
Definition w_two_first_out : World :=
  world_of fresh
    [admission "rpa1" (Some "false") EmptyString;
     admission "rpa2" None EmptyString] [] [] [].

(** Two admissions for the same application: only the second opts out. *)
Definition w_two_second_out : World :=
  world_of fresh
    [admission "rpa1" None EmptyString;
     admission "rpa2" (Some "false") EmptyString] [] [] [].

(** No admission at all. *)
Definition w_no_admission : World := world_of fresh [] [] [] [].

Definition running_status : Release.ReleaseStatus :=
  {| Release.ReleasePipelineRun := "managed/release-pipelinerun-0";
     Release.ReleaseStrategy := "managed/strategy";
     Release.Target := "managed";
     Release.SnapshotEnvironmentBinding := EmptyString;
     Release.StartTime := Some 3;
     Release.CompletionTime := None;
     Release.Conditions :=
       [{| Type_ := "Succeeded"; Status := ConditionUnknown;
           Reason := "Running"; Message := EmptyString |}] |}.

(** A Release that has started, while no PipelineRun carries its labels. *)
Definition w_run_vanished : World :=
  world_of (rel None [Adapter.finalizerName] running_status)
    [admission "rpa" None EmptyString] [] [] [].

(** The status of a Release whose pipeline succeeded, with the given binding
    reference and deployment conditions. *)
Definition succeeded_status (binding : string) (deployment : list Condition)
  : Release.ReleaseStatus :=
  {| Release.ReleasePipelineRun := "managed/release-pipelinerun-0";
     Release.ReleaseStrategy := "managed/strategy";
     Release.Target := "managed";
     Release.SnapshotEnvironmentBinding := binding;
     Release.StartTime := Some 3;
     Release.CompletionTime := Some 5;
     Release.Conditions :=
       {| Type_ := "Succeeded"; Status := ConditionTrue;
          Reason := "Succeeded"; Message := EmptyString |} :: deployment |}.

Definition succeeded (binding : string) : Release.t :=
  rel None [Adapter.finalizerName] (succeeded_status binding []).

(** A succeeded Release whose stored binding reference has no separator. *)
Definition w_malformed : World :=
  world_of (succeeded "prod-0") [admission "rpa" None "prod"] []
    [bound "prod-0" []] [].

(** A succeeded Release whose stored binding reference names managed/prod-0. *)
Definition w_tracked : World :=
  world_of (succeeded "managed/prod-0") [admission "rpa" None "prod"] []
    [bound "prod-0" []] [].

(** A Release marked for deletion that carries the finalizer, with its
    PipelineRun still in the cluster. *)
Definition deleting : Release.t :=
  rel (Some 9) [Adapter.finalizerName] running_status.

Definition w_deleting (schedule : list (option error)) : World :=
  world_of deleting [admission "rpa" None EmptyString]
    [run "release-pipelinerun-0" None] [] schedule.

(** A Release marked for deletion that does not carry the finalizer. *)
Definition w_deleting_bare : World :=
  world_of (rel (Some 9) [] running_status)
    [admission "rpa" None EmptyString] [run "release-pipelinerun-0" None] [] [].

(** A new Release without the finalizer. *)
Definition w_new : World :=
  world_of (rel None [] empty_status) [admission "rpa" None EmptyString] [] [] [].

(** The plan cannot be read: the first call, the label lookup, goes through
    and the second, the Get of the ReleasePlan, fails with a transport
    error. *)
Definition w_transient : World :=
  world_of fresh [admission "rpa" None EmptyString] [] []
    [None; Some (ClientFailure "dial tcp 10.0.0.1:443: connection refused")].

(** Everything resolves and no PipelineRun exists yet. *)
Definition w_ready : World :=
  world_of fresh [admission "rpa" None EmptyString] [] [] [].

(** A succeeded Release whose admission deploys to prod, before any binding
    exists, and once the binding prod-0 exists. *)
Definition w_deployable : World :=
  world_of (succeeded EmptyString) [admission "rpa" None "prod"] [] [] [].

Definition w_bound : World :=
  world_of (succeeded EmptyString) [admission "rpa" None "prod"] []
    [bound "prod-0" []] [].

(** A Release whose PipelineRun exists already. *)
Definition w_triggered : World :=
  world_of fresh [admission "rpa" None EmptyString]
    [run "release-pipelinerun-0" None] [] [].

(** The binding that the creation path adds for [w_deployable]. *)
Definition created_binding : SnapshotEnvironmentBinding.t :=
  {| SnapshotEnvironmentBinding.meta :=
       {| Name := "prod-0"; GenerateName := "prod-"; Namespace := "managed";
          Labels := ∅; Finalizers := []; DeletionTimestamp := None;
          Controller := Some "app"; OwnerAnnotation := Some ("dev", "rel") |};
     SnapshotEnvironmentBinding.Application := "app";
     SnapshotEnvironmentBinding.Environment := "prod";
     SnapshotEnvironmentBinding.Snapshot := "snap";
     SnapshotEnvironmentBinding.Components := ["web"];
     SnapshotEnvironmentBinding.ComponentDeploymentConditions := [] |}.

(** A started Release whose PipelineRun finished with the given condition. *)
Definition w_run_finished (st : ConditionStatus) (message : string) : World :=
  world_of (rel None [Adapter.finalizerName] running_status)
    [admission "rpa" None EmptyString]
    [run "release-pipelinerun-0" (Some (st, message))] [] [].

(** A started Release whose PipelineRun is still running. *)
Definition w_run_pending : World :=
  world_of (rel None [Adapter.finalizerName] running_status)
    [admission "rpa" None EmptyString]
    [run "release-pipelinerun-0" (Some (ConditionUnknown, "Running"))] [] [].

(** A succeeded Release whose admission declares no environment. *)
Definition w_no_environment : World :=
  world_of (succeeded EmptyString) [admission "rpa" None EmptyString] [] [] [].

(** A succeeded Release whose admission declares an environment that the
    cluster does not hold. *)
Definition w_missing_environment : World :=
  world_of (succeeded EmptyString) [admission "rpa" None "staging"] [] [] [].

(** A succeeded Release tracking the binding managed/prod-0, whose
    deployment conditions are the given ones. *)
Definition w_deploying (conditions : list Condition) : World :=
  world_of (succeeded "managed/prod-0") [admission "rpa" None "prod"] []
    [bound "prod-0" conditions] [].

Definition all_deployed (st : ConditionStatus) : Condition :=
  {| Type_ := "AllComponentsDeployed"; Status := st;
     Reason := "CommitsSynced"; Message := "1 of 1 components deployed" |}.

(** A Release marked for deletion for which two PipelineRuns carry the
    labels. *)
Definition w_deleting_two : World :=
  world_of deleting [admission "rpa" None EmptyString]
    [run "release-pipelinerun-0" None; run "release-pipelinerun-1" None] [] [].

(** A succeeded Release whose binding reference has an empty namespace. *)
Definition w_bare_reference : World :=
  world_of (succeeded "/prod-0") [admission "rpa" None "prod"] []
    [bound "prod-0" []] [].
(** [w_deployable] with a snapshot that belongs to another application than
    the one of the plan and of its admission. *)
Definition w_foreign_snapshot : World :=
  with_cluster
    (with_snapshots
       [{| Snapshot.meta := meta_named "dev" "snap";
           Snapshot.Application := "other";
           Snapshot.Components := ["web"] |}]
       (cluster w_deployable))
    w_deployable.

End Fixtures.

(** * Properties *)

(** ** Strings *)

(** Appending to a literal unfolds under [cbn]. *)
#[local] Arguments String.append !s1 s2 : simpl nomatch.

Section StringLemmas.

Import Strings.

Lemma Split_free (s : string) (sep : ascii) :
  free_of sep s = true -> Split s sep = [s].
Proof.
  induction s as [|c s IH]; cbn; [reflexivity|].
  intros [Hc Hs]%andb_prop. apply negb_true_iff in Hc. rewrite Hc.
  now rewrite (IH Hs).
Qed.

Lemma Split_app_sep (a b : string) (sep : ascii) :
  free_of sep a = true ->
  Split (a +:+ String sep b) sep = a :: Split b sep.
Proof.
  induction a as [|c a IH]; cbn.
  - intros _. now rewrite Ascii.eqb_refl.
  - intros [Hc Ha]%andb_prop. apply negb_true_iff in Hc. rewrite Hc.
    now rewrite (IH Ha).
Qed.

Lemma Contains_prefix (s m : string) :
  String.prefix m s = true -> Contains s m = true.
Proof. intros H. destruct s; cbn [Contains]; now rewrite H. Qed.

Lemma Contains_append_r (a s m : string) :
  Contains s m = true -> Contains (a +:+ s) m = true.
Proof.
  intros H. induction a as [|c a IH]; [exact H|].
  cbn [String.append Contains].
  rewrite IH. now destruct (String.prefix m (String c (a +:+ s))).
Qed.

Lemma prefix_after (c : ascii) (a b s : string) :
  String.prefix (a +:+ String c b) s = true ->
  Exists (fun suf => String.prefix b suf = true) (suffixes_after c s).
Proof.
  revert s. induction a as [|x a IH]; intros [|y s]; cbn; try discriminate.
  - destruct (ascii_dec c y) as [->|]; [|discriminate].
    intros H. rewrite Ascii.eqb_refl. now constructor.
  - destruct (ascii_dec x y) as [->|]; [|discriminate].
    intros H. specialize (IH _ H).
    destruct (Ascii.eqb y c); [now constructor 2 | exact IH].
Qed.

(** An occurrence of [a ++ c ++ b] puts [b] right after an occurrence of
    the character [c]. *)
Lemma Contains_after (c : ascii) (a b s : string) :
  Contains s (a +:+ String c b) = true ->
  Exists (fun suf => String.prefix b suf = true) (suffixes_after c s).
Proof.
  induction s as [|y s IH]; cbn [Contains].
  - destruct (String.prefix (a +:+ String c b) EmptyString) eqn:E;
      [|discriminate].
    intros _. now apply (prefix_after c a b EmptyString).
  - destruct (String.prefix (a +:+ String c b) (String y s)) eqn:E.
    + intros _. now apply (prefix_after c a b (String y s)).
    + intros H. specialize (IH H). cbn [suffixes_after].
      destruct (Ascii.eqb y c); [now constructor 2 | exact IH].
Qed.

Lemma suffixes_after_free (c : ascii) (a s : string) :
  free_of c a = true -> suffixes_after c (a +:+ s) = suffixes_after c s.
Proof.
  induction a as [|x a IH]; cbn; [reflexivity|].
  intros [Hx Ha]%andb_prop. apply negb_true_iff in Hx. rewrite Hx. now apply IH.
Qed.

End StringLemmas.

(** ** The client *)

Section ClientLemmas.

Lemma call_eq (c : Call) (w : World) :
  call c w = (next_fault w, pass_calls [c] w).
Proof.
  unfold call, next_fault, pass_calls.
  destruct (faults w) as [|[e|] fs]; reflexivity.
Qed.

Lemma pass_calls_app (cs1 cs2 : list Call) (w : World) :
  pass_calls cs2 (pass_calls cs1 w) = pass_calls (cs1 ++ cs2) w.
Proof.
  unfold pass_calls; cbn. f_equal.
  - rewrite drop_drop, length_app. reflexivity.
  - now rewrite app_assoc.
Qed.

Lemma Get_eq `{Object X} (key : NamespacedName) (w : World) :
  Client.Get (X:=X) key w
  = (match next_fault w with
     | Some e => inl e
     | None =>
         match List.find (has_key key) (table (cluster w)) with
         | Some x => inr x
         | None => inl (NewNotFound kind_of (key_Name key))
         end
     end, pass_calls [CallGet kind_of key] w).
Proof.
  unfold Client.Get, bind, ret. rewrite call_eq.
  destruct (next_fault w); [reflexivity|]. cbn.
  now destruct (find _ _).
Qed.

Lemma List_eq `{Object X} (opts : list ListOption) (w : World) :
  Client.List (X:=X) opts w
  = (match next_fault w with
     | Some e => inl e
     | None => inr (list_objects opts (cluster w))
     end, pass_calls [CallList kind_of opts] w).
Proof.
  unfold Client.List, bind, ret. rewrite call_eq.
  now destruct (next_fault w).
Qed.

Lemma calm_next_fault (n : nat) (w : World) :
  calm (S n) (faults w) = true -> next_fault w = None.
Proof.
  unfold next_fault. destruct (faults w) as [|[e|] fs]; cbn; congruence.
Qed.

Lemma calm_pass (n : nat) (c : Call) (w : World) :
  calm (S n) (faults w) = true -> calm n (faults (pass_calls [c] w)) = true.
Proof.
  cbn. destruct (faults w) as [|[e|] fs]; cbn; intros;
    [now destruct n | discriminate | assumption].
Qed.

End ClientLemmas.

(** ** The admission resolver *)

Section AdmissionLemmas.

Import Adapter.

#[local] Abbreviation app_matches releasePlan :=
  (fun a => bool_decide (ReleasePlanAdmission.Application a
                         = ReleasePlan.Application releasePlan)).

Lemma range_chosen (releasePlan : ReleasePlan.t)
    (items : list ReleasePlanAdmission.t) (chosen : ReleasePlanAdmission.t) :
  rangeReleasePlanAdmissions releasePlan items (Some chosen)
  = match List.filter (app_matches releasePlan) items with
    | [] => inr (Some chosen)
    | _ :: _ =>
        inl (multiple_found (ReleasePlan.Target releasePlan)
               (ReleasePlan.Application releasePlan))
    end.
Proof.
  induction items as [|a items IH]; cbn; [reflexivity|].
  destruct (bool_decide _); cbn; [reflexivity | exact IH].
Qed.

Lemma range_none (releasePlan : ReleasePlan.t)
    (items : list ReleasePlanAdmission.t) :
  rangeReleasePlanAdmissions releasePlan items None
  = match List.filter (app_matches releasePlan) items with
    | [] => inr None
    | first :: others =>
        if opted_out first
        then inl (auto_release_false (Name (ReleasePlanAdmission.meta first)))
        else match others with
             | [] => inr (Some first)
             | _ :: _ =>
                 inl (multiple_found (ReleasePlan.Target releasePlan)
                        (ReleasePlan.Application releasePlan))
             end
    end.
Proof.
  induction items as [|a items IH]; cbn; [reflexivity|].
  destruct (bool_decide _); cbn; [|exact IH].
  unfold opted_out.
  destruct (Labels (ReleasePlanAdmission.meta a) !! AutoReleaseLabel)
    as [labelValue|] eqn:El.
  - destruct (decide (labelValue = "false")) as [->|Hne].
    + rewrite !bool_decide_eq_true_2 by reflexivity. reflexivity.
    + rewrite !bool_decide_eq_false_2 by congruence. apply range_chosen.
  - rewrite bool_decide_eq_false_2 by congruence. apply range_chosen.
Qed.

(** [getActiveReleasePlanAdmission] in closed form: it reads the plan,
    lists the admissions and answers as [resolve] does. *)
Lemma getActive_eq (w : World) :
  getActiveReleasePlanAdmission w
  = match next_fault w with
    | Some e => (inl e, pass_calls [CallGet KReleasePlan (releasePlanKey (release w))] w)
    | None =>
        match plan_of w with
        | None =>
            (inl (NewNotFound KReleasePlan (Release.ReleasePlan (release w))),
             pass_calls [CallGet KReleasePlan (releasePlanKey (release w))] w)
        | Some releasePlan =>
            (match next_fault
                     (pass_calls
                        [CallGet KReleasePlan (releasePlanKey (release w))] w) with
             | Some e => inl e
             | None => resolve releasePlan (cluster w)
             end, pass_calls (admissionCalls w releasePlan) w)
        end
    end.
Proof.
  unfold getActiveReleasePlanAdmission, getReleasePlan, bind, get_release.
  rewrite Get_eq. fold (releasePlanKey (release w)).
  destruct (next_fault w); [reflexivity|].
  unfold plan_of. cbn [table ReleasePlan_Object kind_of].
  destruct (find _ _) as [releasePlan|]; [|reflexivity].
  rewrite List_eq, pass_calls_app. cbn [kind_of ReleasePlanAdmission_Object].
  fold (admissionLookup releasePlan). unfold admissionCalls. cbn [app].
  destruct (next_fault _); [reflexivity|]. cbn [cluster pass_calls].
  rewrite range_none. unfold resolve, candidates, ret.
  destruct (List.filter _ _) as [|first others]; [reflexivity|].
  destruct (opted_out first); [reflexivity|].
  now destruct others.
Qed.

(** The resolver only reads. *)
Lemma getActive_reads (w : World) :
  exists cs, (getActiveReleasePlanAdmission w).2 = pass_calls cs w
             /\ existsb is_write cs = false.
Proof.
  rewrite getActive_eq.
  destruct (next_fault w); [eexists; split; reflexivity|].
  destruct (plan_of w); eexists; split; reflexivity.
Qed.

End AdmissionLemmas.

(** ** The gate on the admission *)

Section GateLemmas.

Import Adapter Reconciler.

Lemma find_set_condition (conditions : list Condition) (c : Condition) :
  Meta.FindStatusCondition (Meta.SetStatusCondition conditions c) (Type_ c)
  = Some c.
Proof.
  unfold Meta.FindStatusCondition.
  induction conditions as [|c0 cs IH]; cbn.
  - now rewrite bool_decide_eq_true_2.
  - destruct (decide (Type_ c0 = Type_ c)) as [E|E].
    + rewrite (bool_decide_eq_true_2 _ E). cbn.
      now rewrite bool_decide_eq_true_2.
    + rewrite (bool_decide_eq_false_2 _ E). cbn.
      now rewrite (bool_decide_eq_false_2 _ E).
Qed.

Lemma MarkInvalid_invalid (reason message : string) (r : Release.t) :
  Release.invalid_for reason message (Release.MarkInvalid reason message r).
Proof.
  unfold Release.invalid_for, Release.MarkInvalid, Release.setStatusCondition.
  cbn. apply (find_set_condition _
    {| Type_ := Release.releaseConditionType; Status := ConditionFalse;
       Reason := reason; Message := message |}).
Qed.

Lemma StatusPatch_eq (base : Release.t) (w : World) :
  Client.StatusPatch base w
  = (patch_error w,
     match patch_error w with
     | None => status_patched base w
     | Some _ => pass_calls [CallStatusPatch] w
     end).
Proof.
  unfold Client.StatusPatch, bind, ret, patch_error. rewrite call_eq.
  destruct (next_fault w); [reflexivity|]. cbn [cluster pass_calls release].
  destruct (existsb _ _); reflexivity.
Qed.

Lemma markInvalidAndStop_eq (reason : string) (err : error) (w : World) :
  markInvalidAndStop reason err w
  = let w1 := with_release (Release.MarkInvalid reason (Error err) (release w)) w in
    (RequeueOnErrorOrStop (patch_error w),
     match patch_error w with
     | None => status_patched (release w) w1
     | Some _ => pass_calls [CallStatusPatch] w1
     end).
Proof.
  unfold markInvalidAndStop, bind, ret, get_release, modify_release.
  rewrite StatusPatch_eq. reflexivity.
Qed.

Lemma EnsureReleasePlanAdmissionEnabled_eq (w : World) :
  EnsureReleasePlanAdmissionEnabled w
  = let got := getActiveReleasePlanAdmission w in
    match got.1 with
    | inl err =>
        if Strings.Contains (Error err) multiple_marker
        then markInvalidAndStop Release.ReleaseReasonValidationError err got.2
        else if Strings.Contains (Error err) disabled_marker
        then markInvalidAndStop Release.ReleaseReasonTargetDisabledError err got.2
        else (ContinueProcessing, got.2)
    | inr _ => (ContinueProcessing, got.2)
    end.
Proof.
  unfold EnsureReleasePlanAdmissionEnabled, bind, ret.
  destruct (getActiveReleasePlanAdmission w) as [[err|a] w1]; cbn;
    [|reflexivity].
  unfold multiple_marker, disabled_marker.
  destruct (Strings.Contains _ _); [reflexivity|].
  destruct (Strings.Contains _ _); reflexivity.
Qed.

Lemma run_chain_stops (op : M OperationResult) (ops : list (M OperationResult))
    (w : World) :
  (op w).1 <> ContinueProcessing -> run_chain (op :: ops) w = op w.
Proof.
  cbn. unfold bind, ret. destruct (op w) as [[| | |e] w1]; cbn; congruence.
Qed.

End GateLemmas.

(** ** The text of the resolver's errors *)

Section MarkerLemmas.

Import Strings Adapter.

Lemma multiple_found_marked (target application : string) :
  Contains (Error (multiple_found target application)) multiple_marker = true.
Proof. apply Contains_prefix. reflexivity. Qed.

Lemma auto_release_false_marked (name : string) :
  Contains (Error (auto_release_false name)) disabled_marker = true.
Proof.
  unfold auto_release_false, Error.
  apply Contains_append_r, Contains_append_r. reflexivity.
Qed.

Ltac no_suffix_starts E :=
  repeat match goal with
  | H : Exists _ (_ :: _) |- _ => inversion H; clear H; subst
  | H : Exists _ [] |- _ => inversion H
  | H : String.prefix _ _ = true |- _ => cbn in H; discriminate H
  end.

(** When neither the target nor the application holds a space, the text of
    the no-admission error holds neither phrase the gate looks for. *)
Lemma none_found_unmarked (target application : string) :
  free_of " " target = true -> free_of " " application = true ->
  Contains (Error (none_found target application)) multiple_marker = false
  /\ Contains (Error (none_found target application)) disabled_marker = false.
Proof.
  intros Ht Ha. split.
  - destruct (Contains _ _) eqn:E; [|reflexivity]. exfalso.
    change multiple_marker
      with ("multiple" +:+ String " " "ReleasePlanAdmissions found") in E.
    apply Contains_after in E. cbn in E.
    rewrite (suffixes_after_free _ _ _ Ht) in E. cbn in E.
    rewrite (suffixes_after_free _ _ _ Ha) in E. cbn in E.
    no_suffix_starts E.
  - destruct (Contains _ _) eqn:E; [|reflexivity]. exfalso.
    change disabled_marker
      with ("auto-release" +:+ String " " "label set to false") in E.
    apply Contains_after in E. cbn in E.
    rewrite (suffixes_after_free _ _ _ Ht) in E. cbn in E.
    rewrite (suffixes_after_free _ _ _ Ha) in E. cbn in E.
    no_suffix_starts E.
Qed.

End MarkerLemmas.

(** ** Schedules and the stored Release *)

Section ScheduleLemmas.

Lemma calm_drop (n m : nat) (fs : list (option error)) :
  calm (n + m) fs = true -> calm m (drop n fs) = true.
Proof.
  revert fs. induction n as [|n IH]; intros fs; [now rewrite drop_0|].
  destruct fs as [|[e|] fs]; cbn; [now destruct m | discriminate | apply IH].
Qed.

Lemma calm_after_calls (cs : list Call) (w : World) :
  calm (S (length cs)) (faults w) = true -> next_fault (pass_calls cs w) = None.
Proof.
  intros H. apply (calm_next_fault 0). cbn [faults pass_calls].
  apply calm_drop. now rewrite Nat.add_1_r.
Qed.

Lemma existsb_find {A} (p : A -> bool) (l : list A) :
  existsb p l = true <-> is_Some (List.find p l).
Proof.
  induction l as [|x l IH]; cbn.
  - split; [discriminate | intros [? [=]]].
  - destruct (p x); cbn; [split; eauto|exact IH].
Qed.

Lemma patch_error_calm (cs : list Call) (w : World) :
  calm (S (length cs)) (faults w) = true ->
  is_Some (stored_release w) ->
  patch_error (pass_calls cs w) = None.
Proof.
  intros Hcalm Hstored. unfold patch_error.
  rewrite (calm_after_calls _ _ Hcalm). cbn [release cluster pass_calls].
  apply existsb_find in Hstored. now rewrite Hstored.
Qed.

End ScheduleLemmas.

(** * The claims *)

(** C3. Opt-out respected: an admission whose auto-release label is false is
    never returned by [getActiveReleasePlanAdmission]; as the sole
    application-matching candidate it yields the error
    "found ReleasePlanAdmission '<name>' with auto-release label set to false";
    a sole candidate without the label, or with any other value, is returned. *)
Theorem C3_opt_out_respected :
  (forall (w : World) (a : ReleasePlanAdmission.t),
      (Adapter.getActiveReleasePlanAdmission w).1 = inr a ->
      Labels (ReleasePlanAdmission.meta a) !! Adapter.AutoReleaseLabel
      <> Some "false")
  /\ (forall (w : World) (releasePlan : ReleasePlan.t)
             (a : ReleasePlanAdmission.t),
        plan_of w = Some releasePlan ->
        calm 2 (faults w) = true ->
        candidates releasePlan (cluster w) = [a] ->
        (Labels (ReleasePlanAdmission.meta a) !! Adapter.AutoReleaseLabel
         = Some "false" ->
         (Adapter.getActiveReleasePlanAdmission w).1
         = inl (Errorf ("found ReleasePlanAdmission '"
                        +:+ Name (ReleasePlanAdmission.meta a)
                        +:+ "' with auto-release label set to false")))
        /\ (Labels (ReleasePlanAdmission.meta a) !! Adapter.AutoReleaseLabel
            <> Some "false" ->
            (Adapter.getActiveReleasePlanAdmission w).1 = inr a)).
Proof.
  split.
  - intros w a. rewrite getActive_eq.
    destruct (next_fault w); [discriminate|].
    destruct (plan_of w) as [releasePlan|]; [|discriminate]. cbn [fst].
    destruct (next_fault _); [discriminate|].
    unfold resolve. destruct (candidates _ _) as [|first others]; [discriminate|].
    destruct (opted_out first) eqn:Eo; [discriminate|].
    destruct others; [|discriminate].
    intros [= <-]. unfold opted_out in Eo.
    now apply bool_decide_eq_false in Eo.
  - intros w releasePlan a Hplan Hcalm Hcand.
    rewrite getActive_eq, (calm_next_fault _ _ Hcalm), Hplan. cbn [fst].
    rewrite (calm_next_fault 0) by now apply calm_pass.
    unfold resolve. rewrite Hcand. unfold opted_out. split; intros Hl.
    + now rewrite bool_decide_eq_true_2.
    + now rewrite bool_decide_eq_false_2.
Qed.

(** C3 at work: the opted-out sole admission of [w_opted_out] is refused and
    the enabled one of [w_enabled] is returned. *)
Lemma C3_witness :
  (Adapter.getActiveReleasePlanAdmission Fixtures.w_opted_out).1
  = inl (Errorf "found ReleasePlanAdmission 'rpa' with auto-release label set to false")
  /\ (Adapter.getActiveReleasePlanAdmission Fixtures.w_enabled).1
     = inr (Fixtures.admission "rpa" (Some "true") EmptyString).
Proof.
  split.
  - apply (proj1 (proj2 C3_opt_out_respected Fixtures.w_opted_out Fixtures.plan
                    (Fixtures.admission "rpa" (Some "false") EmptyString)
                    eq_refl eq_refl eq_refl)).
    reflexivity.
  - apply (proj2 (proj2 C3_opt_out_respected Fixtures.w_enabled Fixtures.plan
                    (Fixtures.admission "rpa" (Some "true") EmptyString)
                    eq_refl eq_refl eq_refl)).
    vm_compute. discriminate.
Defined.

(** What the gate does with an error of the resolver that carries one of its
    two phrases: the Release is marked invalid in memory, a status patch is
    issued, and the outcome is stop, or requeue with the error of the patch. *)
Lemma gate_marks (w : World) (err : error) (reason : string) :
  (Adapter.getActiveReleasePlanAdmission w).1 = inl err ->
  (Strings.Contains (Error err) multiple_marker = true
   /\ reason = Release.ReleaseReasonValidationError)
  \/ (Strings.Contains (Error err) multiple_marker = false
      /\ Strings.Contains (Error err) disabled_marker = true
      /\ reason = Release.ReleaseReasonTargetDisabledError) ->
  let w1 := (Adapter.getActiveReleasePlanAdmission w).2 in
  let out := Adapter.EnsureReleasePlanAdmissionEnabled w in
  release out.2 = Release.MarkInvalid reason (Error err) (release w)
  /\ calls out.2 = calls w1 ++ [CallStatusPatch]
  /\ out.1 = Reconciler.RequeueOnErrorOrStop (patch_error w1).
Proof.
  intros Hgot Hmark. cbn zeta.
  rewrite EnsureReleasePlanAdmissionEnabled_eq. cbn zeta. rewrite Hgot.
  destruct (getActive_reads w) as (cs & Hw1 & _). rewrite Hw1.
  assert (Hgo : forall reason',
             let out := Adapter.markInvalidAndStop reason' err (pass_calls cs w) in
             release out.2 = Release.MarkInvalid reason' (Error err) (release w)
             /\ calls out.2 = calls (pass_calls cs w) ++ [CallStatusPatch]
             /\ out.1 = Reconciler.RequeueOnErrorOrStop
                          (patch_error (pass_calls cs w))).
  { intros reason'. cbn zeta. rewrite markInvalidAndStop_eq. cbn zeta.
    destruct (patch_error (pass_calls cs w)); cbn; auto. }
  destruct Hmark as [[Hm ->]|(Hm & Hd & ->)]; rewrite Hm; [apply Hgo|].
  rewrite Hd. apply Hgo.
Qed.




(** C5. With no application-matching candidate the resolver fails with
    "no ReleasePlanAdmission found" naming the target and the application,
    and the gate continues without touching the Release (target and
    application being names without a space, as the names of a cluster are).
    Any failure of the resolver whose text carries neither phrase of the gate
    continues in the same way; the gate leaves the continue path, or changes
    the Release, only on an error that carries one of the two phrases, and on
    the "multiple" and the "auto-release" errors it does mark the Release
    invalid and end the chain. *)
Theorem C5_no_admission_continues :
  (forall (w : World) (releasePlan : ReleasePlan.t),
      plan_of w = Some releasePlan ->
      calm 2 (faults w) = true ->
      candidates releasePlan (cluster w) = [] ->
      (Adapter.getActiveReleasePlanAdmission w).1
      = inl (Errorf ("no ReleasePlanAdmission found in the target ("
                     +:+ ReleasePlan.Target releasePlan
                     +:+ ") for application '"
                     +:+ ReleasePlan.Application releasePlan +:+ "'"))
      /\ (Strings.free_of " " (ReleasePlan.Target releasePlan) = true ->
          Strings.free_of " " (ReleasePlan.Application releasePlan) = true ->
          Adapter.EnsureReleasePlanAdmissionEnabled w
          = (Reconciler.ContinueProcessing,
             pass_calls (admissionCalls w releasePlan) w)))
  /\ (forall (w : World) (err : error),
        (Adapter.getActiveReleasePlanAdmission w).1 = inl err ->
        Strings.Contains (Error err) multiple_marker = false ->
        Strings.Contains (Error err) disabled_marker = false ->
        exists cs,
          Adapter.EnsureReleasePlanAdmissionEnabled w
          = (Reconciler.ContinueProcessing, pass_calls cs w)
          /\ existsb is_write cs = false)
  /\ (forall (w : World),
        (Adapter.EnsureReleasePlanAdmissionEnabled w).1
        <> Reconciler.ContinueProcessing
        \/ release (Adapter.EnsureReleasePlanAdmissionEnabled w).2 <> release w ->
        exists err,
          (Adapter.getActiveReleasePlanAdmission w).1 = inl err
          /\ (Strings.Contains (Error err) multiple_marker = true
              \/ Strings.Contains (Error err) disabled_marker = true))
  /\ (forall (w : World) (err : error),
        (Adapter.getActiveReleasePlanAdmission w).1 = inl err ->
        (exists target application,
            err = Adapter.multiple_found target application)
        \/ (exists name, err = Adapter.auto_release_false name) ->
        let out := Adapter.EnsureReleasePlanAdmissionEnabled w in
        out.1 <> Reconciler.ContinueProcessing
        /\ exists reason,
             Release.invalid_for reason (Error err) (release out.2)).
Proof.
  split; [|split; [|split]].
  - intros w releasePlan Hplan Hcalm Hcand.
    assert (Hgot : Adapter.getActiveReleasePlanAdmission w
                   = (inl (Adapter.none_found (ReleasePlan.Target releasePlan)
                             (ReleasePlan.Application releasePlan)),
                      pass_calls (admissionCalls w releasePlan) w)).
    { rewrite getActive_eq, (calm_next_fault _ _ Hcalm), Hplan.
      rewrite (calm_next_fault 0) by now apply calm_pass.
      unfold resolve. now rewrite Hcand. }
    split; [now rewrite Hgot|]. intros Ht Ha.
    destruct (none_found_unmarked _ _ Ht Ha) as [Hm Hd].
    rewrite EnsureReleasePlanAdmissionEnabled_eq. cbn zeta.
    rewrite Hgot. cbn [fst snd]. now rewrite Hm, Hd.
  - intros w err Hgot Hm Hd.
    destruct (getActive_reads w) as (cs & Hw1 & Hreads).
    exists cs. split; [|exact Hreads].
    rewrite EnsureReleasePlanAdmissionEnabled_eq. cbn zeta.
    now rewrite Hgot, Hm, Hd, Hw1.
  - intros w Hleft.
    destruct (getActive_reads w) as (cs & Hw1 & _).
    rewrite EnsureReleasePlanAdmissionEnabled_eq in Hleft. cbn zeta in Hleft.
    destruct (Adapter.getActiveReleasePlanAdmission w).1 as [err|a] eqn:Hgot.
    + exists err. split; [reflexivity|].
      destruct (Strings.Contains (Error err) multiple_marker); [now left|].
      destruct (Strings.Contains (Error err) disabled_marker); [now right|].
      rewrite Hw1 in Hleft. cbn in Hleft. destruct Hleft; contradiction.
    + rewrite Hw1 in Hleft. cbn in Hleft. destruct Hleft; contradiction.
  - intros w err Hgot Hmode. cbn zeta.
    assert (Hmark : exists reason,
               (Strings.Contains (Error err) multiple_marker = true
                /\ reason = Release.ReleaseReasonValidationError)
               \/ (Strings.Contains (Error err) multiple_marker = false
                   /\ Strings.Contains (Error err) disabled_marker = true
                   /\ reason = Release.ReleaseReasonTargetDisabledError)).
    { destruct Hmode as [(t & a & ->)|(n & ->)].
      - eexists. left. split; [apply multiple_found_marked|reflexivity].
      - destruct (Strings.Contains (Error (Adapter.auto_release_false n))
                    multiple_marker) eqn:Hm.
        + eexists. left. split; reflexivity.
        + eexists. right. split; [reflexivity|].
          split; [apply auto_release_false_marked|reflexivity]. }
    destruct Hmark as [reason Hmark].
    destruct (gate_marks w err reason Hgot Hmark) as (Hrel & _ & Hres).
    split.
    + rewrite Hres. destruct (patch_error _); discriminate.
    + exists reason. rewrite Hrel. apply MarkInvalid_invalid.
Qed.

(** C5 at work on [w_no_admission]: the error names managed and app, and the
    gate continues with the Release as it was. *)
Lemma C5_witness :
  (Adapter.getActiveReleasePlanAdmission Fixtures.w_no_admission).1
  = inl (Errorf "no ReleasePlanAdmission found in the target (managed) for application 'app'")
  /\ (Adapter.EnsureReleasePlanAdmissionEnabled Fixtures.w_no_admission).1
     = Reconciler.ContinueProcessing
  /\ release (Adapter.EnsureReleasePlanAdmissionEnabled Fixtures.w_no_admission).2
     = Fixtures.fresh.
Proof.
  destruct (proj1 C5_no_admission_continues Fixtures.w_no_admission
              Fixtures.plan eq_refl eq_refl eq_refl) as [Hgot Hgate].
  split; [exact Hgot|].
  rewrite (Hgate eq_refl eq_refl). split; reflexivity.
Defined.

(** ** Tracking the PipelineRun and the binding *)

Section TrackingLemmas.

Import Adapter Reconciler.

Lemma pipelineRun_listing (w : World) :
  list_objects (X:=PipelineRun.t) (pipelineRunLookup (release w)) (cluster w)
  = take 1 (labelled_runs w).
Proof. reflexivity. Qed.

(** [getReleasePipelineRun] in closed form. *)
Lemma getReleasePipelineRun_eq (w : World) :
  getReleasePipelineRun w
  = (match next_fault w with
     | Some e => inl e
     | None => inr (head (labelled_runs w))
     end,
     pass_calls [CallList KPipelineRun (pipelineRunLookup (release w))] w).
Proof.
  unfold getReleasePipelineRun, bind, ret, get_release.
  rewrite List_eq. destruct (next_fault w); [reflexivity|].
  rewrite pipelineRun_listing. now destruct (labelled_runs w).
Qed.

Lemma getStatusBinding_malformed (w : World) :
  length (Strings.Split
            (Release.SnapshotEnvironmentBinding (Release.status (release w)))
            Separator) <> 2 ->
  getSnapshotEnvironmentBindingFromReleaseStatus w
  = (inl (invalid_namespaced_name
            (Release.SnapshotEnvironmentBinding (Release.status (release w)))),
     w).
Proof.
  unfold getSnapshotEnvironmentBindingFromReleaseStatus, bind, ret, get_release.
  destruct (Strings.Split _ _) as [|a [|b [|c l]]]; cbn; congruence.
Qed.

Lemma getStatusBinding_wellformed (w : World) (namespace name : string) :
  Strings.Split
    (Release.SnapshotEnvironmentBinding (Release.status (release w))) Separator
  = [namespace; name] ->
  getSnapshotEnvironmentBindingFromReleaseStatus w
  = Client.Get {| key_Namespace := namespace; key_Name := name |} w.
Proof.
  unfold getSnapshotEnvironmentBindingFromReleaseStatus, bind, ret, get_release.
  now intros ->.
Qed.

End TrackingLemmas.

(** C10. For a Release that has started and is not done, when the label
    lookup goes through and matches no PipelineRun,
    [EnsureReleasePipelineStatusIsTracked] continues; the only client call is
    the lookup, and neither the Release in memory (its conditions and its
    completion time included) nor the cluster changes. *)
Theorem C10_vanished_run_is_ignored (w : World) :
  Release.HasStarted (release w) = true ->
  Release.IsDone (release w) = false ->
  next_fault w = None ->
  labelled_runs w = [] ->
  let out := Adapter.EnsureReleasePipelineStatusIsTracked w in
  out = (Reconciler.ContinueProcessing,
         pass_calls
           [CallList KPipelineRun (Adapter.pipelineRunLookup (release w))] w)
  /\ release out.2 = release w
  /\ cluster out.2 = cluster w
  /\ existsb is_write (drop (length (calls w)) (calls out.2)) = false.
Proof.
  intros Hstarted Hdone Hfault Hnone. cbn zeta.
  assert (E : Adapter.EnsureReleasePipelineStatusIsTracked w
              = (Reconciler.ContinueProcessing,
                 pass_calls
                   [CallList KPipelineRun
                      (Adapter.pipelineRunLookup (release w))] w)).
  { unfold Adapter.EnsureReleasePipelineStatusIsTracked, bind, ret, get_release.
    rewrite Hstarted, Hdone. cbn [negb orb].
    now rewrite getReleasePipelineRun_eq, Hfault, Hnone. }
  rewrite E. repeat split. cbn [snd calls pass_calls].
  now rewrite drop_app_length.
Qed.

(** C10 at work on a started Release whose PipelineRun is gone. *)
Lemma C10_witness :
  (Adapter.EnsureReleasePipelineStatusIsTracked Fixtures.w_run_vanished).1
  = Reconciler.ContinueProcessing
  /\ release (Adapter.EnsureReleasePipelineStatusIsTracked
                Fixtures.w_run_vanished).2
     = release Fixtures.w_run_vanished.
Proof.
  destruct (C10_vanished_run_is_ignored Fixtures.w_run_vanished
              eq_refl eq_refl eq_refl eq_refl) as (E & Hrel & _).
  split; [now rewrite E | exact Hrel].
Defined.

(** C8. Malformed persisted binding reference: when the tracking operation
    gets past its guard (the Release has succeeded, a binding reference is
    recorded, the deployment is not finished) and the recorded reference does
    not split into exactly two segments around the separator,
    [EnsureSnapshotEnvironmentBindingIsTracked] requeues with the error
    "found invalid namespaced name of SnapshotEnvironmentBinding in release
    status: '<reference>'", which is not a not-found error; no client call is
    made (no fetch, no retry, no patch), the world is left as it was and the
    chain ends there for the pass. *)
Theorem C8_malformed_reference_is_hard_error (w : World) :
  let stored := Release.SnapshotEnvironmentBinding (Release.status (release w)) in
  let err :=
    Errorf ("found invalid namespaced name of SnapshotEnvironmentBinding in"
            +:+ " release status: '" +:+ stored +:+ "'") in
  Release.HasSucceeded (release w) = true ->
  Release.HasBeenDeployed (release w) = false ->
  stored <> EmptyString ->
  length (Strings.Split stored Separator) <> 2 ->
  Adapter.EnsureSnapshotEnvironmentBindingIsTracked w
  = (Reconciler.RequeueWithError err, w)
  /\ IsNotFound err = false
  /\ (forall later,
         Reconciler.run_chain
           (Adapter.EnsureSnapshotEnvironmentBindingIsTracked :: later) w
         = (Reconciler.RequeueWithError err, w)).
Proof.
  intros stored err Hsucc Hdep Hstored Hsplit.
  assert (E : Adapter.EnsureSnapshotEnvironmentBindingIsTracked w
              = (Reconciler.RequeueWithError err, w)).
  { unfold Adapter.EnsureSnapshotEnvironmentBindingIsTracked, bind, ret,
      get_release.
    rewrite Hsucc, Hdep. fold stored.
    rewrite (bool_decide_eq_false_2 _ Hstored). cbn [negb orb].
    now rewrite (getStatusBinding_malformed w Hsplit). }
  split; [exact E|]. split; [reflexivity|].
  intros later. rewrite run_chain_stops; [exact E|].
  rewrite E. discriminate.
Qed.

(** C8 at work on [w_malformed], whose recorded reference is prod-0. *)
Lemma C8_witness :
  Adapter.EnsureSnapshotEnvironmentBindingIsTracked Fixtures.w_malformed
  = (Reconciler.RequeueWithError
       (Errorf "found invalid namespaced name of SnapshotEnvironmentBinding in release status: 'prod-0'"),
     Fixtures.w_malformed).
Proof.
  apply (C8_malformed_reference_is_hard_error Fixtures.w_malformed
           eq_refl eq_refl).
  - discriminate.
  - vm_compute. discriminate.
Defined.

(** ** Writes *)

Section WriteLemmas.

Lemma Patch_eq (base : Release.t) (w : World) :
  Client.Patch base w
  = (patch_error w,
     match patch_error w with
     | None => patched base w
     | Some _ => pass_calls [CallPatch] w
     end).
Proof.
  unfold Client.Patch, bind, ret, patch_error. rewrite call_eq.
  destruct (next_fault w); [reflexivity|]. cbn [cluster pass_calls release].
  destruct (existsb _ _); reflexivity.
Qed.

Lemma DeletePipelineRun_eq (pr : PipelineRun.t) (w : World) :
  Client.DeletePipelineRun pr w
  = match next_fault w with
    | Some e => (Some e, pass_calls [CallDelete KPipelineRun (key_of pr)] w)
    | None =>
        if existsb (has_key (key_of pr)) (pipelineRuns (cluster w))
        then (None,
              with_cluster
                (with_pipelineRuns
                   (List.filter (fun x => negb (has_key (key_of pr) x))
                      (pipelineRuns (cluster w))) (cluster w))
                (pass_calls [CallDelete KPipelineRun (key_of pr)] w))
        else (Some (NewNotFound KPipelineRun (Name (meta_of pr))),
              pass_calls [CallDelete KPipelineRun (key_of pr)] w)
    end.
Proof.
  unfold Client.DeletePipelineRun, bind, ret. rewrite call_eq.
  destruct (next_fault w); reflexivity.
Qed.

Lemma CreatePipelineRun_eq (pr : PipelineRun.t) (w : World) :
  Client.CreatePipelineRun pr w
  = match next_fault w with
    | Some e => (inl e, pass_calls [CallCreate KPipelineRun] w)
    | None =>
        let pr' := set_meta (Client.assign_name (cluster w) (meta_of pr)) pr in
        if existsb (has_key (key_of pr')) (pipelineRuns (cluster w))
        then (inl (Client.AlreadyExists KPipelineRun (Name (meta_of pr'))),
              pass_calls [CallCreate KPipelineRun] w)
        else (inr pr',
              with_cluster
                (next_generation
                   (with_pipelineRuns (pipelineRuns (cluster w) ++ [pr'])
                      (cluster w)))
                (pass_calls [CallCreate KPipelineRun] w))
    end.
Proof.
  unfold Client.CreatePipelineRun, bind, ret. rewrite call_eq.
  destruct (next_fault w); reflexivity.
Qed.

Lemma CreateSnapshotEnvironmentBinding_eq (b : SnapshotEnvironmentBinding.t)
    (w : World) :
  Client.CreateSnapshotEnvironmentBinding b w
  = match next_fault w with
    | Some e => (inl e, pass_calls [CallCreate KSnapshotEnvironmentBinding] w)
    | None =>
        let b' := set_meta (Client.assign_name (cluster w) (meta_of b)) b in
        if existsb (has_key (key_of b')) (snapshotEnvironmentBindings (cluster w))
        then (inl (Client.AlreadyExists KSnapshotEnvironmentBinding
                     (Name (meta_of b'))),
              pass_calls [CallCreate KSnapshotEnvironmentBinding] w)
        else (inr b',
              with_cluster
                (next_generation
                   (with_snapshotEnvironmentBindings
                      (snapshotEnvironmentBindings (cluster w) ++ [b'])
                      (cluster w)))
                (pass_calls [CallCreate KSnapshotEnvironmentBinding] w))
    end.
Proof.
  unfold Client.CreateSnapshotEnvironmentBinding, bind, ret. rewrite call_eq.
  destruct (next_fault w); reflexivity.
Qed.

Lemma SyncSnapshot_eq (snapshot : Snapshot.t) (namespace : string) (w : World) :
  Syncer.SyncSnapshot snapshot namespace w
  = let c := CallSyncSnapshot (Name (Snapshot.meta snapshot)) namespace in
    match next_fault w with
    | Some e => (Some e, pass_calls [c] w)
    | None =>
        let copy :=
          set_meta (meta_named namespace (Name (Snapshot.meta snapshot)))
            snapshot in
        if existsb (has_key (key_of copy)) (snapshots (cluster w))
        then (None, pass_calls [c] w)
        else (None,
              with_cluster
                (with_snapshots (snapshots (cluster w) ++ [copy]) (cluster w))
                (pass_calls [c] w))
    end.
Proof.
  unfold Syncer.SyncSnapshot, bind, ret. rewrite call_eq.
  destruct (next_fault w); reflexivity.
Qed.

Lemma find_update_release (key : NamespacedName) (f : Release.t -> Release.t)
    (l : list Release.t) :
  (forall r, key_of (f r) = key_of r) ->
  List.find (has_key key) (Client.update_release key f l)
  = f <$> List.find (has_key key) l.
Proof.
  intros Hkey. induction l as [|r l IH]; cbn; [reflexivity|].
  destruct (has_key key r) eqn:E; cbn.
  - unfold has_key in *. now rewrite Hkey, E.
  - now rewrite E.
Qed.

Lemma merge_self {A} `{EqDecision A} (base obj : A) :
  Client.merge base obj base = obj.
Proof. unfold Client.merge. now case_bool_decide. Qed.

Lemma calls_since_pass (cs : list Call) (w : World) :
  calls_since w (pass_calls cs w) = cs.
Proof. unfold calls_since. cbn. now rewrite drop_app_length. Qed.

End WriteLemmas.

(** ** Finalizers *)

Section FinalizerLemmas.

Import Adapter Reconciler.

Lemma RemoveFinalizer_gone (m : ObjectMeta) (finalizer : string) :
  Meta.ContainsFinalizer (Meta.RemoveFinalizer m finalizer) finalizer = false.
Proof.
  unfold Meta.ContainsFinalizer, Meta.RemoveFinalizer. cbn.
  induction (Finalizers m) as [|f fs IH]; cbn; [reflexivity|].
  destruct (bool_decide (f = finalizer)) eqn:E; cbn; [exact IH|].
  now rewrite E.
Qed.

(** A successful patch of a Release that the cluster stores as the adapter
    read it leaves the stored Release equal to the one in memory, when the
    adapter changed the finalizers only. *)
Lemma patched_coherent (base : Release.t) (fs : list string) (w : World) :
  release w = Release.with_meta (with_Finalizers fs (Release.meta base)) base ->
  List.find (has_key (key_of base)) (releases (cluster w)) = Some base ->
  stored_release (patched base w) = Some (release w).
Proof.
  intros Hrel Hstored. unfold stored_release, patched.
  cbn [release cluster with_cluster pass_calls releases with_releases].
  rewrite find_update_release by reflexivity.
  assert (Hkey : key_of (release w) = key_of base) by now rewrite Hrel.
  rewrite Hkey, Hstored. cbn. f_equal. rewrite Hrel.
  unfold Client.merge_meta. cbn. now rewrite merge_self.
Qed.

(** [EnsureFinalizersAreCalled] in closed form. *)
Lemma EnsureFinalizersAreCalled_eq (w : World) :
  EnsureFinalizersAreCalled w
  = match DeletionTimestamp (Release.meta (release w)) with
    | None => (ContinueProcessing, w)
    | Some _ =>
        if Meta.ContainsFinalizer (Release.meta (release w)) finalizerName then
          let w1 := pass_calls [lookupCall w] w in
          match next_fault w with
          | Some e => (RequeueWithError e, w1)
          | None =>
              match head (labelled_runs w) with
              | None => dropFinalizer w1
              | Some pr =>
                  let deleted := Client.DeletePipelineRun pr w1 in
                  match deleted.1 with
                  | Some e =>
                      if negb (IsNotFound e) then (RequeueWithError e, deleted.2)
                      else dropFinalizer deleted.2
                  | None => dropFinalizer deleted.2
                  end
              end
          end
        else (Requeue, w)
    end.
Proof.
  unfold EnsureFinalizersAreCalled, bind, ret, get_release.
  destruct (DeletionTimestamp _); [|reflexivity].
  destruct (Meta.ContainsFinalizer _ _); [|reflexivity].
  unfold finalizeRelease, bind, ret. rewrite getReleasePipelineRun_eq.
  fold (lookupCall w). cbn zeta.
  assert (Hdrop : forall w2,
             (let (_, w') :=
                modify_release
                  (fun r => Release.with_meta
                              (Meta.RemoveFinalizer (Release.meta r) finalizerName)
                              r) w2 in
              let (a0, w'1) := Client.Patch (release w2) w' in
              match a0 with
              | Some err => fun w3 => (RequeueWithError err, w3)
              | None => fun w3 => (Requeue, w3)
              end w'1) = dropFinalizer w2).
  { intros w2. unfold modify_release, dropFinalizer. rewrite Patch_eq.
    now destruct (patch_error _). }
  destruct (next_fault w); [reflexivity|].
  destruct (head (labelled_runs w)) as [pr|]; [|apply Hdrop].
  destruct (Client.DeletePipelineRun pr _) as [[e|] w2]; cbn [fst snd];
    [|apply Hdrop].
  destruct (IsNotFound e); cbn [negb]; [apply Hdrop | reflexivity].
Qed.

Lemma dropFinalizer_spec (w : World) :
  let out := dropFinalizer w in
  calls out.2 = calls w ++ [CallPatch]
  /\ (out.1 = Requeue \/ exists e, out.1 = RequeueWithError e)
  /\ (forall e, out.1 = RequeueWithError e ->
        releases (cluster out.2) = releases (cluster w))
  /\ pipelineRuns (cluster out.2) = pipelineRuns (cluster w)
  /\ (out.1 = Requeue ->
      Meta.ContainsFinalizer (Release.meta (release out.2)) finalizerName = false
      /\ (stored_release w = Some (release w) ->
          stored_release out.2 = Some (release out.2))).
Proof.
  cbn zeta. unfold dropFinalizer.
  destruct (patch_error _) as [e|]; cbn [fst snd].
  - repeat split; eauto; discriminate.
  - split; [reflexivity|]. split; [now left|]. split; [discriminate|].
    split; [reflexivity|]. intros _. split; [apply RemoveFinalizer_gone|].
    intros Hstored.
    exact (patched_coherent (release w)
             (List.filter (fun f => negb (bool_decide (f = finalizerName)))
                (Finalizers (Release.meta (release w))))
             (with_release
                (Release.with_meta
                   (Meta.RemoveFinalizer (Release.meta (release w)) finalizerName)
                   (release w)) w)
             eq_refl Hstored).
Qed.

(** With the deletion marker set the operation never continues. *)
Lemma EnsureFinalizersAreCalled_ends (w : World) :
  DeletionTimestamp (Release.meta (release w)) <> None ->
  (EnsureFinalizersAreCalled w).1 <> ContinueProcessing.
Proof.
  intros Hdel. rewrite EnsureFinalizersAreCalled_eq.
  destruct (DeletionTimestamp _); [|congruence].
  cbn zeta. unfold dropFinalizer.
  repeat match goal with
         | |- context [match ?x with _ => _ end] => destruct x; cbn [fst]
         | |- context [if ?x then _ else _] => destruct x; cbn [fst]
         end; discriminate.
Qed.

End FinalizerLemmas.



(** C7, amended. [EnsureFinalizerIsAdded] adds the finalizer whenever the
    Release does not carry it, without looking at the deletion marker: the
    token is appended in memory, one patch is issued, and the result is
    continue, or requeue with the error of the patch.  For a Release that
    already carries the token the operation mutates nothing, makes no call
    and continues.  A Release marked for deletion does not reach the
    operation in the chain, which ends with [EnsureFinalizersAreCalled]. *)
Theorem C7_finalizer_is_added (w : World) :
  let out := Adapter.EnsureFinalizerIsAdded w in
  let token :=
    Meta.ContainsFinalizer (Release.meta (release w)) Adapter.finalizerName in
  (token = true -> out = (Reconciler.ContinueProcessing, w))
  /\ (token = false ->
      Finalizers (Release.meta (release out.2))
      = Finalizers (Release.meta (release w)) ++ [Adapter.finalizerName]
      /\ calls_since w out.2 = [CallPatch]
      /\ out.1 = Reconciler.RequeueOnErrorOrContinue (patch_error w)
      /\ (patch_error w = None -> stored_release w = Some (release w) ->
          stored_release out.2 = Some (release out.2)))
  /\ (DeletionTimestamp (Release.meta (release w)) <> None ->
      Reconciler.run_chain Adapter.operations w
      = Adapter.EnsureFinalizersAreCalled w).
Proof.
  cbn zeta. split; [|split].
  - intros Htoken.
    unfold Adapter.EnsureFinalizerIsAdded, bind, ret, get_release.
    unfold Meta.ContainsFinalizer in Htoken. now rewrite Htoken.
  - intros Htoken.
    set (w' := with_release
                 (Release.with_meta
                    (with_Finalizers
                       (Finalizers (Release.meta (release w))
                        ++ [Adapter.finalizerName]) (Release.meta (release w)))
                    (release w)) w).
    assert (E : Adapter.EnsureFinalizerIsAdded w
                = (Reconciler.RequeueOnErrorOrContinue (patch_error w),
                   match patch_error w with
                   | None => patched (release w) w'
                   | Some _ => pass_calls [CallPatch] w'
                   end)).
    { unfold Adapter.EnsureFinalizerIsAdded, bind, ret, get_release,
        modify_release.
      pose proof Htoken as Hfound. unfold Meta.ContainsFinalizer in Hfound.
      rewrite Hfound. cbn [negb]. rewrite Patch_eq.
      unfold Meta.AddFinalizer. rewrite Htoken. fold w'.
      change (patch_error w') with (patch_error w).
      now destruct (patch_error w). }
    rewrite E. cbn [fst snd].
    split; [now destruct (patch_error w)|].
    split; [destruct (patch_error w); unfold calls_since; cbn;
            now rewrite drop_app_length|].
    split; [reflexivity|]. intros -> Hstored.
    exact (patched_coherent (release w) _ w' eq_refl Hstored).
  - intros Hdel. unfold Adapter.operations. apply run_chain_stops.
    now apply EnsureFinalizersAreCalled_ends.
Qed.

(** C7 at work on a new Release: the finalizer is added in memory and in the
    cluster, and the chain goes on. *)
Lemma C7_witness :
  (Adapter.EnsureFinalizerIsAdded Fixtures.w_new).1
  = Reconciler.ContinueProcessing
  /\ Finalizers (Release.meta (release (Adapter.EnsureFinalizerIsAdded
                                          Fixtures.w_new).2))
     = [Adapter.finalizerName]
  /\ stored_release (Adapter.EnsureFinalizerIsAdded Fixtures.w_new).2
     = Some (release (Adapter.EnsureFinalizerIsAdded Fixtures.w_new).2).
Proof.
  destruct (proj1 (proj2 (C7_finalizer_is_added Fixtures.w_new)) eq_refl)
    as (Hfin & _ & Hres & Hstored).
  split; [exact Hres|]. split; [exact Hfin|].
  apply Hstored; reflexivity.
Defined.

(** The claim as written fails on [w_deleting_bare]: the Release is marked for
    deletion and lacks the finalizer, and the operation, far from mutating
    nothing, adds the finalizer in memory, patches the Release and changes the
    stored one. *)
Lemma C7_counterexample :
  DeletionTimestamp (Release.meta (release Fixtures.w_deleting_bare)) = Some 9
  /\ Finalizers (Release.meta (release Fixtures.w_deleting_bare)) = []
  /\ Finalizers (Release.meta (release (Adapter.EnsureFinalizerIsAdded
                                          Fixtures.w_deleting_bare).2))
     = [Adapter.finalizerName]
  /\ calls (Adapter.EnsureFinalizerIsAdded Fixtures.w_deleting_bare).2
     = [CallPatch]
  /\ cluster (Adapter.EnsureFinalizerIsAdded Fixtures.w_deleting_bare).2
     <> cluster Fixtures.w_deleting_bare.
Proof.
  repeat split; try reflexivity. vm_compute. discriminate.
Qed.

(** ** Triggering the PipelineRun *)

Section TriggerLemmas.

Import Adapter Reconciler.

Lemma markInvalidAndStop_marked (reason : string) (err : error) (w : World) :
  marked_invalid reason err w (markInvalidAndStop reason err w).
Proof.
  unfold marked_invalid. rewrite markInvalidAndStop_eq. cbn zeta.
  destruct (patch_error w); cbn [fst snd];
    (split; [reflexivity|]; split; [apply MarkInvalid_invalid|]);
    repeat split.
Qed.

(** When no PipelineRun is found the operation is its creation path. *)
Lemma EnsureReleasePipelineRunExists_absent (w : World) :
  no_run_found w ->
  EnsureReleasePipelineRunExists w = createPath (pass_calls [lookupCall w] w).
Proof.
  unfold EnsureReleasePipelineRunExists, bind.
  rewrite getReleasePipelineRun_eq. fold (lookupCall w).
  intros [[-> ->]|(e & -> & Hnf)]; [reflexivity|]. now rewrite Hnf.
Qed.

End TriggerLemmas.

(** C4, amended. In [EnsureReleasePipelineRunExists], when no existing
    PipelineRun is found, every failure of one of the four resolution steps
    (admission, strategy, policy, snapshot), be it a validation failure, a
    not-found or a transport failure of the store call, marks the Release
    invalid with the text of the error (release-plan-validation reason for
    the admission step, validation reason for the three others), issues the
    status patch and ends the chain: stop when the patch goes through,
    requeue with its error otherwise.  Only a failure of the initial lookup
    that is not a not-found, and a failure of the creation, requeue with the
    error and leave the Release as it is. *)
Theorem C4_resolution_failures (w : World) :
  let out := Adapter.EnsureReleasePipelineRunExists w in
  let w1 := pass_calls [lookupCall w] w in
  (forall e, next_fault w = Some e -> IsNotFound e = false ->
             out = (Reconciler.RequeueWithError e, w1))
  /\ (no_run_found w ->
      let admission := Adapter.getActiveReleasePlanAdmission w1 in
      (forall msg, next_fault w1 = Some (ClientFailure msg) ->
                   marked_invalid Release.ReleaseReasonReleasePlanValidationError
                     (ClientFailure msg) admission.2 out)
      /\ (forall err, admission.1 = inl err ->
                      marked_invalid
                        Release.ReleaseReasonReleasePlanValidationError err
                        admission.2 out)
      /\ (forall releasePlanAdmission,
             admission.1 = inr releasePlanAdmission ->
             let strategy :=
               Adapter.getReleaseStrategy releasePlanAdmission admission.2 in
             (forall err, strategy.1 = inl err ->
                          marked_invalid Release.ReleaseReasonValidationError err
                            strategy.2 out)
             /\ (forall releaseStrategy,
                    strategy.1 = inr releaseStrategy ->
                    let policy :=
                      Adapter.getEnterpriseContractPolicy releaseStrategy
                        strategy.2 in
                    (forall err, policy.1 = inl err ->
                                 marked_invalid
                                   Release.ReleaseReasonValidationError err
                                   policy.2 out)
                    /\ (forall enterpriseContractPolicy,
                           policy.1 = inr enterpriseContractPolicy ->
                           let snapshot := Adapter.getSnapshot policy.2 in
                           (forall err, snapshot.1 = inl err ->
                                        marked_invalid
                                          Release.ReleaseReasonValidationError
                                          err snapshot.2 out)
                           /\ (forall snap,
                                  snapshot.1 = inr snap ->
                                  let created :=
                                    Adapter.createReleasePipelineRun
                                      releaseStrategy enterpriseContractPolicy
                                      snap snapshot.2 in
                                  forall err, created.1 = inl err ->
                                    out = (Reconciler.RequeueWithError err,
                                           created.2)))))).
Proof.
  cbn zeta. split.
  - intros e Hf Hnf.
    unfold Adapter.EnsureReleasePipelineRunExists, bind, ret.
    rewrite getReleasePipelineRun_eq, Hf, Hnf. reflexivity.
  - intros Habsent. rewrite (EnsureReleasePipelineRunExists_absent w Habsent).
    set (w1 := pass_calls [lookupCall w] w).
    unfold Adapter.createPath, bind, ret.
    split.
    { intros msg Hf. rewrite getActive_eq, Hf. cbn [fst snd].
      apply markInvalidAndStop_marked. }
    destruct (Adapter.getActiveReleasePlanAdmission w1) as [[err|rpa] w2];
      cbn [fst snd]; (split; [intros ? [= <-]|intros ? [= <-]]).
    { apply markInvalidAndStop_marked. }
    destruct (Adapter.getReleaseStrategy rpa w2) as [[err|strategy] w3];
      cbn [fst snd]; (split; [intros ? [= <-]|intros ? [= <-]]).
    { apply markInvalidAndStop_marked. }
    destruct (Adapter.getEnterpriseContractPolicy strategy w3)
      as [[err|policy] w4];
      cbn [fst snd]; (split; [intros ? [= <-]|intros ? [= <-]]).
    { apply markInvalidAndStop_marked. }
    destruct (Adapter.getSnapshot w4) as [[err|snap] w5];
      cbn [fst snd]; (split; [intros ? [= <-]|intros ? [= <-]]).
    { apply markInvalidAndStop_marked. }
    destruct (Adapter.createReleasePipelineRun strategy policy snap w5)
      as [[err|pr] w6]; cbn [fst snd]; intros ? [= <-]. reflexivity.
Qed.

(** C4 at work on [w_transient]: the transport failure of the Get of the plan
    ends in an invalid Release and a stop. *)
Lemma C4_witness :
  Release.invalid_for Release.ReleaseReasonReleasePlanValidationError
    "dial tcp 10.0.0.1:443: connection refused"
    (release (Adapter.EnsureReleasePipelineRunExists Fixtures.w_transient).2)
  /\ (Adapter.EnsureReleasePipelineRunExists Fixtures.w_transient).1
     = Reconciler.StopProcessing.
Proof.
  destruct (proj1 (proj2 (C4_resolution_failures Fixtures.w_transient)
                     (or_introl (conj eq_refl eq_refl)))
              "dial tcp 10.0.0.1:443: connection refused" eq_refl)
    as (_ & Hinv & _ & Hres & _).
  split; [exact Hinv | exact Hres].
Defined.

(** The claim as written fails on [w_transient]: no PipelineRun exists, the Get
    of the ReleasePlan fails with a transport error, and the operation, far
    from requeuing with that error, patches the status of the Release, now
    invalid, and stops. *)
Lemma C4_counterexample :
  labelled_runs Fixtures.w_transient = []
  /\ (Adapter.getActiveReleasePlanAdmission
        (pass_calls [lookupCall Fixtures.w_transient] Fixtures.w_transient)).1
     = inl (ClientFailure "dial tcp 10.0.0.1:443: connection refused")
  /\ (Adapter.EnsureReleasePipelineRunExists Fixtures.w_transient).1
     = Reconciler.StopProcessing
  /\ (Adapter.EnsureReleasePipelineRunExists Fixtures.w_transient).1
     <> Reconciler.RequeueWithError
          (ClientFailure "dial tcp 10.0.0.1:443: connection refused")
  /\ calls (Adapter.EnsureReleasePipelineRunExists Fixtures.w_transient).2
     = [lookupCall Fixtures.w_transient;
        CallGet KReleasePlan (releasePlanKey Fixtures.fresh);
        CallStatusPatch]
  /\ Release.invalid_for Release.ReleaseReasonReleasePlanValidationError
       "dial tcp 10.0.0.1:443: connection refused"
       (release (Adapter.EnsureReleasePipelineRunExists Fixtures.w_transient).2)
  /\ stored_release (Adapter.EnsureReleasePipelineRunExists Fixtures.w_transient).2
     <> stored_release Fixtures.w_transient.
Proof.
  repeat split; try reflexivity; vm_compute; discriminate.
Qed.

(** ** Idempotent creation of the PipelineRun *)

Section RunLemmas.

Import Adapter Reconciler.

Lemma no_notfound_next (w : World) (e : error) :
  no_notfound (faults w) = true -> next_fault w = Some e -> IsNotFound e = false.
Proof.
  unfold next_fault, no_notfound.
  destruct (faults w) as [|[e'|] fs]; cbn; try discriminate.
  intros [H _]%andb_prop [= <-]. now apply negb_true_iff.
Qed.

Lemma no_notfound_drop (n : nat) (fs : list (option error)) :
  no_notfound fs = true -> no_notfound (drop n fs) = true.
Proof.
  unfold no_notfound. rewrite !forallb_forall. intros H f Hin. apply H.
  apply list_elem_of_In. apply list_elem_of_In in Hin.
  apply (subseteq_drop n fs). exact Hin.
Qed.

Lemma runs_grow_refl (w : World) : runs_grow [] w w.
Proof.
  repeat split; [now exists 0 | now rewrite app_nil_r | constructor].
Qed.

(** A world reached through reads, with another Release status in memory and
    another Release table, keeps the PipelineRuns. *)
Lemma runs_grow_pass (cs : list Call) (w : World) : runs_grow [] w (pass_calls cs w).
Proof.
  repeat split; [now exists (length cs) | cbn; now rewrite app_nil_r | constructor].
Qed.

Lemma runs_grow_trans (c1 c2 : list PipelineRun.t) (w1 w2 w3 : World) :
  runs_grow c1 w1 w2 -> runs_grow c2 w2 w3 -> runs_grow (c1 ++ c2) w1 w3.
Proof.
  intros (Hm1 & [n1 Hf1] & Hr1 & Hl1) (Hm2 & [n2 Hf2] & Hr2 & Hl2).
  split; [congruence|]. split.
  { exists (n1 + n2). rewrite Hf2, Hf1. now rewrite drop_drop. }
  split; [rewrite Hr2, Hr1; now rewrite app_assoc|].
  apply Forall_app. split; [exact Hl1|].
  unfold pipelineRunLookup in *. now rewrite <- Hm1.
Qed.

Lemma markInvalidAndStop_grow (reason : string) (err : error) (w : World) :
  runs_grow [] w (markInvalidAndStop reason err w).2.
Proof.
  rewrite markInvalidAndStop_eq. cbn zeta.
  destruct (patch_error w); cbn [snd];
    (repeat split; [now exists 1 | cbn; now rewrite app_nil_r | constructor]).
Qed.

Lemma Get_grow `{Object X} (key : NamespacedName) (w : World) :
  runs_grow [] w (Client.Get (X:=X) key w).2.
Proof. rewrite Get_eq. apply runs_grow_pass. Qed.

Lemma getActive_grow (w : World) :
  runs_grow [] w (getActiveReleasePlanAdmission w).2.
Proof.
  destruct (getActive_reads w) as (cs & -> & _). apply runs_grow_pass.
Qed.

Lemma assign_name_Labels (c : Cluster) (m : ObjectMeta) :
  Labels (Client.assign_name c m) = Labels m.
Proof. unfold Client.assign_name. now destruct (bool_decide _). Qed.

Lemma assign_name_Namespace (c : Cluster) (m : ObjectMeta) :
  Namespace (Client.assign_name c m) = Namespace m.
Proof. unfold Client.assign_name. now destruct (bool_decide _). Qed.

(** The manifest the builder produces carries the two labels of the lookup. *)
Lemma created_run_labelled (r : Release.t) (strategy : ReleaseStrategy.t)
    (policy : EnterpriseContractPolicy.t) (snap : Snapshot.t) (w : World)
    (pr : PipelineRun.t) :
  release w = r ->
  (createReleasePipelineRun strategy policy snap w).1 = inr pr ->
  forallb (selects pr) (pipelineRunLookup r) = true.
Proof.
  intros <-. unfold createReleasePipelineRun, bind, get_release.
  rewrite CreatePipelineRun_eq.
  destruct (next_fault w); [discriminate|]. cbn zeta.
  destruct (existsb _ _); [discriminate|]. cbn [fst]. intros [= <-].
  cbn. rewrite assign_name_Labels. cbn. rewrite lookup_insert_eq.
  rewrite lookup_insert_ne by discriminate. rewrite lookup_insert_eq.
  now rewrite !bool_decide_eq_true_2.
Qed.

Lemma createReleasePipelineRun_grow (strategy : ReleaseStrategy.t)
    (policy : EnterpriseContractPolicy.t) (snap : Snapshot.t) (w : World) :
  let out := createReleasePipelineRun strategy policy snap w in
  match out.1 with
  | inl _ => runs_grow [] w out.2
  | inr pr => runs_grow [pr] w out.2
  end.
Proof.
  cbn zeta.
  pose proof (created_run_labelled (release w) strategy policy snap w) as Hlab.
  unfold createReleasePipelineRun, bind, get_release in *.
  rewrite CreatePipelineRun_eq in *.
  destruct (next_fault w); [apply runs_grow_pass|]. cbn zeta in *.
  destruct (existsb _ _); [apply runs_grow_pass|]. cbn [fst snd] in *.
  repeat split; [now exists 1|].
  constructor; [|constructor]. now apply Hlab.
Qed.

Lemma registerReleaseStatusData_grow (pr : option PipelineRun.t)
    (strategy : option ReleaseStrategy.t) (w : World) :
  runs_grow [] w (registerReleaseStatusData pr strategy w).2.
Proof.
  unfold registerReleaseStatusData.
  destruct pr as [pr|]; [|apply runs_grow_refl].
  destruct strategy as [strategy|]; [|apply runs_grow_refl].
  unfold bind, ret, get_release, modify_release, Now. rewrite StatusPatch_eq.
  destruct (patch_error _); cbn [snd];
    (repeat split; [now exists 1 | cbn; now rewrite app_nil_r | constructor]).
Qed.

(** The creation path adds at most one PipelineRun, labelled for the
    Release. *)
Lemma createPath_grow (w : World) :
  exists created, length created <= 1 /\ runs_grow created w (createPath w).2.
Proof.
  unfold createPath, bind, ret.
  pose proof (getActive_grow w) as H1.
  destruct (getActiveReleasePlanAdmission w) as [[err|rpa] w1]; cbn [snd] in H1.
  { exists []. split; [cbn; lia|].
    apply (runs_grow_trans [] [] _ _ _ H1), markInvalidAndStop_grow. }
  pose proof (Get_grow (X:=ReleaseStrategy.t)
                {| key_Namespace := Namespace (ReleasePlanAdmission.meta rpa);
                   key_Name := ReleasePlanAdmission.ReleaseStrategy rpa |} w1) as H2.
  unfold getReleaseStrategy.
  destruct (Client.Get _ w1) as [[err|strategy] w2]; cbn [snd] in H2.
  { exists []. split; [cbn; lia|].
    apply (runs_grow_trans [] [] _ _ _ H1), (runs_grow_trans [] [] _ _ _ H2),
      markInvalidAndStop_grow. }
  pose proof (Get_grow (X:=EnterpriseContractPolicy.t)
                {| key_Namespace := Namespace (ReleaseStrategy.meta strategy);
                   key_Name := ReleaseStrategy.Policy strategy |} w2) as H3.
  unfold getEnterpriseContractPolicy.
  destruct (Client.Get _ w2) as [[err|policy] w3]; cbn [snd] in H3.
  { exists []. split; [cbn; lia|].
    apply (runs_grow_trans [] [] _ _ _ H1), (runs_grow_trans [] [] _ _ _ H2),
      (runs_grow_trans [] [] _ _ _ H3), markInvalidAndStop_grow. }
  pose proof (Get_grow (X:=Snapshot.t) (snapshotKey (release w3)) w3) as H4.
  unfold getSnapshot, bind, get_release. fold (snapshotKey (release w3)).
  destruct (Client.Get _ w3) as [[err|snap] w4]; cbn [snd] in H4.
  { exists []. split; [cbn; lia|].
    apply (runs_grow_trans [] [] _ _ _ H1), (runs_grow_trans [] [] _ _ _ H2),
      (runs_grow_trans [] [] _ _ _ H3), (runs_grow_trans [] [] _ _ _ H4),
      markInvalidAndStop_grow. }
  pose proof (createReleasePipelineRun_grow strategy policy snap w4) as H5.
  cbn zeta in H5.
  destruct (createReleasePipelineRun strategy policy snap w4) as [[err|pr] w5];
    cbn [fst snd] in H5.
  { exists []. split; [cbn; lia|].
    apply (runs_grow_trans [] [] _ _ _ H1), (runs_grow_trans [] [] _ _ _ H2),
      (runs_grow_trans [] [] _ _ _ H3), (runs_grow_trans [] [] _ _ _ H4), H5. }
  exists [pr]. split; [cbn; lia|].
  pose proof (registerReleaseStatusData_grow (Some pr) (Some strategy) w5) as H6.
  destruct (registerReleaseStatusData (Some pr) (Some strategy) w5) as [err w6].
  cbn [snd] in *.
  apply (runs_grow_trans [] [pr] _ _ _ H1), (runs_grow_trans [] [pr] _ _ _ H2),
    (runs_grow_trans [] [pr] _ _ _ H3), (runs_grow_trans [] [pr] _ _ _ H4).
  rewrite <- (app_nil_r [pr]). now apply (runs_grow_trans [pr] [] _ _ _ H5).
Qed.

(** [EnsureReleasePipelineRunExists] adds at most one PipelineRun, and none
    when the lookup, not answered not-found, matches one. *)
Lemma EnsureReleasePipelineRunExists_grow (w : World) :
  exists created,
    length created <= 1
    /\ runs_grow created w (EnsureReleasePipelineRunExists w).2
    /\ (no_notfound (faults w) = true -> labelled_runs w <> [] ->
        created = []
        /\ existsb (is_create KPipelineRun)
             (calls_since w (EnsureReleasePipelineRunExists w).2) = false).
Proof.
  pose proof (createPath_grow (pass_calls [lookupCall w] w))
    as (created & Hlen & Hgrow).
  assert (Hpath : runs_grow created w
                    (createPath (pass_calls [lookupCall w] w)).2).
  { apply (runs_grow_trans [] created _ _ _ (runs_grow_pass [lookupCall w] w)), Hgrow. }
  unfold EnsureReleasePipelineRunExists, bind, ret.
  rewrite getReleasePipelineRun_eq. fold (lookupCall w).
  destruct (next_fault w) as [e|] eqn:Hf.
  - destruct (IsNotFound e) eqn:Hnf; cbn [negb].
    + exists created. split; [exact Hlen|]. split; [exact Hpath|].
      intros Hno _. rewrite (no_notfound_next w e Hno Hf) in Hnf. discriminate.
    + exists []. split; [cbn; lia|]. split; [apply runs_grow_pass|].
      intros _ _. split; [reflexivity|]. cbn [snd]. now rewrite calls_since_pass.
  - destruct (head (labelled_runs w)) as [pr|] eqn:Hhead.
    + exists []. split; [cbn; lia|]. cbn [registerReleaseStatusData ret snd].
      split; [apply runs_grow_pass|]. intros _ _.
      split; [reflexivity|]. cbn [snd]. now rewrite calls_since_pass.
    + exists created. split; [exact Hlen|]. split; [exact Hpath|].
      intros _ Hne. destruct (labelled_runs w); [congruence|discriminate].
Qed.

End RunLemmas.

(** ** Idempotent creation of the binding *)

Section BindingLemmas.

Import Adapter Reconciler.

Lemma bindings_grow_refl (w : World) : bindings_grow [] w w.
Proof.
  repeat split; [now exists 0 | exists []; now rewrite app_nil_r
                | now rewrite app_nil_r].
Qed.

Lemma bindings_grow_pass (cs : list Call) (w : World) :
  bindings_grow [] w (pass_calls cs w).
Proof.
  repeat split; [now exists (length cs) | exists []; cbn; now rewrite app_nil_r
                | cbn; now rewrite app_nil_r].
Qed.

Lemma bindings_grow_trans (c1 c2 : list SnapshotEnvironmentBinding.t)
    (w1 w2 w3 : World) :
  bindings_grow c1 w1 w2 -> bindings_grow c2 w2 w3 ->
  bindings_grow (c1 ++ c2) w1 w3.
Proof.
  intros (Hm1 & Hp1 & Hs1 & [n1 Hf1] & Ha1 & Hb1 & He1 & [k1 Hk1] & Hc1)
         (Hm2 & Hp2 & Hs2 & [n2 Hf2] & Ha2 & Hb2 & He2 & [k2 Hk2] & Hc2).
  repeat split; try congruence.
  - exists (n1 + n2). rewrite Hf2, Hf1. now rewrite drop_drop.
  - exists (k1 ++ k2). rewrite Hk2, Hk1. now rewrite app_assoc.
  - rewrite Hc2, Hc1. now rewrite app_assoc.
Qed.

Lemma getActive_bindings (w : World) :
  bindings_grow [] w (getActiveReleasePlanAdmission w).2.
Proof.
  destruct (getActive_reads w) as (cs & -> & _). apply bindings_grow_pass.
Qed.

Lemma find_app_Some {A} (p : A -> bool) (l l' : list A) (x : A) :
  List.find p l = Some x -> List.find p (l ++ l') = Some x.
Proof.
  induction l as [|y l IH]; cbn; [discriminate|].
  destruct (p y); [trivial | exact IH].
Qed.

Lemma snapshot_of_grow (c : list SnapshotEnvironmentBinding.t) (w w' : World)
    (snap : Snapshot.t) :
  bindings_grow c w w' -> snapshot_of w = Some snap -> snapshot_of w' = Some snap.
Proof.
  intros (Hm & _ & Hs & _ & _ & _ & _ & [copies Hk] & _) Hsnap.
  unfold snapshot_of, snapshotKey in *. rewrite Hm, Hs, Hk.
  now apply find_app_Some.
Qed.

(** [getSnapshot] reads the snapshot of the Release. *)
Lemma getSnapshot_eq (w : World) :
  getSnapshot w
  = (match next_fault w with
     | Some e => inl e
     | None =>
         match snapshot_of w with
         | Some snap => inr snap
         | None => inl (NewNotFound KSnapshot (Release.Snapshot (release w)))
         end
     end, pass_calls [CallGet KSnapshot (snapshotKey (release w))] w).
Proof.
  unfold getSnapshot, bind, get_release. now rewrite Get_eq.
Qed.

(** A successful synchronisation has read the snapshot of the Release. *)
Lemma syncResources_spec (w : World) :
  bindings_grow [] w (syncResources w).2
  /\ ((syncResources w).1 = None -> is_Some (snapshot_of w)).
Proof.
  unfold syncResources, bind, ret.
  pose proof (getActive_bindings w) as H1.
  destruct (getActive_reads w) as (cs & Hw1 & _).
  destruct (getActiveReleasePlanAdmission w) as [[err|rpa] w1];
    cbn [fst snd] in *; [split; [exact H1|discriminate]|].
  rewrite getSnapshot_eq.
  assert (Hsnap : snapshot_of w1 = snapshot_of w) by now rewrite Hw1.
  destruct (next_fault w1).
  { split; [|discriminate].
    apply (bindings_grow_trans [] [] _ _ _ H1), bindings_grow_pass. }
  rewrite Hsnap. destruct (snapshot_of w) as [snap|].
  2:{ split; [|discriminate].
      apply (bindings_grow_trans [] [] _ _ _ H1), bindings_grow_pass. }
  split; [|eauto].
  apply (bindings_grow_trans [] [] _ _ _ H1).
  apply (bindings_grow_trans [] [] _ _ _
           (bindings_grow_pass [CallGet KSnapshot (snapshotKey (release w1))] w1)).
  rewrite SyncSnapshot_eq. cbn zeta.
  destruct (next_fault _); [apply bindings_grow_pass|].
  destruct (existsb _ _); [apply bindings_grow_pass|].
  repeat split; [now exists 1 | eexists; reflexivity | cbn; now rewrite app_nil_r].
Qed.

Lemma getSnapshotEnvironmentResources_spec (rpa : ReleasePlanAdmission.t)
    (w : World) :
  let out := getSnapshotEnvironmentResources rpa w in
  bindings_grow [] w out.2
  /\ (forall application components snap,
         out.1 = inr (application, components, snap) ->
         snapshot_of w = Some snap).
Proof.
  cbn zeta. unfold getSnapshotEnvironmentResources, bind, ret.
  unfold getApplication, getApplicationComponents.
  rewrite Get_eq.
  destruct (match next_fault w with Some e => inl e | None => _ end)
    as [err|application].
  { split; [apply bindings_grow_pass | discriminate]. }
  rewrite List_eq, pass_calls_app.
  destruct (next_fault _).
  { split; [apply bindings_grow_pass | discriminate]. }
  rewrite getSnapshot_eq, pass_calls_app.
  destruct (next_fault _).
  { split; [apply bindings_grow_pass | discriminate]. }
  change (snapshot_of (pass_calls _ w)) with (snapshot_of w).
  destruct (snapshot_of w) as [snap|].
  - split; [apply bindings_grow_pass|]. now intros ? ? ? [= _ _ <-].
  - split; [apply bindings_grow_pass| discriminate].
Qed.

(** What [createSnapshotEnvironmentBinding] adds to the cluster. *)
Lemma createSnapshotEnvironmentBinding_spec (environment : Environment.t)
    (rpa : ReleasePlanAdmission.t) (w : World) :
  let out := createSnapshotEnvironmentBinding environment rpa w in
  match out.1 with
  | inl _ => bindings_grow [] w out.2
  | inr b =>
      bindings_grow [b] w out.2
      /\ exists snap, snapshot_of w = Some snap /\ binds b environment snap
  end.
Proof.
  cbn zeta. unfold createSnapshotEnvironmentBinding, bind, ret, get_release.
  destruct (getSnapshotEnvironmentResources_spec rpa w) as [H1 Hsnap].
  destruct (getSnapshotEnvironmentResources rpa w)
    as [[err|[[application components] snap]] w1]; cbn [fst snd] in *;
    [exact H1|].
  specialize (Hsnap _ _ _ eq_refl).
  unfold SetControllerReference.
  destruct (bool_decide _); cbn [fst snd]; [|exact H1].
  rewrite CreateSnapshotEnvironmentBinding_eq.
  destruct (next_fault w1).
  { apply (bindings_grow_trans [] [] _ _ _ H1), bindings_grow_pass. }
  cbn zeta. destruct (existsb _ _); cbn [fst snd].
  { apply (bindings_grow_trans [] [] _ _ _ H1), bindings_grow_pass. }
  split.
  - apply (bindings_grow_trans [] [_] _ _ _ H1).
    repeat split; [now exists 1 | exists []; cbn; now rewrite app_nil_r].
  - exists snap. split; [exact Hsnap|].
    unfold binds. cbn. now rewrite assign_name_Namespace.
Qed.

(** The creation path of the binding adds at most one binding, bound to the
    environment and to the application of the Release's snapshot. *)
Lemma bindingCreatePath_spec (environment : Environment.t)
    (rpa : ReleasePlanAdmission.t) (w : World) :
  exists created,
    length created <= 1
    /\ bindings_grow created w (bindingCreatePath environment rpa w).2
    /\ Forall (fun b => exists snap,
                   snapshot_of w = Some snap /\ binds b environment snap)
         created.
Proof.
  unfold bindingCreatePath, bind, ret, get_release, modify_release.
  destruct (syncResources_spec w) as [H1 Hread].
  destruct (syncResources w) as [[err|] w1]; cbn [fst snd] in *.
  { exists []. split; [cbn; lia|]. split; [exact H1|constructor]. }
  destruct (Hread eq_refl) as [snap0 Hsnap0].
  pose proof (createSnapshotEnvironmentBinding_spec environment rpa w1) as H2.
  cbn zeta in H2.
  destruct (createSnapshotEnvironmentBinding environment rpa w1)
    as [[err|b] w2]; cbn [fst snd] in *.
  { exists []. split; [cbn; lia|]. split; [|constructor].
    apply (bindings_grow_trans [] [] _ _ _ H1 H2). }
  destruct H2 as [H2 (snap & Hsnap & Hbinds)].
  rewrite (snapshot_of_grow _ _ _ _ H1 Hsnap0) in Hsnap.
  injection Hsnap as <-.
  exists [b]. split; [cbn; lia|]. split.
  - apply (bindings_grow_trans [] [b] _ _ _ H1).
    rewrite <- (app_nil_r [b]). apply (bindings_grow_trans [b] [] _ _ _ H2).
    rewrite StatusPatch_eq.
    destruct (patch_error _); cbn [snd];
      (repeat split; [now exists 1 | exists []; cbn; now rewrite app_nil_r
                     | cbn; now rewrite app_nil_r]).
  - constructor; [|constructor]. eauto.
Qed.

End BindingLemmas.

Section BindingTrigger.

Import Adapter Reconciler.

Lemma no_notfound_pass (cs : list Call) (w : World) :
  no_notfound (faults w) = true -> no_notfound (faults (pass_calls cs w)) = true.
Proof. apply no_notfound_drop. Qed.

Lemma find_head_filter {A} (p : A -> bool) (l : list A) :
  List.find p l = head (List.filter p l).
Proof.
  induction l as [|x l IH]; cbn; [reflexivity|]. now destruct (p x).
Qed.

(** [getSnapshotEnvironmentBinding] in closed form. *)
Lemma getSnapshotEnvironmentBinding_eq (environment : Environment.t)
    (rpa : ReleasePlanAdmission.t) (w : World) :
  getSnapshotEnvironmentBinding environment rpa w
  = (match next_fault w with
     | Some e => inl e
     | None => inr (head (matching_bindings environment rpa (cluster w)))
     end,
     pass_calls
       [CallList KSnapshotEnvironmentBinding (bindingLookup environment)] w).
Proof.
  unfold getSnapshotEnvironmentBinding, bind, ret. rewrite List_eq.
  destruct (next_fault w); [reflexivity|].
  unfold matching_bindings. now rewrite find_head_filter.
Qed.

(** [EnsureSnapshotEnvironmentBindingExists] adds at most one binding, bound
    to the environment of the admission the Release resolves to and to the
    application of its snapshot, and none when a matching binding exists and
    the lookup is not answered not-found. *)
Lemma EnsureSnapshotEnvironmentBindingExists_spec (w : World) :
  exists created,
    length created <= 1
    /\ bindings_grow created w (EnsureSnapshotEnvironmentBindingExists w).2
    /\ Forall (bound_in w) created
    /\ (no_notfound (faults w) = true -> existing_binding w ->
        created = []
        /\ existsb (is_create KSnapshotEnvironmentBinding)
             (calls_since w (EnsureSnapshotEnvironmentBindingExists w).2)
           = false).
Proof.
  assert (Hquiet : forall (res : OperationResult) (cs : list Call),
             existsb (is_create KSnapshotEnvironmentBinding) cs = false ->
             exists created,
               length created <= 1
               /\ bindings_grow created w (res, pass_calls cs w).2
               /\ Forall (bound_in w) created
               /\ (no_notfound (faults w) = true -> existing_binding w ->
                   created = []
                   /\ existsb (is_create KSnapshotEnvironmentBinding)
                        (calls_since w (res, pass_calls cs w).2) = false)).
  { intros res cs Hcs. exists []. split; [cbn; lia|].
    split; [apply bindings_grow_pass|]. split; [constructor|].
    intros _ _. split; [reflexivity|]. cbn [snd].
    now rewrite calls_since_pass. }
  unfold EnsureSnapshotEnvironmentBindingExists, bind, ret, get_release.
  destruct (negb (Release.HasSucceeded (release w))
            || Release.HasBeenDeployed (release w)).
  { exists []. split; [cbn; lia|]. split; [apply bindings_grow_refl|].
    split; [constructor|]. intros _ _. split; [reflexivity|].
    unfold calls_since. cbn [snd]. now rewrite drop_all. }
  rewrite getActive_eq.
  destruct (next_fault w) eqn:Hf0; [now apply Hquiet|].
  destruct (plan_of w) as [releasePlan|] eqn:Hplan; [|now apply Hquiet].
  destruct (next_fault (pass_calls _ w)); [now apply Hquiet|].
  destruct (resolve releasePlan (cluster w)) as [err|rpa] eqn:Hres;
    [now apply Hquiet|].
  destruct (bool_decide (ReleasePlanAdmission.Environment rpa = EmptyString));
    [now apply Hquiet|].
  unfold getEnvironment. rewrite Get_eq, pass_calls_app.
  fold (environmentKey rpa).
  destruct (next_fault (pass_calls _ w)); [now apply Hquiet|].
  change (List.find (has_key (environmentKey rpa))
            (table (cluster (pass_calls (admissionCalls w releasePlan) w))))
    with (environment_of rpa (cluster w)).
  destruct (environment_of rpa (cluster w)) as [environment|] eqn:Henv;
    [|now apply Hquiet].
  rewrite getSnapshotEnvironmentBinding_eq, pass_calls_app.
  set (cs := (admissionCalls w releasePlan ++ _) ++ _).
  change (cluster (pass_calls _ w)) with (cluster w).
  assert (Hcreate :
            (exists e, next_fault (pass_calls
                                     (admissionCalls w releasePlan
                                      ++ [CallGet kind_of (environmentKey rpa)])
                                     w) = Some e /\ IsNotFound e = true)
            \/ matching_bindings environment rpa (cluster w) = [] ->
            exists created,
              length created <= 1
              /\ bindings_grow created w
                   (bindingCreatePath environment rpa (pass_calls cs w)).2
              /\ Forall (bound_in w) created
              /\ (no_notfound (faults w) = true -> existing_binding w ->
                  created = []
                  /\ existsb (is_create KSnapshotEnvironmentBinding)
                       (calls_since w
                          (bindingCreatePath environment rpa
                             (pass_calls cs w)).2) = false)).
  { intros Hwhy.
    destruct (bindingCreatePath_spec environment rpa (pass_calls cs w))
      as (created & Hlen & Hgrow & Hbound).
    exists created. split; [exact Hlen|]. split.
    { apply (bindings_grow_trans [] created _ _ _ (bindings_grow_pass cs w)),
        Hgrow. }
    split.
    { eapply Forall_impl; [exact Hbound|]. cbn beta.
      intros b (snap & Hsnap & Hb). exists releasePlan, rpa, environment, snap.
      repeat split; try assumption; apply Hb. }
    intros Hno (releasePlan' & rpa' & environment' & Hplan' & Hres' & Henv' & Hex).
    exfalso. rewrite Hplan in Hplan'. injection Hplan' as <-.
    rewrite Hres in Hres'. injection Hres' as <-.
    rewrite Henv in Henv'. injection Henv' as <-.
    destruct Hwhy as [(e & He & Hnf)|Hnone]; [|contradiction].
    rewrite (no_notfound_next _ e (no_notfound_pass _ w Hno) He) in Hnf.
    discriminate. }
  destruct (next_fault (pass_calls _ w)) as [e|] eqn:Hf.
  - destruct (IsNotFound e) eqn:Hnf; cbn [negb].
    + apply Hcreate. left. eauto.
    + now apply Hquiet.
  - destruct (matching_bindings environment rpa (cluster w)) as [|b bs] eqn:Hm;
      cbn [head].
    + apply Hcreate. now right.
    + now apply Hquiet.
Qed.

End BindingTrigger.

Section TwiceLemmas.

Import Adapter Reconciler.

Lemma resolve_application (releasePlan : ReleasePlan.t) (c : Cluster)
    (rpa : ReleasePlanAdmission.t) :
  resolve releasePlan c = inr rpa ->
  ReleasePlanAdmission.Application rpa = ReleasePlan.Application releasePlan.
Proof.
  unfold resolve. destruct (candidates releasePlan c) as [|first others] eqn:Hc;
    [discriminate|].
  destruct (opted_out first); [discriminate|].
  destruct others; [|discriminate]. intros [= <-].
  assert (Hin : In first (candidates releasePlan c)) by (rewrite Hc; now left).
  unfold candidates in Hin. apply filter_In in Hin as [_ Happ].
  now apply bool_decide_eq_true in Happ.
Qed.

(** After a pass that added the labelled PipelineRun [pr], the lookup of the
    next pass matches a PipelineRun. *)
Lemma labelled_after (w w' : World) (pr : PipelineRun.t) :
  runs_grow [pr] w w' -> labelled_runs w' <> [].
Proof.
  intros (Hm & _ & Hr & Hl). unfold labelled_runs, pipelineRunLookup.
  rewrite Hm, Hr, List.filter_app. apply Forall_inv in Hl.
  unfold pipelineRunLookup in Hl. cbn [List.filter]. rewrite Hl.
  now destruct (List.filter _ _).
Qed.

(** After a pass that added the binding [b], bound as the lookup expects, a
    matching binding exists for the next pass. *)
Lemma existing_after (w w' : World) (b : SnapshotEnvironmentBinding.t) :
  (forall releasePlan snap,
      plan_of w = Some releasePlan -> snapshot_of w = Some snap ->
      Snapshot.Application snap = ReleasePlan.Application releasePlan) ->
  bindings_grow [b] w w' -> bound_in w b -> existing_binding w'.
Proof.
  intros Happ (Hm & Hp & _ & _ & Hplans & Hadm & Henvs & _ & Hb)
         (releasePlan & rpa & environment & snap & Hplan & Hres & Henv & Hsnap
          & Hns & Hname & Hbapp).
  exists releasePlan, rpa, environment.
  split; [unfold plan_of, releasePlanKey in *; now rewrite Hm, Hp, Hplans|].
  split.
  { unfold resolve, candidates, list_objects in *. cbn [table] in *.
    unfold ReleasePlanAdmission_Object in *. cbn [table] in *.
    now rewrite Hadm. }
  split; [unfold environment_of in *; now rewrite Henvs|].
  unfold matching_bindings, list_objects. cbn [limit_of bindingLookup].
  cbn [table SnapshotEnvironmentBinding_Object]. rewrite Hb, !List.filter_app.
  assert (Hsel : forallb (selects b) (bindingLookup environment) = true).
  { cbn. rewrite Hns, Hname. now rewrite !bool_decide_eq_true_2. }
  cbn [List.filter]. rewrite Hsel. cbn [List.filter].
  rewrite Hbapp, (Happ _ _ Hplan Hsnap), <- (resolve_application _ _ _ Hres).
  rewrite bool_decide_eq_true_2 by reflexivity.
  now destruct (List.filter _ (List.filter _ _)).
Qed.

End TwiceLemmas.




(** ** The binding reference in the status *)

Section ReferenceLemmas.

Import Adapter Reconciler.

(** When the creation path of the binding added the binding [b], the status
    of the Release in memory holds its namespace, the separator and its
    name. *)
Lemma bindingCreatePath_records (environment : Environment.t)
    (rpa : ReleasePlanAdmission.t) (w : World)
    (b : SnapshotEnvironmentBinding.t) :
  snapshotEnvironmentBindings (cluster (bindingCreatePath environment rpa w).2)
  = snapshotEnvironmentBindings (cluster w) ++ [b] ->
  Release.SnapshotEnvironmentBinding
    (Release.status (release (bindingCreatePath environment rpa w).2))
  = Sprintf_namespaced (Namespace (SnapshotEnvironmentBinding.meta b))
      (Name (SnapshotEnvironmentBinding.meta b)).
Proof.
  unfold bindingCreatePath, bind, ret, get_release, modify_release.
  destruct (syncResources_spec w) as [H1 _].
  assert (Hb1 : snapshotEnvironmentBindings (cluster (syncResources w).2)
                = snapshotEnvironmentBindings (cluster w) ++ []) by apply H1.
  rewrite app_nil_r in Hb1.
  destruct (syncResources w) as [[err|] w1]; cbn [fst snd] in *.
  { rewrite Hb1. intros Habs. symmetry in Habs.
    rewrite <- (app_nil_r (snapshotEnvironmentBindings (cluster w))) in Habs at 2.
    apply app_inv_head in Habs. discriminate. }
  pose proof (createSnapshotEnvironmentBinding_spec environment rpa w1) as H2.
  cbn zeta in H2.
  destruct (createSnapshotEnvironmentBinding environment rpa w1)
    as [[err|b0] w2]; cbn [fst snd] in *.
  { assert (Hb2 : snapshotEnvironmentBindings (cluster w2)
                  = snapshotEnvironmentBindings (cluster w1) ++ []) by apply H2.
    rewrite app_nil_r, Hb1 in Hb2. rewrite Hb2. intros Habs. symmetry in Habs.
    rewrite <- (app_nil_r (snapshotEnvironmentBindings (cluster w))) in Habs at 2.
    apply app_inv_head in Habs. discriminate. }
  destruct H2 as [H2 _].
  assert (Hb2 : snapshotEnvironmentBindings (cluster w2)
                = snapshotEnvironmentBindings (cluster w1) ++ [b0]) by apply H2.
  rewrite Hb1 in Hb2. rewrite StatusPatch_eq.
  destruct (patch_error _); cbn [snd]; cbn; rewrite Hb2;
    intros [= <-]%app_inv_head; reflexivity.
Qed.

End ReferenceLemmas.

(** C9. Status round-trip: the creation path of the binding writes the
    reference of the binding it created into the status of the Release as
    namespace, separator, name; for a namespace and a name without the
    separator such a reference splits back into exactly that pair, so that
    [getSnapshotEnvironmentBindingFromReleaseStatus] fetches the binding under
    that very key; a stored string that does not split into two segments
    yields the "found invalid namespaced name" error, which is not a
    not-found error, without any client call. *)
Theorem C9_status_round_trip :
  (forall namespace name : string,
      Strings.free_of Separator namespace = true ->
      Strings.free_of Separator name = true ->
      Strings.Split (Sprintf_namespaced namespace name) Separator
      = [namespace; name])
  /\ (forall (w : World) (namespace name : string),
        Strings.free_of Separator namespace = true ->
        Strings.free_of Separator name = true ->
        Release.SnapshotEnvironmentBinding (Release.status (release w))
        = Sprintf_namespaced namespace name ->
        Adapter.getSnapshotEnvironmentBindingFromReleaseStatus w
        = Client.Get {| key_Namespace := namespace; key_Name := name |} w)
  /\ (forall (environment : Environment.t) (rpa : ReleasePlanAdmission.t)
             (w : World) (b : SnapshotEnvironmentBinding.t),
        let out := Adapter.bindingCreatePath environment rpa w in
        snapshotEnvironmentBindings (cluster out.2)
        = snapshotEnvironmentBindings (cluster w) ++ [b] ->
        Release.SnapshotEnvironmentBinding (Release.status (release out.2))
        = Sprintf_namespaced (Namespace (SnapshotEnvironmentBinding.meta b))
            (Name (SnapshotEnvironmentBinding.meta b))
        /\ (Strings.free_of Separator
              (Namespace (SnapshotEnvironmentBinding.meta b)) = true ->
            Strings.free_of Separator
              (Name (SnapshotEnvironmentBinding.meta b)) = true ->
            Adapter.getSnapshotEnvironmentBindingFromReleaseStatus out.2
            = Client.Get (key_of b) out.2))
  /\ (forall (w : World),
        let stored :=
          Release.SnapshotEnvironmentBinding (Release.status (release w)) in
        length (Strings.Split stored Separator) <> 2 ->
        Adapter.getSnapshotEnvironmentBindingFromReleaseStatus w
        = (inl (Errorf ("found invalid namespaced name of"
                        +:+ " SnapshotEnvironmentBinding in release status: '"
                        +:+ stored +:+ "'")), w)
        /\ forall e,
             (Adapter.getSnapshotEnvironmentBindingFromReleaseStatus w).1 = inl e ->
             IsNotFound e = false).
Proof.
  assert (Hsplit : forall namespace name : string,
             Strings.free_of Separator namespace = true ->
             Strings.free_of Separator name = true ->
             Strings.Split (Sprintf_namespaced namespace name) Separator
             = [namespace; name]).
  { intros namespace name Hns Hname. unfold Sprintf_namespaced.
    rewrite (Split_app_sep _ _ _ Hns). now rewrite (Split_free _ _ Hname). }
  assert (Hget : forall (w : World) (namespace name : string),
             Strings.free_of Separator namespace = true ->
             Strings.free_of Separator name = true ->
             Release.SnapshotEnvironmentBinding (Release.status (release w))
             = Sprintf_namespaced namespace name ->
             Adapter.getSnapshotEnvironmentBindingFromReleaseStatus w
             = Client.Get {| key_Namespace := namespace; key_Name := name |} w).
  { intros w namespace name Hns Hname Hstored.
    apply getStatusBinding_wellformed. rewrite Hstored. now apply Hsplit. }
  split; [exact Hsplit|]. split; [exact Hget|]. split.
  - intros environment rpa w b out Hcreated.
    pose proof (bindingCreatePath_records environment rpa w b Hcreated) as Hrec.
    split; [exact Hrec|]. intros Hns Hname.
    exact (Hget out.2 _ _ Hns Hname Hrec).
  - intros w stored Hlen.
    rewrite (getStatusBinding_malformed w Hlen). split; [reflexivity|].
    now intros e [= <-].
Qed.

(** C9 at work: the binding created for [w_deployable] is recorded as
    managed/prod-0, which parses back to (managed, prod-0), and the binding
    stored under that key is fetched. *)
Lemma C9_witness :
  Strings.Split (Sprintf_namespaced "managed" "prod-0") Separator
  = ["managed"; "prod-0"]
  /\ Release.SnapshotEnvironmentBinding
       (Release.status
          (release (Adapter.bindingCreatePath Fixtures.prod
                      (Fixtures.admission "rpa" None "prod")
                      Fixtures.w_deployable).2))
     = Sprintf_namespaced "managed" "prod-0"
  /\ (Adapter.getSnapshotEnvironmentBindingFromReleaseStatus Fixtures.w_tracked).1
     = inr (Fixtures.bound "prod-0" []).
Proof.
  split; [|split].
  - apply (proj1 C9_status_round_trip "managed" "prod-0" eq_refl eq_refl).
  - assert (Hcreated :
              snapshotEnvironmentBindings
                (cluster (Adapter.bindingCreatePath Fixtures.prod
                            (Fixtures.admission "rpa" None "prod")
                            Fixtures.w_deployable).2)
              = snapshotEnvironmentBindings (cluster Fixtures.w_deployable)
                ++ [Fixtures.created_binding]).
    { vm_compute. reflexivity. }
    exact (proj1 (proj1 (proj2 (proj2 C9_status_round_trip)) Fixtures.prod
                    (Fixtures.admission "rpa" None "prod")
                    Fixtures.w_deployable Fixtures.created_binding Hcreated)).
  - rewrite (proj1 (proj2 C9_status_round_trip) Fixtures.w_tracked
               "managed" "prod-0" eq_refl eq_refl eq_refl).
    vm_compute. reflexivity.
Defined.

(** * Further properties of the adapter *)

(** ** The admission resolver *)

(** X1. [getActiveReleasePlanAdmission] makes at most two calls, both reads:
    the Get of the ReleasePlan and the List of the admissions.  A failure of
    the Get, or a missing plan, is returned without listing; a failure of the
    List is returned as it is; otherwise the answer is the one of the
    one-pass rule [resolve] on the listed candidates. *)
Theorem X1_resolver_refines_rule (w : World) :
  let out := Adapter.getActiveReleasePlanAdmission w in
  let get := CallGet KReleasePlan (releasePlanKey (release w)) in
  (forall e, next_fault w = Some e -> out = (inl e, pass_calls [get] w))
  /\ (next_fault w = None -> plan_of w = None ->
      out = (inl (NewNotFound KReleasePlan (Release.ReleasePlan (release w))),
             pass_calls [get] w))
  /\ (forall releasePlan,
         next_fault w = None -> plan_of w = Some releasePlan ->
         out.2 = pass_calls
                   [get; CallList KReleasePlanAdmission
                           (admissionLookup releasePlan)] w
         /\ (forall e, next_fault (pass_calls [get] w) = Some e -> out.1 = inl e)
         /\ (next_fault (pass_calls [get] w) = None ->
             out.1 = resolve releasePlan (cluster w))).
Proof.
  cbn zeta. rewrite getActive_eq. split; [|split].
  - now intros e ->.
  - now intros -> ->.
  - intros releasePlan -> ->. cbn [fst snd]. split; [reflexivity|].
    split; [now intros e -> | now intros ->].
Qed.

(** X1 at work: the transport failure of the Get of the plan is returned
    without listing the admissions. *)
Lemma X1_witness :
  Adapter.getActiveReleasePlanAdmission
    (pass_calls [lookupCall Fixtures.w_transient] Fixtures.w_transient)
  = (inl (ClientFailure "dial tcp 10.0.0.1:443: connection refused"),
     pass_calls [CallGet KReleasePlan (releasePlanKey Fixtures.fresh)]
       (pass_calls [lookupCall Fixtures.w_transient] Fixtures.w_transient)).
Proof.
  exact (proj1 (X1_resolver_refines_rule
                  (pass_calls [lookupCall Fixtures.w_transient]
                     Fixtures.w_transient)) _ eq_refl).
Defined.

(** X2. The admission [getActiveReleasePlanAdmission] returns is stored in the
    cluster, lives in the target namespace of the plan, declares the plan's
    namespace as its origin and the plan's application as its application,
    and is the only listed candidate for that application. *)
Theorem X2_selected_admission_is_sound (w : World) (a : ReleasePlanAdmission.t) :
  (Adapter.getActiveReleasePlanAdmission w).1 = inr a ->
  exists releasePlan,
    plan_of w = Some releasePlan
    /\ In a (releasePlanAdmissions (cluster w))
    /\ Namespace (ReleasePlanAdmission.meta a) = ReleasePlan.Target releasePlan
    /\ ReleasePlanAdmission.Origin a = Namespace (ReleasePlan.meta releasePlan)
    /\ ReleasePlanAdmission.Application a = ReleasePlan.Application releasePlan
    /\ candidates releasePlan (cluster w) = [a].
Proof.
  rewrite getActive_eq.
  destruct (next_fault w); [discriminate|].
  destruct (plan_of w) as [releasePlan|]; [|discriminate]. cbn [fst].
  destruct (next_fault _); [discriminate|]. unfold resolve.
  destruct (candidates releasePlan (cluster w)) as [|first others] eqn:Hc;
    [discriminate|].
  destruct (opted_out first); [discriminate|].
  destruct others; [|discriminate]. intros [= <-].
  exists releasePlan. split; [reflexivity|].
  assert (Hin : In first (candidates releasePlan (cluster w)))
    by (rewrite Hc; now left).
  unfold candidates in Hin. apply filter_In in Hin as [Hlisted Happ].
  unfold list_objects in Hlisted. cbn [limit_of admissionLookup] in Hlisted.
  apply filter_In in Hlisted as [Hstored Hsel]. cbn in Hsel.
  apply andb_prop in Hsel as [Hns Hsel]. apply andb_prop in Hsel as [Horigin _].
  apply bool_decide_eq_true in Hns, Horigin, Happ.
  rewrite bool_decide_eq_true_2 in Horigin by reflexivity.
  injection Horigin as Horigin.
  repeat split; assumption.
Qed.

(** X2 at work on [w_enabled]. *)
Lemma X2_witness :
  exists releasePlan,
    plan_of Fixtures.w_enabled = Some releasePlan
    /\ In (Fixtures.admission "rpa" (Some "true") EmptyString)
         (releasePlanAdmissions (cluster Fixtures.w_enabled))
    /\ Namespace (ReleasePlanAdmission.meta
                    (Fixtures.admission "rpa" (Some "true") EmptyString))
       = ReleasePlan.Target releasePlan
    /\ ReleasePlanAdmission.Origin
         (Fixtures.admission "rpa" (Some "true") EmptyString)
       = Namespace (ReleasePlan.meta releasePlan)
    /\ ReleasePlanAdmission.Application
         (Fixtures.admission "rpa" (Some "true") EmptyString)
       = ReleasePlan.Application releasePlan
    /\ candidates releasePlan (cluster Fixtures.w_enabled)
       = [Fixtures.admission "rpa" (Some "true") EmptyString].
Proof.
  apply (X2_selected_admission_is_sound Fixtures.w_enabled). vm_compute.
  reflexivity.
Defined.

(** ** Triggering and tracking the PipelineRun *)

Section CalmLemmas.

Lemma calm_mono (m n : nat) (fs : list (option error)) :
  m <= n -> calm n fs = true -> calm m fs = true.
Proof.
  revert n fs. induction m as [|m IH]; intros n fs Hle; [reflexivity|].
  destruct n as [|n]; [lia|]. destruct fs as [|[e|] fs]; cbn; try congruence.
  apply IH. lia.
Qed.

(** Under a schedule that lets [n] calls through, the call that follows
    fewer than [n] calls does not fail. *)
Lemma calm_prefix (n : nat) (cs : list Call) (w : World) :
  calm n (faults w) = true -> length cs < n ->
  next_fault (pass_calls cs w) = None.
Proof.
  intros Hcalm Hlt. apply calm_after_calls.
  apply (calm_mono _ n); [lia | exact Hcalm].
Qed.

End CalmLemmas.

(** X3. When the label lookup goes through and matches a PipelineRun,
    [EnsureReleasePipelineRunExists] continues without registering anything:
    the lookup is its only call and the Release, its status included, stays
    as it is (no strategy was resolved in the pass). *)
Theorem X3_found_run_is_not_registered (w : World) (pr : PipelineRun.t)
    (others : list PipelineRun.t) :
  next_fault w = None ->
  labelled_runs w = pr :: others ->
  Adapter.EnsureReleasePipelineRunExists w
  = (Reconciler.ContinueProcessing, pass_calls [lookupCall w] w).
Proof.
  intros Hf Hruns.
  unfold Adapter.EnsureReleasePipelineRunExists, bind, ret.
  rewrite getReleasePipelineRun_eq, Hf, Hruns. reflexivity.
Qed.

(** X3 at work on [w_triggered]. *)
Lemma X3_witness :
  Adapter.EnsureReleasePipelineRunExists Fixtures.w_triggered
  = (Reconciler.ContinueProcessing,
     pass_calls [lookupCall Fixtures.w_triggered] Fixtures.w_triggered).
Proof.
  exact (X3_found_run_is_not_registered Fixtures.w_triggered
           (Fixtures.run "release-pipelinerun-0" None) [] eq_refl eq_refl).
Defined.

(** X4. When no PipelineRun carries the labels of the Release, the admission,
    its strategy, the policy and the snapshot resolve, no call fails and the
    generated name is free, [EnsureReleasePipelineRunExists] continues after
    exactly eight calls, the creation and the status patch last; one
    PipelineRun is added, in the namespace of the strategy, labelled with the
    name and the namespace of the Release and referring to the pipeline of
    the strategy; the status of the Release holds the reference of the
    PipelineRun, the reference of the strategy, the namespace of the
    PipelineRun as target and the time of the pass as start time. *)
Theorem X4_run_is_triggered (w : World) (releasePlan : ReleasePlan.t)
    (rpa : ReleasePlanAdmission.t) (strategy : ReleaseStrategy.t)
    (policy : EnterpriseContractPolicy.t) (snap : Snapshot.t) :
  labelled_runs w = [] ->
  calm 8 (faults w) = true ->
  plan_of w = Some releasePlan ->
  resolve releasePlan (cluster w) = inr rpa ->
  strategy_of rpa (cluster w) = Some strategy ->
  policy_of strategy (cluster w) = Some policy ->
  snapshot_of w = Some snap ->
  existsb
    (has_key
       {| key_Namespace := Namespace (ReleaseStrategy.meta strategy);
          key_Name := "release-pipelinerun-"
                      +:+ pretty (generation (cluster w)) |})
    (pipelineRuns (cluster w)) = false ->
  is_Some (stored_release w) ->
  let out := Adapter.EnsureReleasePipelineRunExists w in
  out.1 = Reconciler.ContinueProcessing
  /\ calls_since w out.2
     = [lookupCall w;
        CallGet KReleasePlan (releasePlanKey (release w));
        CallList KReleasePlanAdmission (admissionLookup releasePlan);
        CallGet KReleaseStrategy (strategyKey rpa);
        CallGet KEnterpriseContractPolicy (policyKey strategy);
        CallGet KSnapshot (snapshotKey (release w));
        CallCreate KPipelineRun;
        CallStatusPatch]
  /\ exists pr,
       pipelineRuns (cluster out.2) = pipelineRuns (cluster w) ++ [pr]
       /\ Namespace (PipelineRun.meta pr)
          = Namespace (ReleaseStrategy.meta strategy)
       /\ Labels (PipelineRun.meta pr) !! Tekton.ReleaseNameLabel
          = Some (Name (Release.meta (release w)))
       /\ Labels (PipelineRun.meta pr) !! Tekton.ReleaseNamespaceLabel
          = Some (Namespace (Release.meta (release w)))
       /\ PipelineRun.PipelineRef pr = ReleaseStrategy.Pipeline strategy
       /\ Release.ReleasePipelineRun (Release.status (release out.2))
          = Sprintf_namespaced (Namespace (PipelineRun.meta pr))
              (Name (PipelineRun.meta pr))
       /\ Release.ReleaseStrategy (Release.status (release out.2))
          = Sprintf_namespaced (Namespace (ReleaseStrategy.meta strategy))
              (Name (ReleaseStrategy.meta strategy))
       /\ Release.Target (Release.status (release out.2))
          = Namespace (PipelineRun.meta pr)
       /\ Release.StartTime (Release.status (release out.2)) = Some (clock w)
       /\ Release.meta (release out.2) = Release.meta (release w).
Proof.
  intros Hnone Hcalm Hplan Hres Hstrategy Hpolicy Hsnap Hfree Hstored.
  cbn zeta.
  rewrite (EnsureReleasePipelineRunExists_absent w)
    by (left; split; [apply (calm_next_fault 7), Hcalm | exact Hnone]).
  unfold Adapter.createPath, bind, ret.
  rewrite getActive_eq.
  rewrite (calm_prefix 8 [lookupCall w] w Hcalm) by (cbn; lia).
  change (plan_of (pass_calls [lookupCall w] w)) with (plan_of w).
  rewrite Hplan, pass_calls_app.
  rewrite (calm_prefix 8 _ w Hcalm) by (cbn; lia).
  change (cluster (pass_calls [lookupCall w] w)) with (cluster w).
  rewrite Hres, pass_calls_app.
  unfold Adapter.getReleaseStrategy. rewrite Get_eq, pass_calls_app.
  rewrite (calm_prefix 8 _ w Hcalm) by (cbn; lia).
  fold (strategyKey rpa).
  change (List.find (has_key (strategyKey rpa)) (table (cluster (pass_calls _ w))))
    with (strategy_of rpa (cluster w)).
  rewrite Hstrategy.
  unfold Adapter.getEnterpriseContractPolicy. rewrite Get_eq, pass_calls_app.
  rewrite (calm_prefix 8 _ w Hcalm) by (cbn; lia).
  fold (policyKey strategy).
  change (List.find (has_key (policyKey strategy))
            (table (cluster (pass_calls _ w))))
    with (policy_of strategy (cluster w)).
  rewrite Hpolicy.
  rewrite getSnapshot_eq, pass_calls_app.
  rewrite (calm_prefix 8 _ w Hcalm) by (cbn; lia).
  change (snapshot_of (pass_calls _ w)) with (snapshot_of w). rewrite Hsnap.
  unfold Adapter.createReleasePipelineRun, bind, get_release.
  rewrite CreatePipelineRun_eq, pass_calls_app.
  rewrite (calm_prefix 8 _ w Hcalm) by (cbn; lia).
  cbn zeta. cbn [release cluster pass_calls].
  set (manifest := Tekton.WithSnapshot snap _).
  assert (Hkey : key_of (set_meta (Client.assign_name (cluster w)
                                     (meta_of manifest)) manifest)
                 = {| key_Namespace := Namespace (ReleaseStrategy.meta strategy);
                      key_Name := "release-pipelinerun-"
                                  +:+ pretty (generation (cluster w)) |}).
  { reflexivity. }
  rewrite Hkey, Hfree. clear Hkey.
  unfold Adapter.registerReleaseStatusData, bind, ret, get_release,
    modify_release, Now.
  rewrite StatusPatch_eq.
  set (cs := ((((_ ++ _) ++ _) ++ _) ++ _) ++ _).
  match goal with
  | |- context [patch_error ?W] =>
      assert (Hpatch : patch_error W = None)
  end.
  { unfold patch_error.
    match goal with
    | |- context [next_fault ?W] =>
        change (next_fault W) with (next_fault (pass_calls cs w))
    end.
    rewrite (calm_prefix 8 cs w Hcalm) by (cbn; lia).
    apply existsb_find in Hstored. unfold stored_release in Hstored.
    match goal with
    | |- context [existsb ?p ?l] =>
        change (existsb p l)
          with (existsb (has_key (key_of (release w))) (releases (cluster w)))
    end.
    now rewrite Hstored. }
  rewrite Hpatch. cbn [fst snd].
  split; [reflexivity|]. split.
  { unfold calls_since. cbn [calls status_patched with_cluster with_release
                             pass_calls].
    rewrite <- app_assoc, drop_app_length. reflexivity. }
  eexists. split; [reflexivity|].
  subst manifest. cbn.
  rewrite assign_name_Labels, assign_name_Namespace. cbn.
  rewrite lookup_insert_eq, lookup_insert_ne by discriminate.
  rewrite lookup_insert_eq. repeat split.
Qed.

(** X4 at work on [w_ready]. *)
Lemma X4_witness :
  (Adapter.EnsureReleasePipelineRunExists Fixtures.w_ready).1
  = Reconciler.ContinueProcessing
  /\ length (calls_since Fixtures.w_ready
               (Adapter.EnsureReleasePipelineRunExists Fixtures.w_ready).2) = 8.
Proof.
  destruct (X4_run_is_triggered Fixtures.w_ready Fixtures.plan
              (Fixtures.admission "rpa" None EmptyString) Fixtures.strategy
              Fixtures.policy Fixtures.snap
              eq_refl eq_refl eq_refl eq_refl eq_refl eq_refl eq_refl eq_refl
              (ex_intro _ Fixtures.fresh eq_refl)) as (Hres & Hcalls & _).
  split; [exact Hres|]. now rewrite Hcalls.
Defined.

(** X5. [EnsureReleasePipelineStatusIsTracked] does nothing, not even a
    lookup, for a Release that has not started or is done; once past that
    guard every failure of the lookup, a not-found answer included, requeues
    with the error and leaves the Release as it is; and a PipelineRun that is
    not done leaves the Release as it is and lets the chain continue. *)
Theorem X5_tracking_waits (w : World) :
  let out := Adapter.EnsureReleasePipelineStatusIsTracked w in
  (Release.HasStarted (release w) = false \/ Release.IsDone (release w) = true ->
   out = (Reconciler.ContinueProcessing, w))
  /\ (Release.HasStarted (release w) = true ->
      Release.IsDone (release w) = false ->
      (forall e, next_fault w = Some e ->
                 out = (Reconciler.RequeueWithError e,
                        pass_calls [lookupCall w] w))
      /\ (forall pr others,
             next_fault w = None -> labelled_runs w = pr :: others ->
             PipelineRun.IsDone pr = false ->
             out = (Reconciler.ContinueProcessing,
                    pass_calls [lookupCall w] w))).
Proof.
  cbn zeta.
  unfold Adapter.EnsureReleasePipelineStatusIsTracked, bind, ret, get_release.
  split.
  - intros [-> | ->]; [reflexivity|].
    now destruct (negb (Release.HasStarted (release w))).
  - intros -> ->. cbn [negb orb]. rewrite getReleasePipelineRun_eq.
    fold (lookupCall w). split.
    + now intros e ->.
    + intros pr others -> -> Hpending. cbn [head].
      unfold Adapter.registerReleasePipelineRunStatus. now rewrite Hpending.
Qed.

(** X5 at work: a pending PipelineRun leaves the Release of [w_run_pending]
    alone. *)
Lemma X5_witness :
  Adapter.EnsureReleasePipelineStatusIsTracked Fixtures.w_run_pending
  = (Reconciler.ContinueProcessing,
     pass_calls [lookupCall Fixtures.w_run_pending] Fixtures.w_run_pending).
Proof.
  exact (proj2 (proj2 (X5_tracking_waits Fixtures.w_run_pending) eq_refl eq_refl)
           (Fixtures.run "release-pipelinerun-0" (Some (ConditionUnknown, "Running")))
           [] eq_refl eq_refl eq_refl).
Defined.

(** X6. For a started Release that is not done, when the lookup finds a
    PipelineRun that is done, [EnsureReleasePipelineStatusIsTracked] stamps
    the completion time with the time of the pass, marks the Release
    succeeded when the Succeeded condition of the PipelineRun is true and
    failed, with the pipeline-failed reason and the message of the condition,
    otherwise, and issues one status patch; the result is continue, or
    requeue with the error of the patch.  The Release is then done, so the
    operation invoked again makes no call and changes nothing. *)
Theorem X6_finished_run_is_registered (w : World) (pr : PipelineRun.t)
    (others : list PipelineRun.t) (st : ConditionStatus) (message : string) :
  Release.HasStarted (release w) = true ->
  Release.IsDone (release w) = false ->
  next_fault w = None ->
  labelled_runs w = pr :: others ->
  PipelineRun.Succeeded pr = Some (st, message) ->
  st <> ConditionUnknown ->
  let out := Adapter.EnsureReleasePipelineStatusIsTracked w in
  let stamped :=
    Release.with_status
      (Release.with_CompletionTime (Some (clock w)) (Release.status (release w)))
      (release w) in
  release out.2
  = (if bool_decide (st = ConditionTrue) then Release.MarkSucceeded stamped
     else Release.MarkFailed Release.ReleaseReasonPipelineFailed message stamped)
  /\ Release.CompletionTime (Release.status (release out.2)) = Some (clock w)
  /\ Release.HasSucceeded (release out.2) = bool_decide (st = ConditionTrue)
  /\ calls_since w out.2 = [lookupCall w; CallStatusPatch]
  /\ out.1 = Reconciler.RequeueOnErrorOrContinue
               (patch_error (pass_calls [lookupCall w] w))
  /\ Adapter.EnsureReleasePipelineStatusIsTracked out.2
     = (Reconciler.ContinueProcessing, out.2).
Proof.
  intros Hstarted Hdone Hf Hruns Hcond Hterminal. cbn zeta.
  set (stamped := Release.with_status _ (release w)).
  set (final := if bool_decide (st = ConditionTrue)
                then Release.MarkSucceeded stamped
                else Release.MarkFailed Release.ReleaseReasonPipelineFailed
                       message stamped).
  set (w1 := pass_calls [lookupCall w] w).
  assert (E : Adapter.EnsureReleasePipelineStatusIsTracked w
              = (Reconciler.RequeueOnErrorOrContinue (patch_error w1),
                 match patch_error w1 with
                 | None => status_patched (release w) (with_release final w1)
                 | Some _ => pass_calls [CallStatusPatch] (with_release final w1)
                 end)).
  { unfold Adapter.EnsureReleasePipelineStatusIsTracked, bind, ret, get_release.
    rewrite Hstarted, Hdone. cbn [negb orb].
    rewrite getReleasePipelineRun_eq, Hf, Hruns. cbn [head]. fold (lookupCall w).
    unfold Adapter.registerReleasePipelineRunStatus, PipelineRun.IsDone.
    rewrite Hcond. subst final.
    destruct st; try congruence;
      [rewrite bool_decide_eq_true_2 by reflexivity
      |rewrite bool_decide_eq_false_2 by discriminate];
      unfold bind, ret, get_release, modify_release, Now;
      rewrite StatusPatch_eq;
      match goal with
      | |- context [patch_error ?W] =>
          change (patch_error W) with (patch_error w1)
      end;
      now destruct (patch_error w1). }
  assert (Hfinished : Release.IsDone final = true
                      /\ Release.CompletionTime (Release.status final)
                         = Some (clock w)
                      /\ Release.HasSucceeded final
                         = bool_decide (st = ConditionTrue)).
  { subst final. unfold Release.IsDone, Release.HasSucceeded,
      Meta.IsStatusConditionTrue.
    destruct st; try congruence;
      [rewrite bool_decide_eq_true_2 by reflexivity
      |rewrite bool_decide_eq_false_2 by discriminate];
      unfold Release.MarkSucceeded, Release.MarkFailed,
        Release.setStatusCondition; cbn [Release.status Release.with_status
                                         Release.Conditions Release.with_Conditions
                                         Release.CompletionTime];
      match goal with
      | |- context [Meta.SetStatusCondition ?cs ?c] =>
          let H := fresh "H" in
          pose proof (find_set_condition cs c) as H; cbn [Type_] in H; rewrite H
      end; repeat split. }
  assert (Hrel : release (Adapter.EnsureReleasePipelineStatusIsTracked w).2
                 = final).
  { rewrite E. now destruct (patch_error w1). }
  destruct Hfinished as (Hisdone & Htime & Hsucc).
  split; [exact Hrel|]. rewrite Hrel.
  split; [exact Htime|]. split; [exact Hsucc|]. split.
  { rewrite E. unfold calls_since.
    destruct (patch_error w1); cbn; rewrite <- app_assoc;
      now rewrite drop_app_length. }
  split; [now rewrite E|].
  unfold Adapter.EnsureReleasePipelineStatusIsTracked at 1, bind, ret,
    get_release.
  rewrite Hrel, Hisdone. now destruct (negb _).
Qed.

(** X6 at work: a PipelineRun that failed with a message marks the Release
    of [w_run_finished] failed with that message. *)
Lemma X6_witness :
  Release.HasSucceeded
    (release (Adapter.EnsureReleasePipelineStatusIsTracked
                (Fixtures.w_run_finished ConditionFalse "task failed")).2)
  = false
  /\ Release.CompletionTime
       (Release.status
          (release (Adapter.EnsureReleasePipelineStatusIsTracked
                      (Fixtures.w_run_finished ConditionFalse "task failed")).2))
     = Some 7.
Proof.
  destruct (X6_finished_run_is_registered
              (Fixtures.w_run_finished ConditionFalse "task failed")
              (Fixtures.run "release-pipelinerun-0"
                 (Some (ConditionFalse, "task failed"))) []
              ConditionFalse "task failed"
              eq_refl eq_refl eq_refl eq_refl eq_refl ltac:(discriminate))
    as (_ & Htime & Hsucc & _).
  split; [exact Hsucc | exact Htime].
Defined.

(** ** Triggering and tracking the binding *)

(** X7. [EnsureSnapshotEnvironmentBindingExists] makes no call and changes
    nothing for a Release that has not succeeded or has been deployed; and
    for a Release past that guard whose admission declares no environment it
    continues after the two reads of the resolver, with no binding created
    and the Release and the cluster as they were. *)
Theorem X7_deployment_is_skipped (w : World) :
  let out := Adapter.EnsureSnapshotEnvironmentBindingExists w in
  (Release.HasSucceeded (release w) = false
   \/ Release.HasBeenDeployed (release w) = true ->
   out = (Reconciler.ContinueProcessing, w))
  /\ (forall rpa,
         Release.HasSucceeded (release w) = true ->
         Release.HasBeenDeployed (release w) = false ->
         (Adapter.getActiveReleasePlanAdmission w).1 = inr rpa ->
         ReleasePlanAdmission.Environment rpa = EmptyString ->
         out = (Reconciler.ContinueProcessing,
                (Adapter.getActiveReleasePlanAdmission w).2)
         /\ release out.2 = release w
         /\ cluster out.2 = cluster w
         /\ length (calls_since w out.2) = 2).
Proof.
  cbn zeta.
  unfold Adapter.EnsureSnapshotEnvironmentBindingExists, bind, ret, get_release.
  split.
  - intros [-> | ->]; [reflexivity|].
    now destruct (negb (Release.HasSucceeded (release w))).
  - intros rpa -> -> Hgot Henv. cbn [negb orb].
    pose proof (getActive_eq w) as Hclosed.
    destruct (Adapter.getActiveReleasePlanAdmission w) as [got w1].
    cbn [fst snd] in *. subst got. rewrite Henv.
    rewrite bool_decide_eq_true_2 by reflexivity.
    split; [reflexivity|]. cbn [snd].
    destruct (next_fault w); [now inversion Hclosed|].
    destruct (plan_of w) as [releasePlan|]; [|now inversion Hclosed].
    injection Hclosed as _ Hw1. subst w1. repeat split.
    now rewrite calls_since_pass.
Qed.

(** X7 at work on [w_no_environment]. *)
Lemma X7_witness :
  (Adapter.EnsureSnapshotEnvironmentBindingExists Fixtures.w_no_environment).1
  = Reconciler.ContinueProcessing
  /\ cluster
       (Adapter.EnsureSnapshotEnvironmentBindingExists
          Fixtures.w_no_environment).2
     = cluster Fixtures.w_no_environment.
Proof.
  destruct (proj2 (X7_deployment_is_skipped Fixtures.w_no_environment)
              (Fixtures.admission "rpa" None EmptyString)
              eq_refl eq_refl eq_refl eq_refl) as (E & _ & Hcluster & _).
  split; [now rewrite E | exact Hcluster].
Defined.

(** X8. Past its guard, [EnsureSnapshotEnvironmentBindingExists] requeues
    with the error when the admission does not resolve, whatever the error
    (the ambiguity and opt-out errors included), and when the environment the
    admission declares cannot be fetched; in both cases only reads were made,
    the Release is not marked invalid and nothing is created. *)
Theorem X8_deployment_resolution_requeues (w : World) :
  Release.HasSucceeded (release w) = true ->
  Release.HasBeenDeployed (release w) = false ->
  let out := Adapter.EnsureSnapshotEnvironmentBindingExists w in
  let admission := Adapter.getActiveReleasePlanAdmission w in
  (forall err, admission.1 = inl err ->
               out = (Reconciler.RequeueWithError err, admission.2))
  /\ (forall rpa err,
         admission.1 = inr rpa ->
         ReleasePlanAdmission.Environment rpa <> EmptyString ->
         (Adapter.getEnvironment rpa admission.2).1 = inl err ->
         out = (Reconciler.RequeueWithError err,
                (Adapter.getEnvironment rpa admission.2).2))
  /\ ((exists err, admission.1 = inl err)
      \/ (exists rpa err,
             admission.1 = inr rpa
             /\ ReleasePlanAdmission.Environment rpa <> EmptyString
             /\ (Adapter.getEnvironment rpa admission.2).1 = inl err) ->
      release out.2 = release w
      /\ cluster out.2 = cluster w
      /\ existsb is_write (calls_since w out.2) = false).
Proof.
  intros Hsucc Hdep. cbn zeta.
  assert (Hfirst : forall err,
             (Adapter.getActiveReleasePlanAdmission w).1 = inl err ->
             Adapter.EnsureSnapshotEnvironmentBindingExists w
             = (Reconciler.RequeueWithError err,
                (Adapter.getActiveReleasePlanAdmission w).2)).
  { intros err Hgot.
    unfold Adapter.EnsureSnapshotEnvironmentBindingExists, bind, ret,
      get_release.
    rewrite Hsucc, Hdep. cbn [negb orb].
    destruct (Adapter.getActiveReleasePlanAdmission w) as [got w1].
    cbn [fst snd] in *. now subst got. }
  assert (Hsecond : forall rpa err,
             (Adapter.getActiveReleasePlanAdmission w).1 = inr rpa ->
             ReleasePlanAdmission.Environment rpa <> EmptyString ->
             (Adapter.getEnvironment rpa
                (Adapter.getActiveReleasePlanAdmission w).2).1 = inl err ->
             Adapter.EnsureSnapshotEnvironmentBindingExists w
             = (Reconciler.RequeueWithError err,
                (Adapter.getEnvironment rpa
                   (Adapter.getActiveReleasePlanAdmission w).2).2)).
  { intros rpa err Hgot Henv Hfetch.
    unfold Adapter.EnsureSnapshotEnvironmentBindingExists, bind, ret,
      get_release.
    rewrite Hsucc, Hdep. cbn [negb orb].
    destruct (Adapter.getActiveReleasePlanAdmission w) as [got w1].
    cbn [fst snd] in *. subst got.
    rewrite (bool_decide_eq_false_2 _ Henv).
    destruct (Adapter.getEnvironment rpa w1) as [fetched w2].
    cbn [fst snd] in *. now subst fetched. }
  split; [exact Hfirst|]. split; [exact Hsecond|].
  destruct (getActive_reads w) as (cs & Hw1 & Hreads).
  intros [[err Hgot] | (rpa & err & Hgot & Henv & Hfetch)].
  - rewrite (Hfirst err Hgot), Hw1. cbn [snd]. repeat split.
    now rewrite calls_since_pass.
  - rewrite (Hsecond rpa err Hgot Henv Hfetch).
    unfold Adapter.getEnvironment. rewrite Get_eq, Hw1, pass_calls_app.
    cbn [snd]. repeat split. rewrite calls_since_pass, existsb_app, Hreads.
    reflexivity.
Qed.

(** X8 at work on [w_missing_environment]: the environment is not found and
    the operation requeues with the not-found error. *)
Lemma X8_witness :
  (Adapter.EnsureSnapshotEnvironmentBindingExists
     Fixtures.w_missing_environment).1
  = Reconciler.RequeueWithError (NewNotFound KEnvironment "staging")
  /\ release (Adapter.EnsureSnapshotEnvironmentBindingExists
                Fixtures.w_missing_environment).2
     = release Fixtures.w_missing_environment.
Proof.
  destruct (X8_deployment_resolution_requeues Fixtures.w_missing_environment
              eq_refl eq_refl) as (_ & Hsecond & Hsame).
  split.
  - rewrite (Hsecond (Fixtures.admission "rpa" None "staging")
               (NewNotFound KEnvironment "staging") eq_refl
               ltac:(discriminate) eq_refl).
    reflexivity.
  - apply Hsame. right.
    exists (Fixtures.admission "rpa" None "staging"),
      (NewNotFound KEnvironment "staging").
    split; [reflexivity|]. split; [discriminate | reflexivity].
Defined.

Ltac now_fails :=
  cbn [fst snd release cluster pass_calls snapshotEnvironmentBindings];
  repeat split; intros; solve [reflexivity | congruence | discriminate].

Section KeyLemmas.

Lemma find_has_key `{Object X} (key : NamespacedName) (l : list X) (x : X) :
  List.find (has_key key) l = Some x -> key_of x = key.
Proof.
  intros Hfind. apply find_some in Hfind as [_ Hkey].
  now apply bool_decide_eq_true in Hkey.
Qed.

End KeyLemmas.



(** X10. [EnsureSnapshotEnvironmentBindingIsTracked] makes no call and
    changes nothing when the Release has not succeeded, holds no binding
    reference, or has been deployed.  Past that guard, with a reference of
    two segments, a failure of the Get of the binding (a binding that is not
    found included) requeues with the error, and a binding without the
    AllComponentsDeployed condition lets the chain continue; in both cases
    the Get is the only call and the Release stays as it is. *)
Theorem X10_binding_tracking_waits (w : World) :
  let out := Adapter.EnsureSnapshotEnvironmentBindingIsTracked w in
  let stored := Release.SnapshotEnvironmentBinding (Release.status (release w)) in
  (Release.HasSucceeded (release w) = false
   \/ stored = EmptyString
   \/ Release.HasBeenDeployed (release w) = true ->
   out = (Reconciler.ContinueProcessing, w))
  /\ (forall namespace name,
         Release.HasSucceeded (release w) = true ->
         Release.HasBeenDeployed (release w) = false ->
         stored <> EmptyString ->
         Strings.Split stored Separator = [namespace; name] ->
         (forall e, next_fault w = Some e ->
                    out = (Reconciler.RequeueWithError e,
                           pass_calls [bindingCall namespace name] w))
         /\ (next_fault w = None ->
             binding_at namespace name (cluster w) = None ->
             out = (Reconciler.RequeueWithError
                      (NewNotFound KSnapshotEnvironmentBinding name),
                    pass_calls [bindingCall namespace name] w))
         /\ (forall b,
                next_fault w = None ->
                binding_at namespace name (cluster w) = Some b ->
                Meta.FindStatusCondition
                  (SnapshotEnvironmentBinding.ComponentDeploymentConditions b)
                  "AllComponentsDeployed" = None ->
                out = (Reconciler.ContinueProcessing,
                       pass_calls [bindingCall namespace name] w))).
Proof.
  cbn zeta.
  unfold Adapter.EnsureSnapshotEnvironmentBindingIsTracked, bind, ret,
    get_release.
  split.
  - intros [-> | [-> | ->]]; [reflexivity| |].
    + rewrite bool_decide_eq_true_2 by reflexivity.
      now destruct (negb (Release.HasSucceeded (release w))).
    + now destruct (negb _ || bool_decide _).
  - intros namespace name -> -> Hstored Hsplit.
    rewrite (bool_decide_eq_false_2 _ Hstored). cbn [negb orb].
    rewrite (getStatusBinding_wellformed w namespace name Hsplit), Get_eq.
    fold (bindingCall namespace name).
    change (List.find _ (table (cluster w)))
      with (binding_at namespace name (cluster w)).
    split; [now intros e ->|]. split; [now intros -> ->|].
    intros b -> -> Hnone. cbn [fst snd].
    unfold Adapter.registerGitOpsDeploymentStatus. now rewrite Hnone.
Qed.

(** X10 at work: the binding of [w_deploying] carries no condition yet. *)
Lemma X10_witness :
  Adapter.EnsureSnapshotEnvironmentBindingIsTracked (Fixtures.w_deploying [])
  = (Reconciler.ContinueProcessing,
     pass_calls [bindingCall "managed" "prod-0"] (Fixtures.w_deploying [])).
Proof.
  refine (proj2 (proj2 (proj2 (X10_binding_tracking_waits
                                 (Fixtures.w_deploying []))
                          "managed" "prod-0" eq_refl eq_refl _ eq_refl))
            (Fixtures.bound "prod-0" []) eq_refl eq_refl eq_refl).
  discriminate.
Defined.

(** X11. Past the guard, when the binding the reference names is fetched and
    carries the AllComponentsDeployed condition,
    [EnsureSnapshotEnvironmentBindingIsTracked] marks the Release deploying
    with the reason and the message of the condition when its status is
    unknown, and deployed with its status, reason and message otherwise, and
    issues one status patch; the result is continue, or requeue with the
    error of the patch.  Once the status is true the Release has been
    deployed: the two binding operations, invoked on the world that results,
    make no call and change nothing. *)
Theorem X11_deployment_is_registered (w : World) (namespace name : string)
    (b : SnapshotEnvironmentBinding.t) (condition : Condition) :
  Release.HasSucceeded (release w) = true ->
  Release.HasBeenDeployed (release w) = false ->
  Strings.Split
    (Release.SnapshotEnvironmentBinding (Release.status (release w))) Separator
  = [namespace; name] ->
  next_fault w = None ->
  binding_at namespace name (cluster w) = Some b ->
  Meta.FindStatusCondition
    (SnapshotEnvironmentBinding.ComponentDeploymentConditions b)
    "AllComponentsDeployed" = Some condition ->
  let out := Adapter.EnsureSnapshotEnvironmentBindingIsTracked w in
  release out.2
  = (if bool_decide (Status condition = ConditionUnknown)
     then Release.MarkDeploying (Reason condition) (Message condition) (release w)
     else Release.MarkDeployed (Status condition) (Reason condition)
            (Message condition) (release w))
  /\ calls_since w out.2 = [bindingCall namespace name; CallStatusPatch]
  /\ out.1 = Reconciler.RequeueOnErrorOrContinue
               (patch_error (pass_calls [bindingCall namespace name] w))
  /\ Release.HasBeenDeployed (release out.2)
     = bool_decide (Status condition = ConditionTrue)
  /\ (Status condition = ConditionTrue ->
      Adapter.EnsureSnapshotEnvironmentBindingExists out.2
      = (Reconciler.ContinueProcessing, out.2)
      /\ Adapter.EnsureSnapshotEnvironmentBindingIsTracked out.2
         = (Reconciler.ContinueProcessing, out.2)).
Proof.
  intros Hsucc Hdep Hsplit Hf Hbinding Hcond. cbn zeta.
  set (final := if bool_decide (Status condition = ConditionUnknown)
                then Release.MarkDeploying (Reason condition)
                       (Message condition) (release w)
                else Release.MarkDeployed (Status condition) (Reason condition)
                       (Message condition) (release w)).
  set (w1 := pass_calls [bindingCall namespace name] w).
  assert (Hstored : Release.SnapshotEnvironmentBinding
                      (Release.status (release w)) <> EmptyString).
  { intros Hempty. rewrite Hempty in Hsplit. discriminate. }
  assert (E : Adapter.EnsureSnapshotEnvironmentBindingIsTracked w
              = (Reconciler.RequeueOnErrorOrContinue (patch_error w1),
                 match patch_error w1 with
                 | None => status_patched (release w) (with_release final w1)
                 | Some _ => pass_calls [CallStatusPatch] (with_release final w1)
                 end)).
  { unfold Adapter.EnsureSnapshotEnvironmentBindingIsTracked, bind, ret,
      get_release.
    rewrite Hsucc, Hdep, (bool_decide_eq_false_2 _ Hstored). cbn [negb orb].
    rewrite (getStatusBinding_wellformed w namespace name Hsplit), Get_eq, Hf.
    fold (bindingCall namespace name). fold w1.
    change (List.find _ (table (cluster w)))
      with (binding_at namespace name (cluster w)).
    rewrite Hbinding.
    unfold Adapter.registerGitOpsDeploymentStatus. rewrite Hcond.
    unfold bind, ret, get_release, modify_release. rewrite StatusPatch_eq.
    subst final.
    destruct (bool_decide (Status condition = ConditionUnknown));
      match goal with
      | |- context [patch_error ?W] =>
          change (patch_error W) with (patch_error w1)
      end;
      now destruct (patch_error w1). }
  assert (Hrel : release (Adapter.EnsureSnapshotEnvironmentBindingIsTracked w).2
                 = final).
  { rewrite E. now destruct (patch_error w1). }
  assert (Hdeployed : Release.HasBeenDeployed final
                      = bool_decide (Status condition = ConditionTrue)).
  { subst final. unfold Release.HasBeenDeployed, Meta.IsStatusConditionTrue.
    destruct (Status condition);
      [rewrite (bool_decide_eq_false_2 (ConditionTrue = ConditionUnknown))
         by discriminate
      |rewrite (bool_decide_eq_false_2 (ConditionFalse = ConditionUnknown))
         by discriminate
      |rewrite (bool_decide_eq_true_2 (ConditionUnknown = ConditionUnknown))
         by reflexivity];
      unfold Release.MarkDeployed, Release.MarkDeploying,
        Release.setDeploymentCondition;
      cbn [Release.status Release.with_status Release.Conditions
           Release.with_Conditions];
      match goal with
      | |- context [Meta.SetStatusCondition ?cs ?c] =>
          let H := fresh "H" in
          pose proof (find_set_condition cs c) as H; cbn [Type_] in H; rewrite H
      end; reflexivity. }
  split; [exact Hrel|]. split.
  { rewrite E. unfold calls_since.
    destruct (patch_error w1); cbn; rewrite <- app_assoc;
      now rewrite drop_app_length. }
  split; [now rewrite E|]. rewrite Hrel. split; [exact Hdeployed|].
  intros Htrue. rewrite Htrue, bool_decide_eq_true_2 in Hdeployed by reflexivity.
  split.
  - unfold Adapter.EnsureSnapshotEnvironmentBindingExists, bind, ret,
      get_release.
    rewrite Hrel, Hdeployed. now destruct (negb _).
  - unfold Adapter.EnsureSnapshotEnvironmentBindingIsTracked at 1, bind, ret,
      get_release.
    rewrite Hrel, Hdeployed. now destruct (negb _ || bool_decide _).
Qed.

(** X11 at work: the binding of the Release reports all components deployed,
    and the Release has been deployed. *)
Lemma X11_witness :
  Release.HasBeenDeployed
    (release (Adapter.EnsureSnapshotEnvironmentBindingIsTracked
                (Fixtures.w_deploying [Fixtures.all_deployed ConditionTrue])).2)
  = true
  /\ (Adapter.EnsureSnapshotEnvironmentBindingIsTracked
        (Fixtures.w_deploying [Fixtures.all_deployed ConditionTrue])).1
     = Reconciler.ContinueProcessing.
Proof.
  destruct (X11_deployment_is_registered
              (Fixtures.w_deploying [Fixtures.all_deployed ConditionTrue])
              "managed" "prod-0"
              (Fixtures.bound "prod-0" [Fixtures.all_deployed ConditionTrue])
              (Fixtures.all_deployed ConditionTrue)
              eq_refl eq_refl eq_refl eq_refl eq_refl eq_refl)
    as (_ & _ & Hres & Hdeployed & _).
  split; [exact Hdeployed|]. rewrite Hres. reflexivity.
Defined.

(** ** Finalizers, once more *)

(** X12. After [EnsureFinalizerIsAdded] the Release in memory carries the
    finalizer whatever the patch answered, so that the operation invoked
    again on the same adapter makes no call and continues: a patch that
    failed is not sent again within the pass. *)
Theorem X12_finalizer_added_once (w : World) :
  let out := Adapter.EnsureFinalizerIsAdded w in
  Meta.ContainsFinalizer (Release.meta (release out.2)) Adapter.finalizerName
  = true
  /\ length (calls_since w out.2) <= 1
  /\ Adapter.EnsureFinalizerIsAdded out.2
     = (Reconciler.ContinueProcessing, out.2).
Proof.
  cbn zeta.
  assert (Hnoop : forall w',
             Meta.ContainsFinalizer (Release.meta (release w'))
               Adapter.finalizerName = true ->
             Adapter.EnsureFinalizerIsAdded w'
             = (Reconciler.ContinueProcessing, w')).
  { intros w' Htoken.
    unfold Adapter.EnsureFinalizerIsAdded, bind, ret, get_release.
    unfold Meta.ContainsFinalizer in Htoken. now rewrite Htoken. }
  destruct (Meta.ContainsFinalizer (Release.meta (release w))
              Adapter.finalizerName) eqn:Htoken.
  - rewrite (Hnoop w Htoken). cbn [snd]. split; [exact Htoken|].
    split; [|now apply Hnoop].
    unfold calls_since. rewrite drop_all. cbn. lia.
  - assert (Hadded : Meta.ContainsFinalizer
                       (Release.meta
                          (release (Adapter.EnsureFinalizerIsAdded w).2))
                       Adapter.finalizerName = true
                     /\ length (calls_since w (Adapter.EnsureFinalizerIsAdded w).2)
                        <= 1).
    { unfold Adapter.EnsureFinalizerIsAdded, bind, ret, get_release,
        modify_release.
      pose proof Htoken as Hfound. unfold Meta.ContainsFinalizer in Hfound.
      rewrite Hfound. cbn [negb]. rewrite Patch_eq.
      unfold Meta.AddFinalizer. rewrite Htoken.
      destruct (patch_error _); cbn [snd]; unfold calls_since; cbn;
        rewrite drop_app_length; (split; [|cbn; lia]);
        unfold Meta.ContainsFinalizer; cbn; rewrite existsb_app; cbn;
        rewrite bool_decide_eq_true_2 by reflexivity;
        now rewrite orb_true_r. }
    destruct Hadded as [Hadded Hcalls].
    split; [exact Hadded|]. split; [exact Hcalls | now apply Hnoop].
Qed.

(** X13. [EnsureFinalizersAreCalled] deletes nothing but the PipelineRun
    that its lookup returned: every other PipelineRun of the cluster, a
    second one carrying the labels of the Release included, is still there
    afterwards. *)
Theorem X13_finalization_deletes_one (w : World) (pr : PipelineRun.t) :
  In pr (pipelineRuns (cluster w)) ->
  (forall found, head (labelled_runs w) = Some found ->
                 key_of pr <> key_of found) ->
  In pr (pipelineRuns (cluster (Adapter.EnsureFinalizersAreCalled w).2)).
Proof.
  intros Hin Hother. rewrite EnsureFinalizersAreCalled_eq.
  assert (Hdrop : forall w2,
             In pr (pipelineRuns (cluster w2)) ->
             In pr (pipelineRuns (cluster (dropFinalizer w2).2))).
  { intros w2 Hin2.
    destruct (dropFinalizer_spec w2) as (_ & _ & _ & Hruns & _).
    now rewrite Hruns. }
  destruct (DeletionTimestamp _); [|exact Hin].
  destruct (Meta.ContainsFinalizer _ _); [|exact Hin]. cbn zeta.
  destruct (next_fault w); [exact Hin|].
  destruct (head (labelled_runs w)) as [found|]; [|now apply Hdrop].
  specialize (Hother found eq_refl).
  rewrite DeletePipelineRun_eq.
  destruct (next_fault _) as [e|]; cbn [fst snd].
  { destruct (IsNotFound e); cbn [negb snd]; [now apply Hdrop | exact Hin]. }
  destruct (existsb _ _); cbn [fst snd]; apply Hdrop; [|exact Hin].
  cbn. apply filter_In. split; [exact Hin|].
  unfold has_key. now rewrite bool_decide_eq_false_2.
Qed.

(** X13 at work on [w_deleting_two]: the second labelled PipelineRun outlives
    the finalization of the Release. *)
Lemma X13_witness :
  (Adapter.EnsureFinalizersAreCalled Fixtures.w_deleting_two).1
  = Reconciler.Requeue
  /\ In (Fixtures.run "release-pipelinerun-1" None)
       (pipelineRuns
          (cluster (Adapter.EnsureFinalizersAreCalled
                      Fixtures.w_deleting_two).2)).
Proof.
  split; [reflexivity|].
  apply (X13_finalization_deletes_one Fixtures.w_deleting_two).
  - right. now left.
  - intros found [= <-]. discriminate.
Defined.

(** ** The helpers *)

Section SplitLemmas.

Import Strings.

Lemma Split_length (s : string) (sep : ascii) :
  length (Split s sep) = S (occurrences sep s).
Proof.
  induction s as [|c s IH]; cbn; [reflexivity|].
  destruct (Ascii.eqb c sep); cbn; [now rewrite IH|].
  destruct (Split s sep); cbn in *; [discriminate | exact IH].
Qed.

Lemma occurrences_free (s : string) (sep : ascii) :
  occurrences sep s = 0 -> free_of sep s = true.
Proof.
  induction s as [|c s IH]; cbn; [reflexivity|].
  destruct (Ascii.eqb c sep); [discriminate | exact IH].
Qed.

(** A string that splits into two segments is the first segment, the
    separator and the second segment, and neither segment holds the
    separator. *)
Lemma Split_two (s a b : string) (sep : ascii) :
  Split s sep = [a; b] ->
  s = a +:+ String sep b /\ free_of sep a = true /\ free_of sep b = true.
Proof.
  revert a. induction s as [|c s IH]; intros a; cbn; [discriminate|].
  destruct (Ascii.eqb c sep) eqn:Ec.
  - intros [= <- Hrest]. apply Ascii.eqb_eq in Ec as ->.
    assert (Hfree : occurrences sep s = 0).
    { pose proof (Split_length s sep) as Hlen. rewrite Hrest in Hlen.
      cbn in Hlen. lia. }
    assert (Hb : free_of sep s = true /\ s = b).
    { pose proof (occurrences_free s sep Hfree) as Hf. split; [exact Hf|].
      rewrite (Split_free s sep Hf) in Hrest. now injection Hrest. }
    destruct Hb as [Hb <-]. repeat split. exact Hb.
  - destruct (Split s sep) as [|seg segs] eqn:Hs; [discriminate|].
    intros [= <- ->]. destruct (IH seg eq_refl) as (-> & Hseg & Hb).
    cbn. rewrite Ec, Hseg. repeat split. exact Hb.
Qed.

End SplitLemmas.

(** X14. [getSnapshotEnvironmentBindingFromReleaseStatus] fetches a binding
    exactly when the stored reference holds one separator: the reference is
    then a namespace, the separator and a name, neither of which holds the
    separator (either may be empty), and the Get is issued under that pair;
    with no separator, the empty reference included, or with two or more,
    it answers the parse error without a call. *)
Theorem X14_reference_has_one_separator (w : World) :
  let stored := Release.SnapshotEnvironmentBinding (Release.status (release w)) in
  (occurrences Separator stored = 1 ->
   exists namespace name,
     stored = Sprintf_namespaced namespace name
     /\ Strings.free_of Separator namespace = true
     /\ Strings.free_of Separator name = true
     /\ Adapter.getSnapshotEnvironmentBindingFromReleaseStatus w
        = Client.Get {| key_Namespace := namespace; key_Name := name |} w)
  /\ (occurrences Separator stored <> 1 ->
      Adapter.getSnapshotEnvironmentBindingFromReleaseStatus w
      = (inl (Adapter.invalid_namespaced_name stored), w)).
Proof.
  cbn zeta. split.
  - intros Hone.
    pose proof (Split_length
                  (Release.SnapshotEnvironmentBinding
                     (Release.status (release w))) Separator) as Hlen.
    rewrite Hone in Hlen.
    destruct (Strings.Split _ Separator) as [|namespace [|name [|x l]]] eqn:Hs;
      try discriminate.
    destruct (Split_two _ _ _ _ Hs) as (Hstored & Hns & Hname).
    exists namespace, name. repeat split; try assumption.
    now apply getStatusBinding_wellformed.
  - intros Hother. apply getStatusBinding_malformed.
    rewrite Split_length. lia.
Qed.

(** X14 at work: the reference /prod-0 is accepted, with an empty
    namespace. *)
Lemma X14_witness :
  exists namespace name,
    "/prod-0" = Sprintf_namespaced namespace name
    /\ Strings.free_of Separator namespace = true
    /\ Strings.free_of Separator name = true
    /\ Adapter.getSnapshotEnvironmentBindingFromReleaseStatus
         Fixtures.w_bare_reference
       = Client.Get {| key_Namespace := namespace; key_Name := name |}
           Fixtures.w_bare_reference.
Proof.
  exact (proj1 (X14_reference_has_one_separator Fixtures.w_bare_reference)
           eq_refl).
Defined.

(** X15. [syncResources] synchronises nothing unless the admission resolves
    and the snapshot of the Release is fetched; the one synchronisation it
    then asks for is that of this snapshot into the namespace of the
    admission, which is the target namespace of the plan. *)
Theorem X15_sync_goes_to_target (w : World) (snapshot target : string) :
  In (CallSyncSnapshot snapshot target)
    (calls_since w (Adapter.syncResources w).2) ->
  exists releasePlan rpa snap,
    plan_of w = Some releasePlan
    /\ resolve releasePlan (cluster w) = inr rpa
    /\ snapshot_of w = Some snap
    /\ snapshot = Name (Snapshot.meta snap)
    /\ target = Namespace (ReleasePlanAdmission.meta rpa)
    /\ target = ReleasePlan.Target releasePlan.
Proof.
  unfold Adapter.syncResources, bind, ret.
  rewrite getActive_eq.
  assert (Hreads : forall cs,
             existsb is_write cs = false ->
             In (CallSyncSnapshot snapshot target)
               (calls_since w (pass_calls cs w)) -> False).
  { intros cs Hcs. rewrite calls_since_pass. intros Hin.
    apply not_true_iff_false in Hcs. apply Hcs, existsb_exists.
    now exists (CallSyncSnapshot snapshot target). }
  destruct (next_fault w); [intros Hin; now apply Hreads in Hin|].
  destruct (plan_of w) as [releasePlan|]; [|intros Hin; now apply Hreads in Hin].
  destruct (next_fault _); [intros Hin; now apply Hreads in Hin|].
  destruct (resolve releasePlan (cluster w)) as [err|rpa] eqn:Hres;
    [intros Hin; now apply Hreads in Hin|].
  rewrite getSnapshot_eq, pass_calls_app.
  destruct (next_fault _); [intros Hin; now apply Hreads in Hin|].
  change (snapshot_of (pass_calls _ w)) with (snapshot_of w).
  destruct (snapshot_of w) as [snap|] eqn:Hsnap;
    [|intros Hin; now apply Hreads in Hin].
  rewrite SyncSnapshot_eq. cbn zeta.
  assert (Hcalls : forall w',
             calls w' = calls w
                        ++ (admissionCalls w releasePlan
                            ++ [CallGet KSnapshot (snapshotKey (release w))])
                        ++ [CallSyncSnapshot (Name (Snapshot.meta snap))
                              (Namespace (ReleasePlanAdmission.meta rpa))] ->
             In (CallSyncSnapshot snapshot target) (calls_since w w') ->
             snapshot = Name (Snapshot.meta snap)
             /\ target = Namespace (ReleasePlanAdmission.meta rpa)).
  { intros w' Hc. unfold calls_since. rewrite Hc, drop_app_length. cbn.
    intros [H|[H|[H|[H|[]]]]]; try discriminate. now injection H as <- <-. }
  intros Hin.
  assert (Hwhat : snapshot = Name (Snapshot.meta snap)
                  /\ target = Namespace (ReleasePlanAdmission.meta rpa)).
  { destruct (next_fault _); [|destruct (existsb _ _)];
      (eapply Hcalls; [|exact Hin]); cbn; now rewrite <- !app_assoc. }
  destruct Hwhat as [-> ->].
  exists releasePlan, rpa, snap. repeat split; try assumption.
  unfold resolve in Hres.
  destruct (candidates releasePlan (cluster w)) as [|first others] eqn:Hc;
    [discriminate|].
  destruct (opted_out first); [discriminate|].
  destruct others; [|discriminate]. injection Hres as <-.
  assert (Hfirst : In first (candidates releasePlan (cluster w)))
    by (rewrite Hc; now left).
  unfold candidates in Hfirst. apply filter_In in Hfirst as [Hlisted _].
  unfold list_objects in Hlisted. cbn [limit_of admissionLookup] in Hlisted.
  apply filter_In in Hlisted as [_ Hsel]. cbn in Hsel.
  apply andb_prop in Hsel as [Hns _]. now apply bool_decide_eq_true in Hns.
Qed.

(** X15 at work on [w_deployable]: snapshot snap goes to namespace managed. *)
Lemma X15_witness :
  exists releasePlan rpa snap,
    plan_of Fixtures.w_deployable = Some releasePlan
    /\ resolve releasePlan (cluster Fixtures.w_deployable) = inr rpa
    /\ snapshot_of Fixtures.w_deployable = Some snap
    /\ "snap" = Name (Snapshot.meta snap)
    /\ "managed" = Namespace (ReleasePlanAdmission.meta rpa)
    /\ "managed" = ReleasePlan.Target releasePlan.
Proof.
  apply (X15_sync_goes_to_target Fixtures.w_deployable "snap" "managed").
  vm_compute. right. right. right. now left.
Defined.

(** X16. [getSnapshotEnvironmentBinding] makes one List call.  The binding
    it returns is stored in the cluster, in the namespace of the environment,
    for that environment and for the application of the admission; when it
    returns none, no stored binding has these three properties. *)
Theorem X16_binding_lookup (environment : Environment.t)
    (rpa : ReleasePlanAdmission.t) (w : World) :
  let out := Adapter.getSnapshotEnvironmentBinding environment rpa w in
  let matches b :=
    Namespace (SnapshotEnvironmentBinding.meta b)
    = Namespace (Environment.meta environment)
    /\ SnapshotEnvironmentBinding.Environment b
       = Name (Environment.meta environment)
    /\ SnapshotEnvironmentBinding.Application b
       = ReleasePlanAdmission.Application rpa in
  out.2 = pass_calls
            [CallList KSnapshotEnvironmentBinding
               (Adapter.bindingLookup environment)] w
  /\ (forall e, next_fault w = Some e -> out.1 = inl e)
  /\ (forall b, out.1 = inr (Some b) ->
                In b (snapshotEnvironmentBindings (cluster w)) /\ matches b)
  /\ (out.1 = inr None ->
      forall b, In b (snapshotEnvironmentBindings (cluster w)) -> ~ matches b).
Proof.
  cbn zeta. rewrite getSnapshotEnvironmentBinding_eq. cbn [fst snd].
  split; [reflexivity|]. split; [now intros e ->|].
  assert (Hiff : forall b,
             In b (matching_bindings environment rpa (cluster w))
             <-> In b (snapshotEnvironmentBindings (cluster w))
                 /\ Namespace (SnapshotEnvironmentBinding.meta b)
                    = Namespace (Environment.meta environment)
                 /\ SnapshotEnvironmentBinding.Environment b
                    = Name (Environment.meta environment)
                 /\ SnapshotEnvironmentBinding.Application b
                    = ReleasePlanAdmission.Application rpa).
  { intros b. unfold matching_bindings, list_objects.
    cbn [limit_of Adapter.bindingLookup]. rewrite !filter_In. cbn.
    rewrite bool_decide_eq_true. rewrite !andb_true_iff, !bool_decide_eq_true.
    rewrite (bool_decide_eq_true_2 ("spec.environment" = "spec.environment"))
      by reflexivity.
    split.
    - intros [[Hin [Hns [Henv _]]] Happ]. injection Henv as Henv. tauto.
    - intros (Hin & Hns & Henv & Happ). rewrite Henv. tauto. }
  destruct (next_fault w); [split; intros; discriminate|].
  destruct (matching_bindings environment rpa (cluster w)) as [|first rest]
    eqn:Hm; cbn [head]; split; try (intros; discriminate).
  - intros _ b Hin Hmatches.
    assert (Hb : In b []) by (apply Hiff; tauto). contradiction.
  - intros b [= <-]. apply Hiff. now left.
Qed.

(** X16 at work on [w_bound]: the stored binding prod-0 is the one found. *)
Lemma X16_witness :
  In (Fixtures.bound "prod-0" [])
    (snapshotEnvironmentBindings (cluster Fixtures.w_bound))
  /\ SnapshotEnvironmentBinding.Application (Fixtures.bound "prod-0" [])
     = "app".
Proof.
  destruct (proj1 (proj2 (proj2 (X16_binding_lookup Fixtures.prod
                                   (Fixtures.admission "rpa" None "prod")
                                   Fixtures.w_bound)))
              (Fixtures.bound "prod-0" []) eq_refl)
    as (Hin & _ & _ & Happ).
  split; [exact Hin | exact Happ].
Defined.

(** ** The gate and the trigger, one after the other *)

Section ChainLemmas.

Import Reconciler.

Lemma run_chain_continues (op : M OperationResult)
    (ops : list (M OperationResult)) (w : World) :
  (op w).1 = ContinueProcessing ->
  run_chain (op :: ops) w = run_chain ops (op w).2.
Proof.
  cbn. unfold bind. destruct (op w) as [r w1]. cbn. now intros ->.
Qed.

Lemma run_chain_last (op : M OperationResult) (w : World) :
  run_chain [op] w = op w.
Proof.
  cbn. unfold bind, ret. now destruct (op w) as [[| | |e] w1].
Qed.

End ChainLemmas.

(** X17. When the plan of the Release has no admission for its application
    and no PipelineRun exists, the gate lets the chain continue and the
    trigger, which resolves the admission again, then marks the Release
    invalid with the release-plan-validation reason and the text of the
    no-admission error, patches the status and stops the chain (target and
    application being names without a space and no call failing): six calls
    in all, the patch last, and no PipelineRun created. *)
Theorem X17_missing_admission_is_reported (w : World)
    (releasePlan : ReleasePlan.t) :
  plan_of w = Some releasePlan ->
  candidates releasePlan (cluster w) = [] ->
  Strings.free_of " " (ReleasePlan.Target releasePlan) = true ->
  Strings.free_of " " (ReleasePlan.Application releasePlan) = true ->
  labelled_runs w = [] ->
  calm 6 (faults w) = true ->
  is_Some (stored_release w) ->
  let out :=
    Reconciler.run_chain
      [Adapter.EnsureReleasePlanAdmissionEnabled;
       Adapter.EnsureReleasePipelineRunExists] w in
  let err :=
    Adapter.none_found (ReleasePlan.Target releasePlan)
      (ReleasePlan.Application releasePlan) in
  out.1 = Reconciler.StopProcessing
  /\ Release.invalid_for Release.ReleaseReasonReleasePlanValidationError
       (Error err) (release out.2)
  /\ calls_since w out.2
     = admissionCalls w releasePlan
       ++ [lookupCall w] ++ admissionCalls w releasePlan ++ [CallStatusPatch]
  /\ pipelineRuns (cluster out.2) = pipelineRuns (cluster w).
Proof.
  intros Hplan Hcand Ht Ha Hnone Hcalm Hstored. cbn zeta.
  set (err := Adapter.none_found _ _).
  assert (Hgate : Adapter.EnsureReleasePlanAdmissionEnabled w
                  = (Reconciler.ContinueProcessing,
                     pass_calls (admissionCalls w releasePlan) w)).
  { destruct (none_found_unmarked _ _ Ht Ha) as [Hm Hd].
    rewrite EnsureReleasePlanAdmissionEnabled_eq. cbn zeta.
    rewrite getActive_eq, (calm_next_fault 5 _ Hcalm), Hplan.
    rewrite (calm_prefix 6 _ w Hcalm) by (cbn; lia).
    unfold resolve. rewrite Hcand. cbn [fst snd]. now rewrite Hm, Hd. }
  rewrite run_chain_continues by now rewrite Hgate.
  rewrite run_chain_last, Hgate. cbn [snd].
  set (w1 := pass_calls (admissionCalls w releasePlan) w).
  rewrite (EnsureReleasePipelineRunExists_absent w1)
    by (left; split; [apply (calm_prefix 6 _ w Hcalm); cbn; lia | exact Hnone]).
  unfold Adapter.createPath, bind, ret. rewrite getActive_eq.
  subst w1. rewrite !pass_calls_app.
  rewrite (calm_prefix 6 _ w Hcalm) by (cbn; lia).
  change (plan_of (pass_calls _ w)) with (plan_of w). rewrite Hplan.
  rewrite !pass_calls_app.
  rewrite (calm_prefix 6 _ w Hcalm) by (cbn; lia).
  change (cluster (pass_calls _ w)) with (cluster w).
  unfold resolve. rewrite Hcand. fold err.
  rewrite markInvalidAndStop_eq. cbn zeta.
  rewrite (patch_error_calm _ w)
    by first [exact Hstored | (cbn; exact Hcalm)].
  cbn [fst snd Reconciler.RequeueOnErrorOrStop].
  split; [reflexivity|]. split; [apply MarkInvalid_invalid|].
  split; [|reflexivity].
  unfold calls_since. cbn [calls status_patched with_cluster with_release
                           pass_calls].
  rewrite <- app_assoc, drop_app_length. cbn. reflexivity.
Qed.

(** X17 at work on [w_no_admission]. *)
Lemma X17_witness :
  (Reconciler.run_chain
     [Adapter.EnsureReleasePlanAdmissionEnabled;
      Adapter.EnsureReleasePipelineRunExists] Fixtures.w_no_admission).1
  = Reconciler.StopProcessing
  /\ Release.invalid_for Release.ReleaseReasonReleasePlanValidationError
       "no ReleasePlanAdmission found in the target (managed) for application 'app'"
       (release
          (Reconciler.run_chain
             [Adapter.EnsureReleasePlanAdmissionEnabled;
              Adapter.EnsureReleasePipelineRunExists]
             Fixtures.w_no_admission).2).
Proof.
  destruct (X17_missing_admission_is_reported Fixtures.w_no_admission
              Fixtures.plan eq_refl eq_refl eq_refl eq_refl eq_refl eq_refl
              (ex_intro _ Fixtures.fresh eq_refl)) as (Hres & Hinv & _).
  split; [exact Hres | exact Hinv].
Defined.
